(** * Camera session manager of [main.py]: a shallow embedding

    The webcam path of the application keeps four module-level globals
    ([camera], [is_running], [last_frame], [error_message]) and talks to
    capture devices through OpenCV.  The globals are a record, the device
    is an oracle answering every OpenCV call from the history of calls made
    so far, and each Python function is a computation in a state monad with
    exceptions over the pair (globals, history).  The [print] calls of the
    session functions are left out; the diagnostics, whose output is
    captured and returned, are modelled with their prints over a process
    that adds the text streams to the session. *)

From Stdlib Require Import ZArith QArith List String Ascii Bool Arith Lia.
From Stdlib Require Import Sorted RelationClasses DecimalString.
Import ListNotations.

Local Open Scope string_scope.
Local Open Scope list_scope.
Local Open Scope Z_scope.

(** ** Images *)

(** A [numpy] image of shape [(rows, cols, 3)].  Pixel contents are kept
    symbolically: an all-zero array, raw sensor data (one triple per pixel),
    or the result of drawing a text on another canvas with [cv2.putText].
    Two canvases built by the same drawing calls hold the same pixels; the
    converse does not hold of pixel arrays (drawing an empty text changes no
    pixel), so equality of images is used in conclusions only, never as a
    hypothesis. *)
Inductive canvas : Type :=
| Zeros
| Sensor (px : list (Z * Z * Z))
| PutText (under : canvas) (text : string) (org : Z * Z) (fontFace : Z)
          (fontScale : Q) (color : Z * Z * Z) (thickness : Z) (lineType : Z).

Record image : Type := { rows : Z; cols : Z; pixels : canvas }.

Definition shape (img : image) : Z * Z * Z := (rows img, cols img, 3).

Definition np_zeros (r c : Z) : image := {| rows := r; cols := c; pixels := Zeros |}.

Definition putText (img : image) (text : string) (org : Z * Z) (fontFace : Z)
           (fontScale : Q) (color : Z * Z * Z) (thickness : Z) (lineType : Z) : image :=
  {| rows := rows img; cols := cols img;
     pixels := PutText (pixels img) text org fontFace fontScale color thickness lineType |}.

Definition swap_channels (p : Z * Z * Z) : Z * Z * Z :=
  let '(c0, c1, c2) := p in (c2, c1, c0).

Fixpoint swap_canvas (c : canvas) : canvas :=
  match c with
  | Zeros => Zeros
  | Sensor px => Sensor (map swap_channels px)
  | PutText u t o f s col th lt => PutText (swap_canvas u) t o f s (swap_channels col) th lt
  end.

(** What [cv2.cvtColor(frame, cv2.COLOR_BGR2RGB)] returns when it returns:
    the first and the last channel change places. *)
Definition bgr2rgb (img : image) : image :=
  {| rows := rows img; cols := cols img; pixels := swap_canvas (pixels img) |}.

(** The array has no pixel: [cv2.cvtColor] raises on it. *)
Definition empty (img : image) : bool := (rows img <=? 0) || (cols img <=? 0).

Definition FONT_HERSHEY_SIMPLEX : Z := 0.
Definition LINE_8 : Z := 8.
Definition LINE_AA : Z := 16.
Definition CAP_DSHOW : Z := 700.

Definition is_640x480 (img : image) : bool :=
  (rows img =? 480) && (cols img =? 640).

(** ** Strings *)

Definition newline : ascii := "010"%char.
Definition nl : string := String newline EmptyString.

(** [s.split(sep)] for a one-character separator. *)
Fixpoint split (sep : ascii) (s : string) : list string :=
  match s with
  | EmptyString => [EmptyString]
  | String c s' =>
      if Ascii.eqb c sep then EmptyString :: split sep s'
      else match split sep s' with
           | [] => [String c EmptyString]
           | w :: ws => String c w :: ws
           end
  end.

(** ** create_error_image *)

(** The body of the [for i, line in enumerate(...)] loop, with the running
    index [i] and the local [y]. *)
Fixpoint draw_lines (img : image) (i : Z) (y : Z) (lines : list string) : image :=
  match lines with
  | [] => img
  | line :: rest =>
      if 6 <? i then img
      else draw_lines
             (putText img line (20, y) FONT_HERSHEY_SIMPLEX (7 # 10)%Q (255, 255, 255) 1 LINE_AA)
             (i + 1) (y + 40) rest
  end.

Definition create_error_image (error_text : string) : image :=
  draw_lines (np_zeros 480 640) 0 50 (split newline error_text).

(** ** Devices *)

Inductive result (A : Type) : Type :=
| Ok (a : A)
| Raise (e : string).
Arguments Ok {A} a.
Arguments Raise {A} e.

(** A [cv2.VideoCapture] object: [hid] tells the objects apart (it is the
    number of device calls made before the object was created), [hindex] is
    the camera index it was created for. *)
Record handle : Type := { hid : nat; hindex : Z }.

Inductive cap_prop : Type :=
| CAP_PROP_FRAME_WIDTH
| CAP_PROP_FRAME_HEIGHT
| CAP_PROP_FPS
| CAP_PROP_BUFFERSIZE.

(** The [float] returned by [VideoCapture.get]. *)
Inductive pyfloat : Type :=
| Finite (q : Q)
| Infinity (negative : bool)
| NaN.

(** One device call together with what it returned or raised. *)
Inductive event : Type :=
| EvVideoCapture (index : Z) (apiPreference : option Z) (r : result handle)
| EvIsOpened (h : handle) (r : result bool)
| EvRead (h : handle) (r : result (bool * option image))
| EvSet (h : handle) (p : cap_prop) (v : Z) (r : result bool)
| EvGet (h : handle) (p : cap_prop) (r : result pyfloat)
| EvRelease (h : handle) (r : result unit).

(** A device model answers each call from the history of earlier calls;
    every call may raise.  [cvtColor_error] is the text of the [cv2.error]
    that [cv2.cvtColor] raises on an empty array. *)
Record device : Type := {
  platform_system : string;
  cvtColor_error : string;
  on_VideoCapture : list event -> Z -> option Z -> result unit;
  on_isOpened : list event -> handle -> result bool;
  on_read : list event -> handle -> result (bool * option image);
  on_set : list event -> handle -> cap_prop -> Z -> result bool;
  on_get : list event -> handle -> cap_prop -> result pyfloat;
  on_release : list event -> handle -> result unit
}.

(** ** Program state *)

Record globals : Type := {
  camera : option handle;
  is_running : bool;
  last_frame : option image;
  error_message : option string
}.

Record machine : Type := { vars : globals; calls : list event }.

(** Lines 10-18: the globals after the module has been loaded. *)
Definition initial_globals : globals :=
  {| camera := None;
     is_running := false;
     last_frame :=
       Some (putText (np_zeros 480 640) "Press 'Start Webcam' to begin" (50, 240)
                     FONT_HERSHEY_SIMPLEX (8 # 10)%Q (255, 255, 255) 2 LINE_8);
     error_message := None |}.

Definition initial_machine : machine := {| vars := initial_globals; calls := [] |}.

(** ** The monad: state over [machine], with exceptions *)

Definition M (A : Type) : Type := machine -> result A * machine.

Definition ret {A} (a : A) : M A := fun m => (Ok a, m).

Definition raise {A} (e : string) : M A := fun m => (Raise e, m).

Definition bind {A B} (c : M A) (k : A -> M B) : M B :=
  fun m =>
    match c m with
    | (Ok a, m') => k a m'
    | (Raise e, m') => (Raise e, m')
    end.

(** [try: body except Exception as e: handler(str(e))] *)
Definition try_except {A} (body : M A) (handler : string -> M A) : M A :=
  fun m =>
    match body m with
    | (Ok a, m') => (Ok a, m')
    | (Raise e, m') => handler e m'
    end.

(** [try: body finally: cleanup] *)
Definition try_finally {A} (body : M A) (cleanup : M unit) : M A :=
  fun m =>
    match body m with
    | (r, m') =>
        match cleanup m' with
        | (Ok _, m'') => (r, m'')
        | (Raise e, m'') => (Raise e, m'')
        end
    end.

Notation "x <- c1 ;; c2" := (bind c1 (fun x => c2))
  (at level 61, c1 at next level, right associativity).
Notation "' pat <- c1 ;; c2" := (bind c1 (fun x => match x with pat => c2 end))
  (at level 61, pat pattern, c1 at next level, right associativity).
Notation "c1 ;; c2" := (bind c1 (fun _ => c2))
  (at level 61, right associativity).

(** Reading and assigning the globals. *)
Definition get_camera : M (option handle) := fun m => (Ok (camera (vars m)), m).
Definition get_is_running : M bool := fun m => (Ok (is_running (vars m)), m).
Definition get_last_frame : M (option image) := fun m => (Ok (last_frame (vars m)), m).
Definition get_error_message : M (option string) := fun m => (Ok (error_message (vars m)), m).

Definition with_camera (c : option handle) (g : globals) : globals :=
  {| camera := c; is_running := is_running g;
     last_frame := last_frame g; error_message := error_message g |}.
Definition with_is_running (b : bool) (g : globals) : globals :=
  {| camera := camera g; is_running := b;
     last_frame := last_frame g; error_message := error_message g |}.
Definition with_last_frame (f : option image) (g : globals) : globals :=
  {| camera := camera g; is_running := is_running g;
     last_frame := f; error_message := error_message g |}.
Definition with_error_message (e : option string) (g : globals) : globals :=
  {| camera := camera g; is_running := is_running g;
     last_frame := last_frame g; error_message := e |}.

Definition modify (f : globals -> globals) : M unit :=
  fun m => (Ok tt, {| vars := f (vars m); calls := calls m |}).

Definition set_camera (c : option handle) : M unit := modify (with_camera c).
Definition set_is_running (b : bool) : M unit := modify (with_is_running b).
Definition set_last_frame (f : option image) : M unit := modify (with_last_frame f).
Definition set_error_message (e : option string) : M unit := modify (with_error_message e).

Definition record (ev : event) (m : machine) : machine :=
  {| vars := vars m; calls := calls m ++ [ev] |}.

Definition attribute_error (name : string) : string :=
  ("'NoneType' object has no attribute '" ++ name ++ "'")%string.

Section Program.

Variable dev : device.

(** *** Device calls *)

(** [cv2.VideoCapture(index)] or [cv2.VideoCapture(index, cv2.CAP_DSHOW)] *)
Definition VideoCapture (index : Z) (apiPreference : option Z) : M handle :=
  fun m =>
    match on_VideoCapture dev (calls m) index apiPreference with
    | Ok _ =>
        let h := {| hid := List.length (calls m); hindex := index |} in
        (Ok h, record (EvVideoCapture index apiPreference (Ok h)) m)
    | Raise e => (Raise e, record (EvVideoCapture index apiPreference (Raise e)) m)
    end.

Definition cap_isOpened (h : handle) : M bool :=
  fun m => let r := on_isOpened dev (calls m) h in (r, record (EvIsOpened h r) m).

Definition cap_read (h : handle) : M (bool * option image) :=
  fun m => let r := on_read dev (calls m) h in (r, record (EvRead h r) m).

Definition cap_set (h : handle) (p : cap_prop) (v : Z) : M bool :=
  fun m => let r := on_set dev (calls m) h p v in (r, record (EvSet h p v r) m).

Definition cap_get (h : handle) (p : cap_prop) : M pyfloat :=
  fun m => let r := on_get dev (calls m) h p in (r, record (EvGet h p r) m).

Definition cap_release (h : handle) : M unit :=
  fun m => let r := on_release dev (calls m) h in (r, record (EvRelease h r) m).

(** A method call on the global [camera], which may be [None]. *)
Definition on_camera {A} (name : string) (method : handle -> M A) : M A :=
  cam <- get_camera ;;
  match cam with
  | Some c => method c
  | None => raise (attribute_error name)
  end.

(** [cv2.cvtColor(frame, cv2.COLOR_BGR2RGB)]: frames have three channels,
    so the conversion goes through unless the array is empty. *)
Definition cvtColor_BGR2RGB (frame : image) : M image :=
  if empty frame then raise (cvtColor_error dev) else ret (bgr2rgb frame).

(** The backend argument chosen by [platform.system() == "Windows"]. *)
Definition backend : option Z :=
  if String.eqb (platform_system dev) "Windows" then Some CAP_DSHOW else None.

(** *** initialize_camera *)

Definition no_camera_message : string :=
  ("No working camera found. Possible issues:" ++ nl ++
   "1. Camera is being used by another application" ++ nl ++
   "2. Camera drivers not installed" ++ nl ++
   "3. Camera permissions denied" ++ nl ++
   "4. No camera connected")%string.

(** Lines 59-69: the branch taken when the test read delivered a frame. *)
Definition adopt (test_camera : handle) : M (option bool) :=
  set_camera (Some test_camera) ;;
  on_camera "set" (fun c => cap_set c CAP_PROP_FRAME_WIDTH 640) ;;
  on_camera "set" (fun c => cap_set c CAP_PROP_FRAME_HEIGHT 480) ;;
  on_camera "set" (fun c => cap_set c CAP_PROP_FPS 30) ;;
  on_camera "set" (fun c => cap_set c CAP_PROP_BUFFERSIZE 1) ;;
  set_error_message None ;;
  ret (Some true).

(** The [for camera_index in [0, 1, 2]] loop.  [Some b] means the loop was
    left by [return b]; [None] means it ran to its end. *)
Fixpoint probe_indices (indices : list Z) : M (option bool) :=
  match indices with
  | [] => ret None
  | camera_index :: rest =>
      test_camera <- VideoCapture camera_index backend ;;
      opened <- cap_isOpened test_camera ;;
      if opened then
        ' (r, frame) <- cap_read test_camera ;;
        match r, frame with
        | true, Some _ => adopt test_camera
        | _, _ =>
            cap_release test_camera ;;
            probe_indices rest
        end
      else
        cap_release test_camera ;;
        probe_indices rest
  end.

(** The [try] block of [initialize_camera]: [Some b] when it returns [b],
    [None] when control falls through to the last line of the function,
    which is outside the [try]. *)
Definition acquire : M (option bool) :=
  cam <- get_camera ;;
  match cam with
  | None =>
      r <- probe_indices [0; 1; 2] ;;
      match r with
      | Some b => ret (Some b)
      | None =>
          set_error_message (Some no_camera_message) ;;
          ret (Some false)
      end
  | Some _ => ret None
  end.

Definition initialize_camera : M bool :=
  r <- try_except acquire
         (fun e =>
            set_error_message (Some ("Camera initialization error: " ++ e)%string) ;;
            ret (Some false)) ;;
  match r with
  | Some b => ret b
  | None =>
      cam <- get_camera ;;
      match cam with
      | None => ret false
      | Some c => cap_isOpened c
      end
  end.

(** *** start_webcam *)

(** The read shared by [start_webcam] (lines 107-117) and [get_webcam_frame]
    (lines 160-167): one [camera.read()], the frame converted and kept in
    [last_frame], or an error image with the given text. *)
Definition read_and_store (failure_text : string) : M (option image) :=
  ' (r, frame) <- on_camera "read" cap_read ;;
  match r, frame with
  | true, Some f =>
      frame <- cvtColor_BGR2RGB f ;;
      set_last_frame (Some frame) ;;
      ret (Some frame)
  | _, _ => ret (Some (create_error_image failure_text))
  end.

(** [error_message or "Camera initialization failed"] *)
Definition or_default (s : option string) (default : string) : string :=
  match s with
  | None => default
  | Some EmptyString => default
  | Some t => t
  end.

Definition start_webcam : M (option image) :=
  set_is_running true ;;
  ok <- initialize_camera ;;
  if negb ok then
    msg <- get_error_message ;;
    ret (Some (create_error_image (or_default msg "Camera initialization failed")))
  else
    try_except
      (read_and_store "Camera opened but cannot read frames")
      (fun e => ret (Some (create_error_image ("Error reading from camera: " ++ e)%string))).

(** *** stop_webcam *)

Definition stop_webcam : M (option image) :=
  set_is_running false ;;
  cam <- get_camera ;;
  match cam with
  | Some c =>
      try_finally
        (try_except (cap_release c) (fun _ => ret tt))
        (set_camera None)
  | None => ret tt
  end ;;
  get_last_frame.

(** *** get_webcam_frame *)

(** [x > 1] for a float [x]. *)
Definition float_gt_one (x : pyfloat) : bool :=
  match x with
  | Finite q => negb (Qle_bool q 1)
  | Infinity negative => negb negative
  | NaN => false
  end.

(** [int(x)] for a float [x]: truncation, or an exception. *)
Definition py_int (x : pyfloat) : M Z :=
  match x with
  | Finite q => ret (Z.quot (Qnum q) (Z.pos (Qden q)))
  | Infinity _ => raise "cannot convert float infinity to integer"
  | NaN => raise "cannot convert float NaN to integer"
  end.

(** [for _ in range(n): camera.read()] *)
Fixpoint discard_frames (n : nat) : M unit :=
  match n with
  | O => ret tt
  | S n' => on_camera "read" cap_read ;; discard_frames n'
  end.

(** Lines 156-158: skip buffered frames. *)
Definition drain_buffer : M unit :=
  depth <- on_camera "get" (fun c => cap_get c CAP_PROP_BUFFERSIZE) ;;
  if float_gt_one depth then
    depth' <- on_camera "get" (fun c => cap_get c CAP_PROP_BUFFERSIZE) ;;
    n <- py_int depth' ;;
    discard_frames (Z.to_nat (n - 1))
  else ret tt.

Definition get_webcam_frame : M (option image) :=
  running <- get_is_running ;;
  if negb running then get_last_frame
  else
    cam <- get_camera ;;
    match cam with
    | None => ret (Some (create_error_image "Camera not initialized"))
    | Some _ =>
        try_except
          (drain_buffer ;;
           read_and_store "Failed to read frame from camera")
          (fun e => ret (Some (create_error_image ("Error getting webcam frame: " ++ e)%string)))
    end.

(** *** check_camera_permissions *)

(** The [for i in range(3)] loop with the local list [available_cameras]. *)
Fixpoint list_cameras (indices : list Z) (available_cameras : list Z) : M (list Z) :=
  match indices with
  | [] => ret available_cameras
  | i :: rest =>
      cap <- VideoCapture i backend ;;
      opened <- cap_isOpened cap ;;
      if opened then
        ' (r, _) <- cap_read cap ;;
        let available_cameras :=
          if (r : bool) then available_cameras ++ [i] else available_cameras in
        cap_release cap ;;
        list_cameras rest available_cameras
      else list_cameras rest available_cameras
  end.

Definition range (n : nat) : list Z := map Z.of_nat (seq 0 n).

Definition check_camera_permissions : M (list Z) :=
  try_except (list_cameras (range 3) []) (fun _ => ret []).

(** *** Sequences of user actions *)

Inductive action : Type := Start | Stop | Poll.

Definition perform (a : action) : M (option image) :=
  match a with
  | Start => start_webcam
  | Stop => stop_webcam
  | Poll => get_webcam_frame
  end.

(** Runs the actions in order and collects what each call returned. *)
Fixpoint session (acts : list action) (m : machine) : list (result (option image)) * machine :=
  match acts with
  | [] => ([], m)
  | a :: rest =>
      let '(r, m') := perform a m in
      let '(rs, m'') := session rest m' in
      (r :: rs, m'')
  end.

End Program.

(** ** Console output and the diagnostics *)

(** [str(n)] for an [int]. *)
Definition str_int (z : Z) : string := NilZero.string_of_int (Z.to_int z).

(** [sep.join(parts)] *)
Fixpoint join (sep : string) (parts : list string) : string :=
  match parts with
  | [] => EmptyString
  | [p] => p
  | p :: rest => (p ++ sep ++ join sep rest)%string
  end.

(** [str(l)] for a list of [int]. *)
Definition str_list (l : list Z) : string :=
  ("[" ++ join ", " (map str_int l) ++ "]")%string.

(** [c.isspace()] for an ASCII character. *)
Definition is_space (c : ascii) : bool :=
  let n := nat_of_ascii c in
  (Nat.leb 9 n && Nat.leb n 13) || (Nat.leb 28 n && Nat.leb n 32).

(** [s.split()]: the maximal runs of non-space characters of an ASCII
    string. *)
Fixpoint split_whitespace (s : string) : list string :=
  match s with
  | EmptyString => []
  | String c s' =>
      if is_space c then split_whitespace s'
      else match s' with
           | EmptyString => [String c EmptyString]
           | String c' _ =>
               if is_space c' then String c EmptyString :: split_whitespace s'
               else match split_whitespace s' with
                    | w :: ws => String c w :: ws
                    | [] => [String c EmptyString]
                    end
           end
  end.

(** What the interpreter and the libraries report about themselves:
    [platform.release()], [sys.version] (an ASCII string) and
    [cv2.__version__]. *)
Record host : Type := {
  platform_release : string;
  sys_version : string;
  cv2_version : string
}.

(** A text stream: the one the process started with, or an [io.StringIO]
    object. *)
Inductive stream : Type :=
| Terminal
| StringIO (id : nat).

Definition stream_eqb (a b : stream) : bool :=
  match a, b with
  | Terminal, Terminal => true
  | StringIO i, StringIO j => Nat.eqb i j
  | _, _ => false
  end.

(** The session together with the streams: what [sys.stdout] and
    [sys.stderr] refer to, how many [io.StringIO] objects exist, and every
    text written so far with the stream it went to, oldest first. *)
Record process : Type := {
  session_state : machine;
  sys_stdout : stream;
  sys_stderr : stream;
  string_ios : nat;
  writes : list (stream * string)
}.

Definition initial_process : process :=
  {| session_state := initial_machine;
     sys_stdout := Terminal;
     sys_stderr := Terminal;
     string_ios := 0;
     writes := [] |}.

(** Computations over a process, with exceptions. *)
Definition IO (A : Type) : Type := process -> result A * process.

Definition io_ret {A} (a : A) : IO A := fun p => (Ok a, p).

Definition io_raise {A} (e : string) : IO A := fun p => (Raise e, p).

Definition io_bind {A B} (c : IO A) (k : A -> IO B) : IO B :=
  fun p =>
    match c p with
    | (Ok a, p') => k a p'
    | (Raise e, p') => (Raise e, p')
    end.

Definition io_try_except {A} (body : IO A) (handler : string -> IO A) : IO A :=
  fun p =>
    match body p with
    | (Ok a, p') => (Ok a, p')
    | (Raise e, p') => handler e p'
    end.

Definition io_try_finally {A} (body : IO A) (cleanup : IO unit) : IO A :=
  fun p =>
    match body p with
    | (r, p') =>
        match cleanup p' with
        | (Ok _, p'') => (r, p'')
        | (Raise e, p'') => (Raise e, p'')
        end
    end.

(** A computation of the session run inside a process. *)
Definition lift {A} (c : M A) : IO A :=
  fun p =>
    let '(r, m') := c (session_state p) in
    (r, {| session_state := m'; sys_stdout := sys_stdout p; sys_stderr := sys_stderr p;
           string_ios := string_ios p; writes := writes p |}).

(** [print(text)]: the text and a newline go to what [sys.stdout] is. *)
Definition print (text : string) : IO unit :=
  fun p =>
    (Ok tt, {| session_state := session_state p; sys_stdout := sys_stdout p;
               sys_stderr := sys_stderr p; string_ios := string_ios p;
               writes := writes p ++ [(sys_stdout p, (text ++ nl)%string)] |}).

(** [io.StringIO()] *)
Definition new_StringIO : IO stream :=
  fun p =>
    (Ok (StringIO (string_ios p)),
     {| session_state := session_state p; sys_stdout := sys_stdout p;
        sys_stderr := sys_stderr p; string_ios := S (string_ios p);
        writes := writes p |}).

Definition set_sys_stdout (s : stream) : IO unit :=
  fun p =>
    (Ok tt, {| session_state := session_state p; sys_stdout := s;
               sys_stderr := sys_stderr p; string_ios := string_ios p;
               writes := writes p |}).

Definition set_sys_stderr (s : stream) : IO unit :=
  fun p =>
    (Ok tt, {| session_state := session_state p; sys_stdout := sys_stdout p;
               sys_stderr := s; string_ios := string_ios p;
               writes := writes p |}).

Definition get_sys_stdout : IO stream := fun p => (Ok (sys_stdout p), p).
Definition get_sys_stderr : IO stream := fun p => (Ok (sys_stderr p), p).

(** The text a stream holds: everything written to it, in order. *)
Definition contents (s : stream) (w : list (stream * string)) : string :=
  String.concat EmptyString (map snd (filter (fun x => stream_eqb (fst x) s) w)).

(** [f.getvalue()] *)
Definition getvalue (f : stream) : IO string := fun p => (Ok (contents f (writes p)), p).

Declare Scope io_scope.
Delimit Scope io_scope with io.

Notation "x <- c1 ;; c2" := (io_bind c1 (fun x => c2))
  (at level 61, c1 at next level, right associativity) : io_scope.
Notation "' pat <- c1 ;; c2" := (io_bind c1 (fun x => match x with pat => c2 end))
  (at level 61, pat pattern, c1 at next level, right associativity) : io_scope.
Notation "c1 ;; c2" := (io_bind c1 (fun _ => c2))
  (at level 61, right associativity) : io_scope.

(** [with redirect_stdout(f): body] *)
Definition redirect_stdout {A} (f : stream) (body : IO A) : IO A :=
  (old <- get_sys_stdout ;;
   set_sys_stdout f ;;
   io_try_finally body (set_sys_stdout old))%io.

Section Diagnostics.

Variable dev : device.
Variable py : host.

Local Open Scope io_scope.

(** [check_camera_permissions] with its [print] calls. *)
Definition check_camera_permissions_printing : IO (list Z) :=
  io_try_except
    (available_cameras <- lift (list_cameras dev (range 3) []) ;;
     print ("Available cameras: " ++ str_list available_cameras) ;;
     io_ret available_cameras)
    (fun e =>
       print ("Error checking camera permissions: " ++ e) ;;
       io_ret []).

(** [sys.version.split()[0]] *)
Definition python_version : IO string :=
  match split_whitespace (sys_version py) with
  | w :: _ => io_ret w
  | [] => io_raise "list index out of range"
  end.

(** Lines 213-228: the guidance for the platform. *)
Definition print_guidance : IO unit :=
  if String.eqb (platform_system dev) "Windows" then
    print (nl ++ "Windows Camera Permissions:") ;;
    print "1. Go to Settings ‚Üí Privacy & Security ‚Üí Camera" ;;
    print "2. Ensure 'Camera access' is ON" ;;
    print "3. Ensure 'Let apps access your camera' is ON" ;;
    print "4. Make sure Python/your IDE has camera access"
  else if String.eqb (platform_system dev) "Darwin" then
    print (nl ++ "macOS Camera Permissions:") ;;
    print "1. Go to System Preferences ‚Üí Security & Privacy ‚Üí Privacy" ;;
    print "2. Select Camera from the left sidebar" ;;
    print "3. Check the box next to your Python IDE or Terminal"
  else
    print (nl ++ "Linux Camera Access:") ;;
    print "1. Check permissions with: v4l2-ctl --list-devices" ;;
    print "2. Ensure user is in the 'video' group: sudo usermod -aG video $USER".

(** Lines 232-249: the test of camera index 0. *)
Definition test_index_0 : IO unit :=
  io_try_except
    (cap <- lift (VideoCapture dev 0 (backend dev)) ;;
     opened <- lift (cap_isOpened dev cap) ;;
     if opened then
       ' (r, frame) <- lift (cap_read dev cap) ;;
       (if (r : bool) then
          print "‚úì Camera opens and reads frames successfully!" ;;
          match frame with
          | Some f =>
              print ("  Frame dimensions: " ++ str_int (cols f) ++ "x" ++ str_int (rows f))
          | None => io_raise (attribute_error "shape")
          end
        else print "‚úó Camera opens but cannot read frames") ;;
       lift (cap_release dev cap)
     else print "‚úó Cannot open camera index 0")
    (fun e => print ("‚úó Error testing camera: " ++ e)).

Definition diagnose_camera_issues : IO unit :=
  print "=== CAMERA DIAGNOSTICS ===" ;;
  print ("System: " ++ platform_system dev ++ " " ++ platform_release py) ;;
  version <- python_version ;;
  print ("Python version: " ++ version) ;;
  print ("OpenCV version: " ++ cv2_version py) ;;
  available_cameras <- check_camera_permissions_printing ;;
  print ("Detected cameras: " ++ str_list available_cameras) ;;
  print_guidance ;;
  print (nl ++ "Testing camera index 0:") ;;
  test_index_0 ;;
  print "=== END DIAGNOSTICS ===".

Definition get_diagnostic_report : IO string :=
  f <- new_StringIO ;;
  redirect_stdout f
    (original_stderr <- get_sys_stderr ;;
     sink <- new_StringIO ;;
     set_sys_stderr sink ;;
     io_try_finally diagnose_camera_issues (set_sys_stderr original_stderr)) ;;
  getvalue f.

End Diagnostics.

(** ** The page: which function feeds which component *)

(** The two output components of the Gradio page. *)
Record page : Type := {
  webcam_feed : option image;
  diag_output : string
}.

(** The events the page reacts to: the periodic [demo.load] call and the
    three buttons. *)
Inductive ui_event : Type :=
| Tick
| StartClick
| StopClick
| DiagnosticsClick.

(** The page as it is built: [webcam_feed] gets [value=last_frame]. *)
Definition initial_page : page :=
  {| webcam_feed := last_frame initial_globals; diag_output := EmptyString |}.

Section Page.

Variable dev : device.
Variable py : host.

(** An event handler whose result goes to [webcam_feed]; when the handler
    raises, the component keeps its value. *)
Definition to_webcam_feed (fn : M (option image)) (s : process * page) : process * page :=
  let '(r, p') := lift fn (fst s) in
  match r with
  | Ok img => (p', {| webcam_feed := img; diag_output := diag_output (snd s) |})
  | Raise _ => (p', snd s)
  end.

(** An event handler whose result goes to [diag_output]. *)
Definition to_diag_output (fn : IO string) (s : process * page) : process * page :=
  let '(r, p') := fn (fst s) in
  match r with
  | Ok text => (p', {| webcam_feed := webcam_feed (snd s); diag_output := text |})
  | Raise _ => (p', snd s)
  end.

(** Lines 287-311: the wiring of events to functions and components. *)
Definition dispatch (ev : ui_event) : process * page -> process * page :=
  match ev with
  | Tick => to_webcam_feed (get_webcam_frame dev)
  | StartClick => to_webcam_feed (start_webcam dev)
  | StopClick => to_webcam_feed (stop_webcam dev)
  | DiagnosticsClick => to_diag_output (get_diagnostic_report dev py)
  end.

Definition interact (evs : list ui_event) (s : process * page) : process * page :=
  fold_left (fun s ev => dispatch ev s) evs s.

End Page.

(** A host to try things on. *)
Definition sample_host : host :=
  {| platform_release := "6.1.0";
     sys_version := "3.11.4 (main, Jun  7 2023, 10:13:09) [GCC 12.2.0]";
     cv2_version := "4.8.0" |}.

(** ** Reading a history of device calls *)

Definition handle_eqb (a b : handle) : bool :=
  Nat.eqb (hid a) (hid b) && Z.eqb (hindex a) (hindex b).

(** The camera indices [cv2.VideoCapture] was called with, in call order. *)
Fixpoint probed_indices (t : list event) : list Z :=
  match t with
  | [] => []
  | EvVideoCapture i _ _ :: t' => i :: probed_indices t'
  | _ :: t' => probed_indices t'
  end.

(** The capture objects [cv2.VideoCapture] returned, in call order. *)
Fixpoint opened_handles (t : list event) : list handle :=
  match t with
  | [] => []
  | EvVideoCapture _ _ (Ok h) :: t' => h :: opened_handles t'
  | _ :: t' => opened_handles t'
  end.

(** The [set] calls, in call order. *)
Fixpoint settings (t : list event) : list (handle * cap_prop * Z) :=
  match t with
  | [] => []
  | EvSet h p v _ :: t' => (h, p, v) :: settings t'
  | _ :: t' => settings t'
  end.

(** The number of [read] calls on [h]. *)
Fixpoint reads_of (h : handle) (t : list event) : nat :=
  match t with
  | [] => O
  | EvRead h' _ :: t' => ((if handle_eqb h h' then 1 else 0) + reads_of h t')%nat
  | _ :: t' => reads_of h t'
  end.

(** [release] was called on [h]. *)
Definition released (t : list event) (h : handle) : bool :=
  existsb (fun ev => match ev with EvRelease h' _ => handle_eqb h h' | _ => false end) t.

(** [h.isOpened()] answered [False], or the test read of [h] came back without
    a frame. *)
Definition rejected (t : list event) (h : handle) : Prop :=
  In (EvIsOpened h (Ok false)) t \/
  exists r frame, In (EvRead h (Ok (r, frame))) t /\ (r = false \/ frame = None).

(** [h.isOpened()] answered [True] and the test read of [h] gave frame [f]. *)
Definition accepted (t : list event) (h : handle) (f : image) : Prop :=
  In (EvIsOpened h (Ok true)) t /\ In (EvRead h (Ok (true, Some f))) t.

(** The configuration [initialize_camera] applies to the handle it adopts. *)
Definition configuration (h : handle) : list (handle * cap_prop * Z) :=
  [(h, CAP_PROP_FRAME_WIDTH, 640); (h, CAP_PROP_FRAME_HEIGHT, 480);
   (h, CAP_PROP_FPS, 30); (h, CAP_PROP_BUFFERSIZE, 1)].

(** Every frame the device delivers is 640 wide and 480 high. *)
Definition delivers_640x480 (dev : device) : Prop :=
  forall t h r f, on_read dev t h = Ok (r, Some f) -> is_640x480 f = true.

(** ** Sample devices *)

Module Devices.

Definition black (r c : Z) : image := np_zeros r c.

(** A machine with no camera: objects are created but never open. *)
Definition none : device :=
  {| platform_system := "Linux";
     cvtColor_error := "(-215:Assertion failed) !_src.empty() in function 'cvtColor'";
     on_VideoCapture := fun _ _ _ => Ok tt;
     on_isOpened := fun _ _ => Ok false;
     on_read := fun _ _ => Ok (false, None);
     on_set := fun _ _ _ _ => Ok false;
     on_get := fun _ _ _ => Ok (Finite 0);
     on_release := fun _ _ => Ok tt |}.

(** Every index opens and delivers [frame] on every read. *)
Definition steady (frame : image) : device :=
  {| platform_system := "Linux";
     cvtColor_error := "(-215:Assertion failed) !_src.empty() in function 'cvtColor'";
     on_VideoCapture := fun _ _ _ => Ok tt;
     on_isOpened := fun _ _ => Ok true;
     on_read := fun _ _ => Ok (true, Some frame);
     on_set := fun _ _ _ _ => Ok true;
     on_get := fun _ _ _ => Ok (Finite 1);
     on_release := fun _ _ => Ok tt |}.

(** Only the camera at [index] opens. *)
Definition only (index : Z) (frame : image) : device :=
  {| platform_system := "Windows";
     cvtColor_error := "(-215:Assertion failed) !_src.empty() in function 'cvtColor'";
     on_VideoCapture := fun _ _ _ => Ok tt;
     on_isOpened := fun _ h => Ok (Z.eqb (hindex h) index);
     on_read := fun _ _ => Ok (true, Some frame);
     on_set := fun _ _ _ _ => Ok true;
     on_get := fun _ _ _ => Ok (Finite 1);
     on_release := fun _ _ => Ok tt |}.

(** Every index opens; the read number [n] (counting from 0, over all handles)
    comes back empty, every other read delivers [frame]. *)
Definition dropping (n : nat) (frame : image) : device :=
  {| platform_system := "Linux";
     cvtColor_error := "(-215:Assertion failed) !_src.empty() in function 'cvtColor'";
     on_VideoCapture := fun _ _ _ => Ok tt;
     on_isOpened := fun _ _ => Ok true;
     on_read := fun t _ =>
       if Nat.eqb (List.length (filter (fun ev => match ev with EvRead _ _ => true | _ => false end) t)) n
       then Ok (false, None) else Ok (true, Some frame);
     on_set := fun _ _ _ _ => Ok true;
     on_get := fun _ _ _ => Ok (Finite 1);
     on_release := fun _ _ => Ok tt |}.

(** Every index opens and reads, but configuring raises. *)
Definition unconfigurable (frame : image) : device :=
  {| platform_system := "Linux";
     cvtColor_error := "(-215:Assertion failed) !_src.empty() in function 'cvtColor'";
     on_VideoCapture := fun _ _ _ => Ok tt;
     on_isOpened := fun _ _ => Ok true;
     on_read := fun _ _ => Ok (true, Some frame);
     on_set := fun _ _ _ _ => Raise "set failed";
     on_get := fun _ _ _ => Ok (Finite 1);
     on_release := fun _ _ => Ok tt |}.

(** Every index opens, but reading and releasing raise. *)
Definition unreadable : device :=
  {| platform_system := "Linux";
     cvtColor_error := "(-215:Assertion failed) !_src.empty() in function 'cvtColor'";
     on_VideoCapture := fun _ _ _ => Ok tt;
     on_isOpened := fun _ _ => Ok true;
     on_read := fun _ _ => Raise "read failed";
     on_set := fun _ _ _ _ => Ok true;
     on_get := fun _ _ _ => Ok (Finite 1);
     on_release := fun _ _ => Raise "release failed" |}.

(** Every index opens and delivers [frame]; the driver reports a buffer of
    [depth] frames. *)
Definition buffered (depth : Q) (frame : image) : device :=
  {| platform_system := "Linux";
     cvtColor_error := "(-215:Assertion failed) !_src.empty() in function 'cvtColor'";
     on_VideoCapture := fun _ _ _ => Ok tt;
     on_isOpened := fun _ _ => Ok true;
     on_read := fun _ _ => Ok (true, Some frame);
     on_set := fun _ _ _ _ => Ok true;
     on_get := fun _ _ _ => Ok (Finite depth);
     on_release := fun _ _ => Ok tt |}.

(** A camera that is unplugged after its second read: objects report
    themselves open until two reads have been made, and closed from then
    on. *)
Definition unplugged (frame : image) : device :=
  {| platform_system := "Linux";
     cvtColor_error := "(-215:Assertion failed) !_src.empty() in function 'cvtColor'";
     on_VideoCapture := fun _ _ _ => Ok tt;
     on_isOpened := fun t _ =>
       Ok (Nat.ltb (List.length (filter (fun ev => match ev with EvRead _ _ => true | _ => false end) t)) 2);
     on_read := fun _ _ => Ok (true, Some frame);
     on_set := fun _ _ _ _ => Ok true;
     on_get := fun _ _ _ => Ok (Finite 1);
     on_release := fun _ _ => Ok tt |}.

(** Every index opens and delivers [frame], until [isOpened] starts to raise
    once two reads have been made. *)
Definition stalling (frame : image) : device :=
  {| platform_system := "Linux";
     cvtColor_error := "(-215:Assertion failed) !_src.empty() in function 'cvtColor'";
     on_VideoCapture := fun _ _ _ => Ok tt;
     on_isOpened := fun t _ =>
       if Nat.ltb (List.length (filter (fun ev => match ev with EvRead _ _ => true | _ => false end) t)) 2
       then Ok true else Raise "isOpened failed";
     on_read := fun _ _ => Ok (true, Some frame);
     on_set := fun _ _ _ _ => Ok true;
     on_get := fun _ _ _ => Ok (Finite 1);
     on_release := fun _ _ => Ok tt |}.

(** Every index opens; reads 0 and 1 deliver [frame], read 2 comes back
    without a frame, and every later read delivers an array without
    pixels. *)
Definition fading (frame : image) : device :=
  {| platform_system := "Linux";
     cvtColor_error := "(-215:Assertion failed) !_src.empty() in function 'cvtColor'";
     on_VideoCapture := fun _ _ _ => Ok tt;
     on_isOpened := fun _ _ => Ok true;
     on_read := fun t _ =>
       match Nat.compare (List.length (filter (fun ev => match ev with EvRead _ _ => true | _ => false end) t)) 2 with
       | Lt => Ok (true, Some frame)
       | Eq => Ok (false, None)
       | Gt => Ok (true, Some (black 0 0))
       end;
     on_set := fun _ _ _ _ => Ok true;
     on_get := fun _ _ _ => Ok (Finite 1);
     on_release := fun _ _ => Ok tt |}.

End Devices.

(** ** Vocabulary of the statements *)

Definition draw_line (img : image) (numbered : nat * string) : image :=
  putText img (snd numbered) (20, 50 + 40 * Z.of_nat (fst numbered))
          FONT_HERSHEY_SIMPLEX (7 # 10)%Q (255, 255, 255) 1 LINE_AA.

(** The rendering as the specification words it: the lines of the message,
    numbered from 0, the first seven of them drawn in order on a black
    640 by 480 image, line [i] at x = 20 and y = 50 + 40 i. *)
Definition rendered_message (error_text : string) : image :=
  fold_left draw_line (combine (seq 0 7) (split newline error_text)) (np_zeros 480 640).

(** The texts drawn on a canvas, oldest first, with their anchor points. *)
Fixpoint drawn (c : canvas) : list (string * (Z * Z)) :=
  match c with
  | PutText u t o _ _ _ _ _ => drawn u ++ [(t, o)]
  | _ => []
  end.

(** The device calls made while going from machine [m] to machine [m']. *)
Definition new_calls (m m' : machine) : list event :=
  skipn (List.length (calls m)) (calls m').


(** [keeps R c]: running [c] takes every machine to an [R]-related one. *)
Definition keeps {A} (R : machine -> machine -> Prop) (c : M A) : Prop :=
  forall m, R m (snd (c m)).

(** The machines agree on one of the globals. *)
Definition same_on {A} (field : globals -> A) (m m' : machine) : Prop :=
  field (vars m') = field (vars m).

(** The machines have the same globals. *)
Definition same_vars (m m' : machine) : Prop := vars m' = vars m.

(** The call returned (it did not raise), and what it returned is an image,
    not [None], for which [P] holds. *)
Definition returns_image (P : image -> Prop) (r : result (option image)) : Prop :=
  exists img, r = Ok (Some img) /\ P img.

(** How a call of a session can end, given the device history [t] of the
    session: it returned an image for which [P] holds, or it was a
    [start_webcam] that raised what an [isOpened] call raised. *)
Definition call_outcome (P : image -> Prop) (t : list event)
           (call : action * result (option image)) : Prop :=
  returns_image P (snd call)
  \/ (fst call = Start
      /\ exists h e, snd call = Raise e /\ In (EvIsOpened h (Raise e)) t).

(** The image is 640 wide and 480 high, or it has the size of a frame the
    device delivers. *)
Definition sized_by (dev : device) (img : image) : Prop :=
  shape img = (480, 640, 3)
  \/ exists t h r f, on_read dev t h = Ok (r, Some f) /\ shape img = shape f.

(** [last_frame] is an image, not [None], for which [P] holds. *)
Definition holds_frame (P : image -> Prop) (m : machine) : Prop :=
  exists f, last_frame (vars m) = Some f /\ P f.

(** The call raised. *)
Definition raised (ev : event) : bool :=
  match ev with
  | EvVideoCapture _ _ (Raise _) => true
  | EvIsOpened _ (Raise _) => true
  | EvRead _ (Raise _) => true
  | EvSet _ _ _ (Raise _) => true
  | EvGet _ _ (Raise _) => true
  | EvRelease _ (Raise _) => true
  | _ => false
  end.

(** The text of the exception the call raised, if it raised. *)
Definition exception_of (ev : event) : option string :=
  match ev with
  | EvVideoCapture _ _ (Raise e) => Some e
  | EvIsOpened _ (Raise e) => Some e
  | EvRead _ (Raise e) => Some e
  | EvSet _ _ _ (Raise e) => Some e
  | EvGet _ _ (Raise e) => Some e
  | EvRelease _ (Raise e) => Some e
  | _ => None
  end.

(** The calls [t] end with a call that raised [e], and no call before it
    raised. *)
Definition stopped_by (t : list event) (e : string) : Prop :=
  exists older ev,
    t = older ++ [ev] /\ exception_of ev = Some e /\ existsb raised older = false.

(** The call was an [isOpened] and raised. *)
Definition isOpened_raised (ev : event) : bool :=
  match ev with
  | EvIsOpened _ (Raise _) => true
  | _ => false
  end.

(** The call was a [set] and raised. *)
Definition set_raised (ev : event) : bool :=
  match ev with
  | EvSet _ _ _ (Raise _) => true
  | _ => false
  end.

(** A read of [h] delivered a frame. *)
Definition frame_delivered (t : list event) (h : handle) : bool :=
  existsb (fun ev => match ev with
                     | EvRead h' (Ok (true, Some _)) => handle_eqb h h'
                     | _ => false
                     end) t.

(** [h.isOpened()] answered [True]. *)
Definition reported_open (t : list event) (h : handle) : bool :=
  existsb (fun ev => match ev with
                     | EvIsOpened h' (Ok true) => handle_eqb h h'
                     | _ => false
                     end) t.

(** Some object created during [t] reported itself open and delivered a
    frame: a candidate index succeeded. *)
Definition candidate_succeeded (t : list event) : bool :=
  existsb (fun h => reported_open t h && frame_delivered t h) (opened_handles t).

(** The loop was left by adopting a handle: [h] is the last object created,
    its [isOpened] answered [True], its one test read delivered a frame, it
    was configured and not released, [error_message] was cleared, and every
    object created before it was turned down and released. *)
Definition adopted_outcome (m : machine) (t : list event) (g' : globals) : Prop :=
  exists h f earlier,
    opened_handles t = earlier ++ [h]
    /\ probed_indices t = map hindex (earlier ++ [h])
    /\ (List.length (calls m) <= hid h)%nat
    /\ g' = with_error_message None (with_camera (Some h) (vars m))
    /\ accepted t h f
    /\ reads_of h t = 1%nat
    /\ released t h = false
    /\ settings t = configuration h
    /\ forall h', In h' earlier -> rejected t h' /\ released t h' = true.

(** The loop ran to its end: every index was probed, every object created
    was turned down and released, nothing was configured and the globals are
    as before. *)
Definition exhausted_outcome (indices : list Z) (m : machine) (t : list event)
           (g' : globals) : Prop :=
  probed_indices t = indices
  /\ map hindex (opened_handles t) = indices
  /\ g' = vars m
  /\ settings t = []
  /\ forall h', In h' (opened_handles t) -> rejected t h' /\ released t h' = true.

(** What a run of the loop over [indices] from [m] can look like, by its
    result [r], final machine [m'] and device calls [t]. *)
Definition probe_outcome (indices : list Z) (m : machine) (r : result (option bool))
           (m' : machine) (t : list event) : Prop :=
  (exists untried, probed_indices t ++ untried = indices)
  /\ match r with
     | Ok (Some b) =>
         b = true /\ existsb raised t = false /\ adopted_outcome m t (vars m')
     | Ok None =>
         existsb raised t = false /\ exhausted_outcome indices m t (vars m')
     | Raise e =>
         existsb raised t = true
         /\ stopped_by t e
         /\ (vars m' = vars m
             \/ (existsb set_raised t = true
                 /\ exists h f,
                      accepted t h f /\ In h (opened_handles t)
                      /\ vars m' = with_camera (Some h) (vars m)))
     end.

Definition initialization_error (e : string) : string :=
  ("Camera initialization error: " ++ e)%string.

(** The three ways [initialize_camera] can end when it is entered with
    [camera] at [None]: a candidate was adopted; all three candidates were
    turned down; or a device call raised [e], before an adoption or while
    the adopted handle was being configured, and [e] went into the
    message. *)
Inductive acquisition (m : machine) (t : list event) (m' : machine) : result bool -> Prop :=
| acquisition_adopted :
    existsb raised t = false ->
    adopted_outcome m t (vars m') ->
    acquisition m t m' (Ok true)
| acquisition_exhausted :
    existsb raised t = false ->
    exhausted_outcome [0; 1; 2] m t (vars m) ->
    vars m' = with_error_message (Some no_camera_message) (vars m) ->
    acquisition m t m' (Ok false)
| acquisition_raised e :
    existsb raised t = true ->
    stopped_by t e ->
    vars m' = with_error_message (Some (initialization_error e)) (vars m)
    \/ (existsb set_raised t = true
        /\ exists h f,
             accepted t h f /\ In h (opened_handles t)
             /\ vars m' = with_error_message (Some (initialization_error e))
                            (with_camera (Some h) (vars m))) ->
    acquisition m t m' (Ok false).

(** The machine [start_webcam] hands to [initialize_camera]. *)
Definition running (m : machine) : machine :=
  {| vars := with_is_running true (vars m); calls := calls m |}.

(** A read of [h] returned with [ret] true. *)
Definition read_succeeded (t : list event) (h : handle) : bool :=
  existsb (fun ev => match ev with
                     | EvRead h' (Ok (true, _)) => handle_eqb h h'
                     | _ => false
                     end) t.

(** What a run of the listing loop over [indices] can look like: when it
    returns, no call raised, every index was probed, the list returned is
    the accumulator followed by the indices of the objects whose read
    succeeded, an object was released exactly when it reported itself open,
    and objects created earlier were not touched. *)
Definition listing_outcome (indices acc : list Z) (m : machine) (r : result (list Z))
           (t : list event) : Prop :=
  match r with
  | Ok l =>
      existsb raised t = false
      /\ probed_indices t = indices
      /\ map hindex (opened_handles t) = indices
      /\ l = acc ++ map hindex (filter (read_succeeded t) (opened_handles t))
      /\ (forall h, In h (opened_handles t) ->
                    (List.length (calls m) <= hid h)%nat
                    /\ released t h = reported_open t h)
      /\ (forall h, (hid h < List.length (calls m))%nat ->
                    released t h = false /\ reported_open t h = false
                    /\ read_succeeded t h = false)
  | Raise _ => existsb raised t = true
  end.

(** The calls [get_webcam_frame] may make when [camera] is [cam]: reads of
    the held handle and queries of its buffer size, nothing else. *)
Definition poll_call (cam : option handle) (ev : event) : Prop :=
  match cam, ev with
  | Some h, EvRead h' _ => h' = h
  | Some h, EvGet h' p _ => h' = h /\ p = CAP_PROP_BUFFERSIZE
  | _, _ => False
  end.

(** [m'] holds the same handle as [m] and differs from it in the history by
    calls a poll may make. *)
Definition polled (m m' : machine) : Prop :=
  camera (vars m') = camera (vars m)
  /\ exists t, calls m' = calls m ++ t /\ Forall (poll_call (camera (vars m))) t.

(** The event [VideoCapture] appends when the history is [t]. *)
Definition VideoCapture_event (dev : device) (t : list event) (i : Z) (api : option Z) : event :=
  EvVideoCapture i api
    match on_VideoCapture dev t i api with
    | Ok _ => Ok {| hid := List.length t; hindex := i |}
    | Raise e => Raise e
    end.

(** [Q] holds of every event the program can get from the device: of every
    object creation with the platform's backend argument, and of every
    answer to a method call. *)
Definition answers (dev : device) (Q : event -> Prop) : Prop :=
  (forall t i, Q (VideoCapture_event dev t i (backend dev)))
  /\ (forall t h, Q (EvIsOpened h (on_isOpened dev t h)))
  /\ (forall t h, Q (EvRead h (on_read dev t h)))
  /\ (forall t h p v, Q (EvSet h p v (on_set dev t h p v)))
  /\ (forall t h p, Q (EvGet h p (on_get dev t h p)))
  /\ (forall t h, Q (EvRelease h (on_release dev t h))).

(** [m'] differs from [m] in the history by appended events that all
    satisfy [Q]. *)
Definition appends (Q : event -> Prop) (m m' : machine) : Prop :=
  exists t, calls m' = calls m ++ t /\ Forall Q t.

(** The backend argument of every object creation is [cv2.CAP_DSHOW] on
    Windows and absent elsewhere. *)
Definition backend_call (dev : device) (ev : event) : Prop :=
  match ev with
  | EvVideoCapture _ api _ =>
      api = if String.eqb (platform_system dev) "Windows" then Some 700 else None
  | _ => True
  end.

(** [is_running] after a list of actions, from its value before: the last
    [Start] or [Stop] decides. *)
Definition running_after (acts : list action) (b : bool) : bool :=
  fold_left (fun b a => match a with Start => true | Stop => false | Poll => b end) acts b.

(** The device never raises. *)
Definition never_raises (dev : device) : Prop :=
  (forall t i api, exists u, on_VideoCapture dev t i api = Ok u)
  /\ (forall t h, exists b, on_isOpened dev t h = Ok b)
  /\ (forall t h, exists v, on_read dev t h = Ok v)
  /\ (forall t h p v, exists b, on_set dev t h p v = Ok b)
  /\ (forall t h p, exists x, on_get dev t h p = Ok x)
  /\ (forall t h, exists u, on_release dev t h = Ok u).

(** Every capture object created so far has been released, except the one
    held in [camera]. *)
Definition no_stray_handle (m : machine) : Prop :=
  forall h, In h (opened_handles (calls m)) ->
            released (calls m) h = true \/ camera (vars m) = Some h.

(** [last_frame] is the frame [origin], or the conversion of a frame that
    some read in the history delivered. *)
Definition frame_from (origin : option image) (m : machine) : Prop :=
  last_frame (vars m) = origin
  \/ exists h f, In (EvRead h (Ok (true, Some f))) (calls m)
                 /\ last_frame (vars m) = Some (bgr2rgb f).

(** The history only grew, and [last_frame] is as before or came from a
    read in the history. *)
Definition provenance (m m' : machine) : Prop :=
  (exists t, calls m' = calls m ++ t) /\ frame_from (last_frame (vars m)) m'.

(** [int(x)] for a finite float. *)
Definition truncate (q : Q) : Z := Z.quot (Qnum q) (Z.pos (Qden q)).

(** The process [p] with its session replaced by [m]. *)
Definition with_session (p : process) (m : machine) : process :=
  {| session_state := m; sys_stdout := sys_stdout p; sys_stderr := sys_stderr p;
     string_ios := string_ios p; writes := writes p |}.

(** The process [p] after its session has become [m] and [lines] have been
    printed, one [print] call each. *)
Definition with_output (p : process) (m : machine) (lines : list string) : process :=
  {| session_state := m; sys_stdout := sys_stdout p; sys_stderr := sys_stderr p;
     string_ios := string_ios p;
     writes := writes p ++ map (fun l => (sys_stdout p, (l ++ nl)%string)) lines |}.

(** The line [check_camera_permissions] prints, from the outcome of its loop. *)
Definition listing_line (r : result (list Z)) : string :=
  match r with
  | Ok l => ("Available cameras: " ++ str_list l)%string
  | Raise e => ("Error checking camera permissions: " ++ e)%string
  end.

(** The line printed when the test of index 0 reads a frame. *)
Definition success_line : string := "‚úì Camera opens and reads frames successfully!".

(** The line with the size of frame [f]. *)
Definition dimensions_line (f : image) : string :=
  ("  Frame dimensions: " ++ str_int (cols f) ++ "x" ++ str_int (rows f))%string.

(** The lines [diagnose_camera_issues] prints before it lists the cameras. *)
Definition report_head (dev : device) (py : host) (version : string) : list string :=
  ["=== CAMERA DIAGNOSTICS ===";
   "System: " ++ platform_system dev ++ " " ++ platform_release py;
   "Python version: " ++ version;
   "OpenCV version: " ++ cv2_version py]%string.

(** Every [io.StringIO] object that was written to has been created. *)
Definition streams_wf (p : process) : Prop :=
  forall i text, In (StringIO i, text) (writes p) -> (i < string_ios p)%nat.

(** The process in which [get_diagnostic_report] runs the diagnostics:
    [sys.stdout] is the new buffer, [sys.stderr] a second new buffer. *)
Definition capturing (p : process) : process :=
  {| session_state := session_state p;
     sys_stdout := StringIO (string_ios p);
     sys_stderr := StringIO (S (string_ios p));
     string_ios := S (S (string_ios p));
     writes := writes p |}.

(** [h] has been created in [t] and [release] has not been called on it. *)
Definition live (t : list event) (h : handle) : Prop :=
  In h (opened_handles t) /\ released t h = false.

(** The call [ev] is in order after the history [t]: a method is called on
    an object that was created before and has not been released; a new
    object is numbered by its place in the history. *)
Definition legal (t : list event) (ev : event) : Prop :=
  match ev with
  | EvVideoCapture _ _ (Ok h) => hid h = List.length t
  | EvVideoCapture _ _ (Raise _) => True
  | EvIsOpened h _ => live t h
  | EvRead h _ => live t h
  | EvSet h _ _ _ => live t h
  | EvGet h _ _ => live t h
  | EvRelease h _ => live t h
  end.

(** Every call of the history was in order when it was made. *)
Inductive well_used : list event -> Prop :=
| well_used_nil : well_used []
| well_used_snoc t ev : well_used t -> legal t ev -> well_used (t ++ [ev]).

(** The history is in order and the handle in [camera], if any, is live. *)
Definition orderly (m : machine) : Prop :=
  well_used (calls m) /\ forall h, camera (vars m) = Some h -> live (calls m) h.

(** [m'] is orderly if [m] is. *)
Definition stays_orderly (m m' : machine) : Prop := orderly m -> orderly m'.

(** The event is a [release]. *)
Definition is_release (ev : event) : bool :=
  match ev with EvRelease _ _ => true | _ => false end.

(** ** Rendering of error images *)

Lemma draw_lines_fold (lines : list string) :
  forall (k : nat) (img : image),
    (k <= 7)%nat ->
    draw_lines img (Z.of_nat k) (50 + 40 * Z.of_nat k) lines
    = fold_left draw_line (combine (seq k (7 - k)) lines) img.
Proof.
  induction lines as [|line rest IH]; intros k img Hk.
  - destruct (7 - k)%nat; reflexivity.
  - cbn [draw_lines].
    destruct (6 <? Z.of_nat k) eqn:E.
    + apply Z.ltb_lt in E.
      replace (7 - k)%nat with 0%nat by lia. reflexivity.
    + apply Z.ltb_ge in E.
      replace (7 - k)%nat with (S (7 - S k)) by lia.
      cbn [seq combine fold_left].
      replace (Z.of_nat k + 1) with (Z.of_nat (S k)) by lia.
      replace (50 + 40 * Z.of_nat k + 40) with (50 + 40 * Z.of_nat (S k)) by lia.
      rewrite IH by lia. reflexivity.
Qed.

Lemma fold_draw_line_shape (ls : list (nat * string)) :
  forall img, shape (fold_left draw_line ls img) = shape img.
Proof.
  induction ls as [|l ls IH]; intro img; [reflexivity|].
  cbn [fold_left]. rewrite IH. reflexivity.
Qed.

Lemma drawn_fold (ls : list (nat * string)) :
  forall img,
    drawn (pixels (fold_left draw_line ls img))
    = drawn (pixels img)
      ++ map (fun l => (snd l, (20, 50 + 40 * Z.of_nat (fst l)))) ls.
Proof.
  induction ls as [|l ls IH]; intro img; cbn [fold_left map].
  - now rewrite app_nil_r.
  - rewrite IH. cbn [draw_line putText pixels drawn]. now rewrite <- app_assoc.
Qed.

Lemma create_error_image_rendered (error_text : string) :
  create_error_image error_text = rendered_message error_text.
Proof.
  unfold create_error_image, rendered_message.
  exact (draw_lines_fold (split newline error_text) 0 (np_zeros 480 640) (Nat.le_0_l 7)).
Qed.

Lemma create_error_image_shape (error_text : string) :
  shape (create_error_image error_text) = (480, 640, 3).
Proof.
  rewrite create_error_image_rendered. unfold rendered_message.
  now rewrite fold_draw_line_shape.
Qed.

(** C9: [create_error_image] is a function of the message text alone (it
    takes no device and no machine state); for every message it returns a
    640 by 480 by 3 image on which exactly the first seven lines of the
    message are drawn, in order, line [i] anchored at x = 20 and
    y = 50 + 40 i, each with the same font, scale, colour, thickness and
    line type. *)
Theorem create_error_image_spec (error_text : string) :
  create_error_image error_text = rendered_message error_text
  /\ shape (create_error_image error_text) = (480, 640, 3)
  /\ drawn (pixels (create_error_image error_text))
     = map (fun l => (snd l, (20, 50 + 40 * Z.of_nat (fst l))))
           (combine (seq 0 7) (split newline error_text))
  /\ List.length (drawn (pixels (create_error_image error_text)))
     = Nat.min 7 (List.length (split newline error_text)).
Proof.
  pose proof (create_error_image_rendered error_text) as E.
  split; [exact E|].
  split.
  { rewrite E. unfold rendered_message. now rewrite fold_draw_line_shape. }
  assert (D : drawn (pixels (create_error_image error_text))
              = map (fun l => (snd l, (20, 50 + 40 * Z.of_nat (fst l))))
                    (combine (seq 0 7) (split newline error_text))).
  { rewrite E. unfold rendered_message. now rewrite drawn_fold. }
  split; [exact D|].
  rewrite D, length_map, length_combine, length_seq. reflexivity.
Qed.

(** ** Running the operations *)

Lemma new_calls_app (m m' : machine) (t : list event) :
  calls m' = calls m ++ t -> new_calls m m' = t.
Proof.
  intro H. unfold new_calls. rewrite H.
  rewrite skipn_app, skipn_all, Nat.sub_diag. reflexivity.
Qed.

Lemma new_calls_same (m : machine) : new_calls m m = [].
Proof. apply new_calls_app. now rewrite app_nil_r. Qed.

Ltac unfold_monad :=
  unfold bind, ret, raise, try_except, try_finally,
    get_camera, get_is_running, get_last_frame, get_error_message,
    set_camera, set_is_running, set_last_frame, set_error_message, modify,
    on_camera, cap_isOpened, cap_read, cap_set, cap_get, cap_release,
    VideoCapture, cvtColor_BGR2RGB, record in *.

Ltac run_monad := unfold_monad; cbn in *.

(** *** stop_webcam *)

Lemma stop_webcam_result (dev : device) (m : machine) :
  fst (stop_webcam dev m) = Ok (last_frame (vars m)).
Proof.
  destruct m as [[cam run lf em] t]. unfold stop_webcam. run_monad.
  destruct cam as [h|]; cbn; [destruct (on_release dev t h); cbn|]; reflexivity.
Qed.

Lemma stop_webcam_vars (dev : device) (m : machine) :
  vars (snd (stop_webcam dev m))
  = with_camera None (with_is_running false (vars m)).
Proof.
  destruct m as [[cam run lf em] t]. unfold stop_webcam. run_monad.
  destruct cam as [h|]; cbn; [destruct (on_release dev t h); cbn|]; reflexivity.
Qed.

Lemma stop_webcam_stopped (dev : device) (m : machine) :
  camera (vars m) = None ->
  is_running (vars m) = false ->
  stop_webcam dev m = (Ok (last_frame (vars m)), m).
Proof.
  destruct m as [[cam run lf em] t]. cbn. intros -> ->.
  reflexivity.
Qed.

(** C10: [stop_webcam] never raises, also when [release] does: it returns
    [last_frame], leaves [camera] at [None] and [is_running] at [False] and
    does not touch [last_frame]; a second [stop_webcam] right after it
    returns the same [last_frame] and changes nothing, so it makes no
    device call. *)
Theorem stop_webcam_clears (dev : device) (m : machine) :
  fst (stop_webcam dev m) = Ok (last_frame (vars m))
  /\ camera (vars (snd (stop_webcam dev m))) = None
  /\ is_running (vars (snd (stop_webcam dev m))) = false
  /\ last_frame (vars (snd (stop_webcam dev m))) = last_frame (vars m)
  /\ stop_webcam dev (snd (stop_webcam dev m))
     = (Ok (last_frame (vars m)), snd (stop_webcam dev m))
  /\ new_calls (snd (stop_webcam dev m)) (snd (stop_webcam dev (snd (stop_webcam dev m)))) = [].
Proof.
  pose proof (stop_webcam_vars dev m) as V.
  assert (S2 : stop_webcam dev (snd (stop_webcam dev m))
               = (Ok (last_frame (vars m)), snd (stop_webcam dev m))).
  { rewrite stop_webcam_stopped; rewrite V; reflexivity. }
  repeat split.
  - apply stop_webcam_result.
  - now rewrite V.
  - now rewrite V.
  - now rewrite V.
  - exact S2.
  - rewrite S2. apply new_calls_same.
Qed.

(** [stop_webcam] with a handle whose [release] raises. *)
Example stop_webcam_release_raises :
  let h := {| hid := 0; hindex := 0 |} in
  stop_webcam Devices.unreadable
    {| vars := with_camera (Some h) (with_is_running true initial_globals); calls := [] |}
  = (Ok (last_frame initial_globals),
     {| vars := initial_globals; calls := [EvRelease h (Raise "release failed")] |}).
Proof. reflexivity. Qed.

(** *** get_webcam_frame while stopped *)

Lemma get_webcam_frame_stopped (dev : device) (m : machine) :
  is_running (vars m) = false ->
  get_webcam_frame dev m = (Ok (last_frame (vars m)), m).
Proof.
  intro H. unfold get_webcam_frame. run_monad. rewrite H. reflexivity.
Qed.

(** C5: a [get_webcam_frame] right after [stop_webcam] returns what
    [stop_webcam] returned; and whenever [is_running] is [False],
    [get_webcam_frame] returns [last_frame] and leaves the machine as it
    was, globals and device history alike (no open, read or release). *)
Theorem stop_then_poll (dev : device) (m0 m : machine) :
  get_webcam_frame dev (snd (stop_webcam dev m0))
  = (fst (stop_webcam dev m0), snd (stop_webcam dev m0))
  /\ (is_running (vars m) = false ->
      get_webcam_frame dev m = (Ok (last_frame (vars m)), m)
      /\ new_calls m (snd (get_webcam_frame dev m)) = []).
Proof.
  split.
  - rewrite get_webcam_frame_stopped by (now rewrite stop_webcam_vars).
    rewrite stop_webcam_result, stop_webcam_vars. reflexivity.
  - intro H. rewrite (get_webcam_frame_stopped dev m H).
    split; [reflexivity | apply new_calls_same].
Qed.

Lemma stop_then_poll_witness :
  is_running (vars initial_machine) = false
  /\ get_webcam_frame Devices.none initial_machine
     = (Ok (last_frame initial_globals), initial_machine).
Proof.
  split; [reflexivity|].
  exact (proj1 (proj2 (stop_then_poll Devices.none initial_machine initial_machine)
                      eq_refl)).
Defined.

(** *** start_webcam with a handle already held *)

(** C6: when [camera] already holds a handle, [start_webcam] keeps that
    handle and constructs no [cv2.VideoCapture]: the calls it adds to the
    device history contain no open. *)
Theorem start_webcam_reuses_handle (dev : device) (m : machine) (h : handle) :
  camera (vars m) = Some h ->
  camera (vars (snd (start_webcam dev m))) = Some h
  /\ calls (snd (start_webcam dev m))
     = calls m ++ new_calls m (snd (start_webcam dev m))
  /\ probed_indices (new_calls m (snd (start_webcam dev m))) = [].
Proof.
  intro Hcam.
  assert (H : exists t',
             calls (snd (start_webcam dev m)) = calls m ++ t'
             /\ probed_indices t' = []
             /\ camera (vars (snd (start_webcam dev m))) = Some h).
  { destruct m as [[cam run lf em] t]. cbn in Hcam. subst cam.
    unfold start_webcam, initialize_camera, acquire. run_monad.
    destruct (on_isOpened dev t h) as [[]|e]; cbn.
    - destruct (on_read dev (t ++ [EvIsOpened h (Ok true)]) h) as [[[] [f|]]|e]; cbn;
        try (unfold bind, cvtColor_BGR2RGB; destruct (empty f)); cbn;
        (eexists; split; [rewrite <- ?app_assoc; reflexivity | split; reflexivity]).
    - eexists; split; [reflexivity | split; reflexivity].
    - eexists; split; [reflexivity | split; reflexivity]. }
  destruct H as (t' & Hc & Hp & Hcam').
  rewrite (new_calls_app _ _ t' Hc).
  repeat split; assumption.
Qed.

Lemma start_webcam_reuses_handle_witness :
  let m := snd (start_webcam (Devices.steady (Devices.black 480 640)) initial_machine) in
  camera (vars m) = Some {| hid := 0; hindex := 0 |}
  /\ probed_indices
       (new_calls m (snd (start_webcam (Devices.steady (Devices.black 480 640)) m))) = [].
Proof.
  split; [reflexivity|].
  exact (proj2 (proj2 (start_webcam_reuses_handle
                         (Devices.steady (Devices.black 480 640))
                         (snd (start_webcam (Devices.steady (Devices.black 480 640))
                                            initial_machine))
                         {| hid := 0; hindex := 0 |} eq_refl))).
Defined.

(** ** Frame reasoning: what a computation leaves alone *)

#[export] Instance same_on_preorder {A} (field : globals -> A) : PreOrder (same_on field).
Proof.
  split.
  - intro m. reflexivity.
  - intros a b c Hab Hbc. unfold same_on in *. congruence.
Qed.

#[export] Instance same_vars_preorder : PreOrder same_vars.
Proof.
  split.
  - intro m. reflexivity.
  - intros a b c Hab Hbc. unfold same_vars in *. congruence.
Qed.

Section Frame.

Context (R : machine -> machine -> Prop) `{!PreOrder R}.

Lemma keeps_ret {A} (a : A) : keeps R (ret a).
Proof. intro m. reflexivity. Qed.

Lemma keeps_raise {A} (e : string) : keeps R (@raise A e).
Proof. intro m. reflexivity. Qed.

Lemma keeps_bind {A B} (c : M A) (k : A -> M B) :
  keeps R c -> (forall a, keeps R (k a)) -> keeps R (bind c k).
Proof.
  intros Hc Hk m. unfold bind.
  specialize (Hc m). destruct (c m) as [[a|e] m1]; cbn in *.
  - transitivity m1; [exact Hc | apply Hk].
  - exact Hc.
Qed.

Lemma keeps_try_except {A} (body : M A) (handler : string -> M A) :
  keeps R body -> (forall e, keeps R (handler e)) -> keeps R (try_except body handler).
Proof.
  intros Hb Hh m. unfold try_except.
  specialize (Hb m). destruct (body m) as [[a|e] m1]; cbn in *.
  - exact Hb.
  - transitivity m1; [exact Hb | apply Hh].
Qed.

Lemma keeps_try_finally {A} (body : M A) (cleanup : M unit) :
  keeps R body -> keeps R cleanup -> keeps R (try_finally body cleanup).
Proof.
  intros Hb Hc m. unfold try_finally.
  specialize (Hb m). destruct (body m) as [r m1]; cbn in *.
  specialize (Hc m1). destruct (cleanup m1) as [[u|e] m2]; cbn in *;
    (transitivity m1; assumption).
Qed.

Lemma keeps_reader {A} (f : machine -> A) : keeps R (fun m => (Ok (f m), m)).
Proof. intro m. reflexivity. Qed.

Lemma keeps_cvtColor dev f : keeps R (cvtColor_BGR2RGB dev f).
Proof. intro m. unfold cvtColor_BGR2RGB. destruct (empty f); reflexivity. Qed.

(** Device calls only append to the history. *)
Hypothesis R_record : forall m ev, R m (record ev m).

Lemma keeps_VideoCapture dev i api : keeps R (VideoCapture dev i api).
Proof.
  intro m. unfold VideoCapture.
  destruct (on_VideoCapture dev (calls m) i api); apply R_record.
Qed.

Lemma keeps_cap_isOpened dev h : keeps R (cap_isOpened dev h).
Proof. intro m. apply R_record. Qed.

Lemma keeps_cap_read dev h : keeps R (cap_read dev h).
Proof. intro m. apply R_record. Qed.

Lemma keeps_cap_set dev h p v : keeps R (cap_set dev h p v).
Proof. intro m. apply R_record. Qed.

Lemma keeps_cap_get dev h p : keeps R (cap_get dev h p).
Proof. intro m. apply R_record. Qed.

Lemma keeps_cap_release dev h : keeps R (cap_release dev h).
Proof. intro m. apply R_record. Qed.

Lemma keeps_on_camera {A} name (method : handle -> M A) :
  (forall h, keeps R (method h)) -> keeps R (on_camera name method).
Proof.
  intros H m. unfold on_camera, bind, get_camera. cbn.
  destruct (camera (vars m)); [apply H | reflexivity].
Qed.

End Frame.

(** One step of a frame proof: split the computation along its syntax. *)
Ltac frame_step :=
  match goal with
  | |- keeps _ (bind _ _) => apply keeps_bind; [typeclasses eauto | | intro]
  | |- keeps _ (try_except _ _) => apply keeps_try_except; [typeclasses eauto | | intro]
  | |- keeps _ (try_finally _ _) => apply keeps_try_finally; [typeclasses eauto | | ]
  | |- keeps _ (ret _) => apply keeps_ret; typeclasses eauto
  | |- keeps _ (raise _) => apply keeps_raise; typeclasses eauto
  | |- keeps _ get_camera => apply keeps_reader; typeclasses eauto
  | |- keeps _ get_is_running => apply keeps_reader; typeclasses eauto
  | |- keeps _ get_last_frame => apply keeps_reader; typeclasses eauto
  | |- keeps _ get_error_message => apply keeps_reader; typeclasses eauto
  | |- keeps _ (cvtColor_BGR2RGB _ _) => apply keeps_cvtColor; typeclasses eauto
  | |- keeps _ (on_camera _ _) => apply keeps_on_camera; [typeclasses eauto | intro]
  | |- keeps _ (VideoCapture _ _ _) => apply keeps_VideoCapture; [intros; reflexivity]
  | |- keeps _ (cap_isOpened _ _) => apply keeps_cap_isOpened; [intros; reflexivity]
  | |- keeps _ (cap_read _ _) => apply keeps_cap_read; [intros; reflexivity]
  | |- keeps _ (cap_set _ _ _ _) => apply keeps_cap_set; [intros; reflexivity]
  | |- keeps _ (cap_get _ _ _) => apply keeps_cap_get; [intros; reflexivity]
  | |- keeps _ (cap_release _ _) => apply keeps_cap_release; [intros; reflexivity]
  | |- keeps _ (adopt _ _) => unfold adopt
  | |- keeps _ (read_and_store _ _) => unfold read_and_store
  | |- keeps _ (py_int ?x) => destruct x; cbn [py_int]
  | |- keeps _ (match ?x with _ => _ end) => destruct x
  | |- keeps _ (set_camera _) => intro; reflexivity
  | |- keeps _ (set_is_running _) => intro; reflexivity
  | |- keeps _ (set_last_frame _) => intro; reflexivity
  | |- keeps _ (set_error_message _) => intro; reflexivity
  end.

Ltac frame := repeat frame_step.

Lemma discard_frames_vars dev n : keeps same_vars (discard_frames dev n).
Proof. induction n as [|n IH]; cbn [discard_frames]; frame. exact IH. Qed.

Lemma drain_buffer_vars dev : keeps same_vars (drain_buffer dev).
Proof. unfold drain_buffer. frame. apply discard_frames_vars. Qed.

Lemma probe_indices_last_frame dev indices :
  keeps (same_on last_frame) (probe_indices dev indices).
Proof.
  induction indices as [|i rest IH]; cbn [probe_indices]; frame; exact IH.
Qed.

Lemma initialize_camera_last_frame dev :
  keeps (same_on last_frame) (initialize_camera dev).
Proof.
  unfold initialize_camera, acquire. frame. apply probe_indices_last_frame.
Qed.

Lemma get_webcam_frame_error_message dev :
  keeps (same_on error_message) (get_webcam_frame dev).
Proof.
  unfold get_webcam_frame. frame.
  intro m. pose proof (drain_buffer_vars dev m) as H.
  unfold same_on, same_vars in *. now rewrite H.
Qed.

Lemma stop_webcam_error_message dev :
  keeps (same_on error_message) (stop_webcam dev).
Proof. unfold stop_webcam. frame. Qed.

(** *** get_webcam_frame while running with a handle *)

Lemma drain_buffer_keeps_vars dev m r m1 :
  drain_buffer dev m = (r, m1) -> vars m1 = vars m.
Proof.
  intro H. pose proof (drain_buffer_vars dev m) as V.
  rewrite H in V. exact V.
Qed.

(** What [get_webcam_frame] does once the buffer drain is through and the
    read has returned. *)
Lemma get_webcam_frame_read dev m h m1 r frame :
  is_running (vars m) = true ->
  camera (vars m) = Some h ->
  drain_buffer dev m = (Ok tt, m1) ->
  on_read dev (calls m1) h = Ok (r, frame) ->
  get_webcam_frame dev m
  = match r, frame with
    | true, Some f =>
        if empty f then
          (Ok (Some (create_error_image
                       ("Error getting webcam frame: " ++ cvtColor_error dev)%string)),
           {| vars := vars m; calls := calls m1 ++ [EvRead h (Ok (r, frame))] |})
        else
          (Ok (Some (bgr2rgb f)),
           {| vars := with_last_frame (Some (bgr2rgb f)) (vars m);
              calls := calls m1 ++ [EvRead h (Ok (r, frame))] |})
    | _, _ =>
        (Ok (Some (create_error_image "Failed to read frame from camera")),
         {| vars := vars m; calls := calls m1 ++ [EvRead h (Ok (r, frame))] |})
    end.
Proof.
  intros Hrun Hcam Hdrain Hread.
  pose proof (drain_buffer_keeps_vars _ _ _ _ Hdrain) as V.
  unfold get_webcam_frame, bind, try_except, get_is_running, get_camera.
  rewrite Hrun. cbn [negb]. cbv beta. rewrite Hcam, Hdrain.
  unfold read_and_store, on_camera, bind, get_camera, cap_read, record. cbv beta zeta.
  rewrite V, Hcam, Hread.
  destruct r, frame as [f|]; try (unfold cvtColor_BGR2RGB; destruct (empty f));
    cbn -[create_error_image]; rewrite ?V; reflexivity.
Qed.

(** C7 (amended): in a running session with a live handle, a
    [get_webcam_frame] whose read comes back without a frame returns the
    "Failed to read frame from camera" image and leaves every global as it
    was, [camera] and [last_frame] included.  A following
    [get_webcam_frame] whose read delivers a frame still holds the same
    handle; when the frame has pixels it returns that frame (converted to
    RGB) and stores it in [last_frame]; when the frame is an empty array,
    [cv2.cvtColor] raises, the call returns the image of "Error getting
    webcam frame: " followed by the exception text, and [last_frame] stays
    as it was. *)
Theorem poll_read_failure_then_recovery dev m h m1 r1 frame1 m2 f :
  is_running (vars m) = true ->
  camera (vars m) = Some h ->
  drain_buffer dev m = (Ok tt, m1) ->
  on_read dev (calls m1) h = Ok (r1, frame1) ->
  r1 = false \/ frame1 = None ->
  let m' := record (EvRead h (Ok (r1, frame1))) m1 in
  get_webcam_frame dev m
  = (Ok (Some (create_error_image "Failed to read frame from camera")), m')
  /\ vars m' = vars m
  /\ camera (vars m') = Some h
  /\ last_frame (vars m') = last_frame (vars m)
  /\ (drain_buffer dev m' = (Ok tt, m2) ->
      on_read dev (calls m2) h = Ok (true, Some f) ->
      camera (vars (snd (get_webcam_frame dev m'))) = Some h
      /\ if empty f then
           fst (get_webcam_frame dev m')
           = Ok (Some (create_error_image
                         ("Error getting webcam frame: " ++ cvtColor_error dev)%string))
           /\ last_frame (vars (snd (get_webcam_frame dev m'))) = last_frame (vars m)
         else
           fst (get_webcam_frame dev m') = Ok (Some (bgr2rgb f))
           /\ last_frame (vars (snd (get_webcam_frame dev m'))) = Some (bgr2rgb f)).
Proof.
  intros Hrun Hcam Hdrain Hread Hfail m'.
  pose proof (drain_buffer_keeps_vars _ _ _ _ Hdrain) as V.
  assert (V' : vars m' = vars m) by exact V.
  split.
  { rewrite (get_webcam_frame_read dev m h m1 r1 frame1 Hrun Hcam Hdrain Hread).
    unfold m', record. rewrite V.
    destruct Hfail as [-> | ->]; [reflexivity | destruct r1; reflexivity]. }
  split; [exact V'|].
  split; [now rewrite V'|].
  split; [now rewrite V'|].
  intros Hdrain2 Hread2.
  assert (Hrun' : is_running (vars m') = true) by now rewrite V'.
  assert (Hcam' : camera (vars m') = Some h) by now rewrite V'.
  rewrite (get_webcam_frame_read dev m' h m2 true (Some f) Hrun' Hcam' Hdrain2 Hread2).
  destruct (empty f); cbn [fst snd vars with_last_frame last_frame camera];
    rewrite ?V'; repeat split; exact Hcam.
Qed.

Lemma poll_read_failure_then_recovery_witness :
  let dev := Devices.dropping 2 (Devices.black 480 640) in
  let m := snd (start_webcam dev initial_machine) in
  let h := {| hid := 0; hindex := 0 |} in
  let m1 := record (EvGet h CAP_PROP_BUFFERSIZE (Ok (Finite 1))) m in
  let m' := record (EvRead h (Ok (false, None))) m1 in
  get_webcam_frame dev m
  = (Ok (Some (create_error_image "Failed to read frame from camera")), m')
  /\ vars m' = vars m
  /\ fst (get_webcam_frame dev m') = Ok (Some (bgr2rgb (Devices.black 480 640))).
Proof.
  intros dev m h m1 m'.
  destruct (poll_read_failure_then_recovery dev m h m1 false None
              (record (EvGet h CAP_PROP_BUFFERSIZE (Ok (Finite 1))) m')
              (Devices.black 480 640)
              eq_refl eq_refl eq_refl eq_refl (or_introl eq_refl))
    as (H1 & H2 & _ & _ & H5).
  destruct (H5 eq_refl eq_refl) as (_ & H6 & _).
  exact (conj H1 (conj H2 H6)).
Defined.

(** A read that succeeds with an empty array: the poll after the failed one
    gets [ret] true and a frame from the device, and still returns an error
    image and leaves [last_frame] at the frame stored before. *)
Lemma poll_empty_frame_no_recovery :
  let dev := Devices.fading (Devices.black 480 640) in
  let h := {| hid := 0; hindex := 0 |} in
  let m := snd (start_webcam dev initial_machine) in
  let m' := snd (get_webcam_frame dev m) in
  let m'' := snd (get_webcam_frame dev m') in
  is_running (vars m) = true
  /\ camera (vars m) = Some h
  /\ fst (get_webcam_frame dev m)
     = Ok (Some (create_error_image "Failed to read frame from camera"))
  /\ new_calls m' m''
     = [EvGet h CAP_PROP_BUFFERSIZE (Ok (Finite 1));
        EvRead h (Ok (true, Some (Devices.black 0 0)))]
  /\ fst (get_webcam_frame dev m')
     = Ok (Some (create_error_image
                   ("Error getting webcam frame: " ++ cvtColor_error dev)%string))
  /\ last_frame (vars m'') = Some (bgr2rgb (Devices.black 480 640))
  /\ last_frame (vars m'') <> Some (bgr2rgb (Devices.black 0 0)).
Proof.
  cbv zeta. repeat split. discriminate.
Qed.

(** ** The acquisition loop *)

Lemma probed_indices_app t1 t2 :
  probed_indices (t1 ++ t2) = probed_indices t1 ++ probed_indices t2.
Proof.
  induction t1 as [|ev t1 IH]; [reflexivity|].
  destruct ev; cbn; rewrite IH; reflexivity.
Qed.

Lemma opened_handles_app t1 t2 :
  opened_handles (t1 ++ t2) = opened_handles t1 ++ opened_handles t2.
Proof.
  induction t1 as [|ev t1 IH]; [reflexivity|].
  destruct ev as [i api [h|e]|h b|h r|h p v r|h p r|h r]; cbn; rewrite IH; reflexivity.
Qed.

Lemma settings_app t1 t2 : settings (t1 ++ t2) = settings t1 ++ settings t2.
Proof.
  induction t1 as [|ev t1 IH]; [reflexivity|].
  destruct ev; cbn; rewrite IH; reflexivity.
Qed.

Lemma reads_of_app h t1 t2 : reads_of h (t1 ++ t2) = (reads_of h t1 + reads_of h t2)%nat.
Proof.
  induction t1 as [|ev t1 IH]; [reflexivity|].
  destruct ev; cbn; rewrite IH; lia.
Qed.

Lemma released_app t1 t2 h : released (t1 ++ t2) h = released t1 h || released t2 h.
Proof. unfold released. apply existsb_app. Qed.

Lemma rejected_app_l t1 t2 h : rejected t1 h -> rejected (t1 ++ t2) h.
Proof.
  intros [H | (r & f & H & D)]; [left | right; exists r, f; split; [|exact D]];
    apply in_or_app; now left.
Qed.

Lemma rejected_app_r t1 t2 h : rejected t2 h -> rejected (t1 ++ t2) h.
Proof.
  intros [H | (r & f & H & D)]; [left | right; exists r, f; split; [|exact D]];
    apply in_or_app; now right.
Qed.

Lemma accepted_app_r t1 t2 h f : accepted t2 h f -> accepted (t1 ++ t2) h f.
Proof. intros [H1 H2]. split; apply in_or_app; now right. Qed.

Lemma handle_eqb_refl h : handle_eqb h h = true.
Proof. unfold handle_eqb. now rewrite Nat.eqb_refl, Z.eqb_refl. Qed.

Lemma handle_eqb_later h h0 : (hid h0 < hid h)%nat -> handle_eqb h h0 = false.
Proof.
  intro H. unfold handle_eqb.
  destruct (Nat.eqb_spec (hid h) (hid h0)); [lia | reflexivity].
Qed.

Lemma stopped_by_last older ev e :
  exception_of ev = Some e -> existsb raised older = false -> stopped_by (older ++ [ev]) e.
Proof. intros He Hq. now exists older, ev. Qed.

Lemma stopped_by_app seg t e :
  existsb raised seg = false -> stopped_by t e -> stopped_by (seg ++ t) e.
Proof.
  intros Hq (older & ev & -> & He & Ho). exists (seg ++ older), ev.
  split; [now rewrite app_assoc|]. split; [exact He|].
  now rewrite existsb_app, Hq, Ho.
Qed.

(** Closes a goal [stopped_by t e] when [t] is a list written out. *)
Ltac stopped :=
  first [ apply (stopped_by_last [])
        | apply (stopped_by_last [_])
        | apply (stopped_by_last [_; _])
        | apply (stopped_by_last [_; _; _])
        | apply (stopped_by_last [_; _; _; _]) ];
  reflexivity.

(** The calls of [adopt]: four [set] calls on the adopted handle. *)
Lemma adopt_outcome dev h m r m' :
  adopt dev h m = (r, m') ->
  exists t,
    calls m' = calls m ++ t
    /\ probed_indices t = []
    /\ opened_handles t = []
    /\ (forall h', reads_of h' t = 0%nat)
    /\ (forall h', released t h' = false)
    /\ (forall ev, In ev t -> exists p v res, ev = EvSet h p v res)
    /\ match r with
       | Ok o =>
           o = Some true
           /\ vars m' = with_error_message None (with_camera (Some h) (vars m))
           /\ settings t = configuration h
           /\ existsb raised t = false
       | Raise e =>
           existsb set_raised t = true
           /\ existsb raised t = true
           /\ stopped_by t e
           /\ vars m' = with_camera (Some h) (vars m)
       end.
Proof.
  unfold adopt. run_monad.
  repeat match goal with
         | |- context [match on_set ?d ?t ?c ?p ?v with _ => _ end] =>
             destruct (on_set d t c p v) as [?b|?e]; cbn
         end;
    intros [= <- <-];
    (eexists; split; [cbn; rewrite <- ?app_assoc; cbn; reflexivity|]);
    cbn;
    (repeat split; try reflexivity; try stopped;
     try (intros ev Hev; cbn in Hev;
          repeat (destruct Hev as [<- | Hev]; [do 3 eexists; reflexivity|]);
          contradiction)).
Qed.

(** One turned-down candidate in front of the rest of the loop: [seg] are the
    calls made on the candidate's object [h0], [t] the calls of the later
    iterations. *)
Lemma probe_outcome_after_rejection indices i m seg m1 r m' t :
  let h0 := {| hid := List.length (calls m); hindex := i |} in
  calls m1 = calls m ++ seg ->
  vars m1 = vars m ->
  seg <> [] ->
  probed_indices seg = [i] ->
  opened_handles seg = [h0] ->
  settings seg = [] ->
  existsb raised seg = false ->
  rejected seg h0 ->
  released seg h0 = true ->
  (forall h, handle_eqb h h0 = false -> reads_of h seg = 0%nat /\ released seg h = false) ->
  probe_outcome indices m1 r m' t ->
  probe_outcome (i :: indices) m r m' (seg ++ t).
Proof.
  intros h0 Hcalls Hvars Hseg Hprobed Hopened Hsettings Hquiet Hrej Hrel Hother
         [[untried Hpre] Hout].
  split.
  { exists untried. rewrite probed_indices_app, Hprobed. cbn. now rewrite Hpre. }
  destruct r as [[b|]|e].
  - destruct Hout as (Hb & Hq & h & f & earlier & Ho & Hidx & Hfresh & Hg & Hacc & Hreads & Hnrel & Hset & Hearlier).
    split; [exact Hb|].
    split; [rewrite existsb_app, Hquiet, Hq; reflexivity|].
    assert (Hlater : handle_eqb h h0 = false).
    { apply handle_eqb_later. cbn. rewrite Hcalls, length_app in Hfresh.
      destruct seg; [contradiction | cbn in Hfresh; lia]. }
    destruct (Hother h Hlater) as [Hr0 Hl0].
    exists h, f, (h0 :: earlier). repeat split.
    + rewrite opened_handles_app, Hopened, Ho. reflexivity.
    + rewrite probed_indices_app, Hprobed, Hidx. reflexivity.
    + rewrite Hcalls, length_app in Hfresh. lia.
    + now rewrite <- Hvars.
    + apply in_or_app. right. apply Hacc.
    + apply in_or_app. right. apply Hacc.
    + rewrite reads_of_app, Hr0, Hreads. reflexivity.
    + rewrite released_app, Hl0, Hnrel. reflexivity.
    + rewrite settings_app, Hsettings, Hset. reflexivity.
    + destruct H as [<- | H]; [now apply rejected_app_l | apply rejected_app_r, Hearlier, H].
    + rewrite released_app. destruct H as [<- | H].
      * now rewrite Hrel.
      * destruct (Hearlier h' H) as [_ ->]. apply orb_true_r.
  - destruct Hout as (Hq & Hp & Hidx & Hg & Hset & Hall).
    split; [rewrite existsb_app, Hquiet, Hq; reflexivity|].
    repeat split.
    + rewrite probed_indices_app, Hprobed, Hp. reflexivity.
    + rewrite opened_handles_app, Hopened, map_app, Hidx. reflexivity.
    + now rewrite <- Hvars.
    + rewrite settings_app, Hsettings, Hset. reflexivity.
    + rewrite opened_handles_app, Hopened in H.
      destruct H as [<- | H]; [now apply rejected_app_l | apply rejected_app_r, Hall, H].
    + rewrite released_app. rewrite opened_handles_app, Hopened in H.
      destruct H as [<- | H].
      * now rewrite Hrel.
      * destruct (Hall h' H) as [_ ->]. apply orb_true_r.
  - destruct Hout as (Hq & Hstop & Hv).
    split; [rewrite existsb_app, Hq; apply orb_true_r|].
    split; [now apply stopped_by_app|].
    destruct Hv as [Hv | (Hs & h & f & Hacc & Hin & Hv)].
    + left. now rewrite <- Hvars.
    + right. split; [rewrite existsb_app, Hs; apply orb_true_r|].
      exists h, f. split; [now apply accepted_app_r|].
      split; [rewrite opened_handles_app; apply in_or_app; now right|].
      now rewrite <- Hvars.
Qed.

(** A run of the acquisition loop, by cases on what the device answers. *)
Lemma probe_indices_outcome dev indices :
  forall m r m',
    probe_indices dev indices m = (r, m') ->
    exists t, calls m' = calls m ++ t /\ probe_outcome indices m r m' t.
Proof.
  induction indices as [|i rest IH]; intros m r m'.
  { cbn. intros [= <- <-]. exists []. split; [now rewrite app_nil_r|].
    split; [now exists []|]. cbn. repeat split; contradiction. }
  cbn [probe_indices]. unfold bind at 1. unfold VideoCapture.
  destruct (on_VideoCapture dev (calls m) i (backend dev)) as [[]|e].
  2:{ intros [= <- <-]. eexists. split; [reflexivity|].
      split; [exists rest; reflexivity|]. cbn.
      split; [reflexivity|]. split; [stopped | now left]. }
  set (h := {| hid := List.length (calls m); hindex := i |}).
  unfold bind at 1. unfold cap_isOpened. cbv beta zeta.
  set (m1 := record (EvVideoCapture i (backend dev) (Ok h)) m).
  destruct (on_isOpened dev (calls m1) h) as [[]|e].
  - (* the object reports that it is open *)
    set (m2 := record (EvIsOpened h (Ok true)) m1).
    unfold bind at 1. unfold cap_read. cbv beta zeta.
    destruct (on_read dev (calls m2) h) as [[ok frame]|e].
    2:{ intros [= <- <-]. eexists. split; [cbn; rewrite <- !app_assoc; reflexivity|].
        split; [exists rest; reflexivity|]. cbn.
        split; [reflexivity|]. split; [stopped | now left]. }
    set (m3 := record (EvRead h (Ok (ok, frame))) m2).
    assert (Hm3 : calls m3 = calls m ++ [EvVideoCapture i (backend dev) (Ok h);
                                         EvIsOpened h (Ok true); EvRead h (Ok (ok, frame))]).
    { cbn. now rewrite <- !app_assoc. }
    assert (Hreject : ok = false \/ frame = None ->
              (cap_release dev h ;; probe_indices dev rest) m3 = (r, m') ->
              exists t, calls m' = calls m ++ t /\ probe_outcome (i :: rest) m r m' t).
    { intros Hbad. unfold bind at 1. unfold cap_release. cbv beta zeta.
      destruct (on_release dev (calls m3) h) as [[]|e].
      2:{ intros [= <- <-]. eexists. split; [cbn; rewrite <- !app_assoc; reflexivity|].
          split; [exists rest; reflexivity|]. cbn.
          split; [reflexivity|]. split; [stopped | now left]. }
      intro Hrun. apply IH in Hrun. destruct Hrun as (t & Hc & Ho).
      eexists. split.
      { rewrite Hc. cbn. rewrite <- !app_assoc. cbn. reflexivity. }
      apply (probe_outcome_after_rejection rest i m
               [EvVideoCapture i (backend dev) (Ok h); EvIsOpened h (Ok true);
                EvRead h (Ok (ok, frame)); EvRelease h (Ok tt)]
               (record (EvRelease h (Ok tt)) m3) r m' t);
        try reflexivity; try discriminate; try exact Ho.
      - cbn. now rewrite <- !app_assoc.
      - right. exists ok, frame. split; [cbn; auto | exact Hbad].
      - cbn. fold h. now rewrite handle_eqb_refl.
      - intros h1 Hh1. fold h in Hh1. cbn. rewrite Hh1. split; reflexivity. }
    destruct ok; [destruct frame as [f|]|].
    + (* the test read delivered a frame *)
      intro Hrun. apply adopt_outcome in Hrun.
      destruct Hrun as (t & Hc & Hp & Hoh & Hrd & Hrl & Hev & Hres).
      eexists. split.
      { rewrite Hc, Hm3, <- app_assoc. reflexivity. }
      split.
      { exists rest. rewrite probed_indices_app, Hp. reflexivity. }
      destruct r as [o|e].
      * destruct Hres as (-> & Hv & Hs & Hq). split; [reflexivity|].
        split; [rewrite existsb_app, Hq; reflexivity|].
        exists h, f, []. repeat split.
        -- rewrite opened_handles_app, Hoh. reflexivity.
        -- rewrite probed_indices_app, Hp. reflexivity.
        -- cbn. lia.
        -- exact Hv.
        -- cbn. auto.
        -- cbn. auto.
        -- rewrite reads_of_app, Hrd. cbn. now rewrite handle_eqb_refl.
        -- rewrite released_app, Hrl. reflexivity.
        -- rewrite settings_app, Hs. reflexivity.
        -- contradiction.
        -- contradiction.
      * destruct Hres as (Hs & Hq & Hstop & Hv).
        split; [rewrite existsb_app, Hq; apply orb_true_r|].
        split; [apply stopped_by_app; [reflexivity | exact Hstop]|].
        right. split; [rewrite existsb_app, Hs; apply orb_true_r|].
        exists h, f. split; [split; cbn; auto|].
        split; [rewrite opened_handles_app; cbn; auto|]. exact Hv.
    + apply Hreject. now right.
    + apply Hreject. now left.
  - (* the object reports that it is not open *)
    set (m2 := record (EvIsOpened h (Ok false)) m1).
    unfold bind at 1. unfold cap_release. cbv beta zeta.
    destruct (on_release dev (calls m2) h) as [[]|e].
    2:{ intros [= <- <-]. eexists. split; [cbn; rewrite <- !app_assoc; reflexivity|].
        split; [exists rest; reflexivity|]. cbn.
        split; [reflexivity|]. split; [stopped | now left]. }
    intro Hrun. apply IH in Hrun. destruct Hrun as (t & Hc & Ho).
    eexists. split.
    { rewrite Hc. cbn. rewrite <- !app_assoc. cbn. reflexivity. }
    apply (probe_outcome_after_rejection rest i m
             [EvVideoCapture i (backend dev) (Ok h); EvIsOpened h (Ok false);
              EvRelease h (Ok tt)]
             (record (EvRelease h (Ok tt)) m2) r m' t);
      try reflexivity; try discriminate; try exact Ho.
    + cbn. now rewrite <- !app_assoc.
    + left. cbn. auto.
    + cbn. fold h. now rewrite handle_eqb_refl.
    + intros h1 Hh1. fold h in Hh1. cbn. rewrite Hh1. split; reflexivity.
  - (* [isOpened] raises *)
    intros [= <- <-]. eexists. split; [cbn; rewrite <- !app_assoc; reflexivity|].
    split; [exists rest; reflexivity|]. cbn.
    split; [reflexivity|]. split; [stopped | now left].
Qed.

(** ** initialize_camera entered without a handle *)

Lemma initialize_camera_acquisition dev m r m' :
  camera (vars m) = None ->
  initialize_camera dev m = (r, m') ->
  exists t,
    calls m' = calls m ++ t
    /\ (exists untried, probed_indices t ++ untried = [0; 1; 2])
    /\ acquisition m t m' r.
Proof.
  intros Hcam.
  unfold initialize_camera, try_except, acquire.
  unfold bind at 1. unfold bind at 1. unfold get_camera. rewrite Hcam.
  unfold bind at 1.
  destruct (probe_indices dev [0; 1; 2] m) as [r0 m0] eqn:E.
  apply probe_indices_outcome in E. destruct E as (t & Hc & Hpre & Hout).
  destruct r0 as [[b|]|e].
  - destruct Hout as (-> & Hq & Had). cbn. intros [= <- <-].
    exists t. repeat split; try assumption. now constructor.
  - destruct Hout as (Hq & Hex). unfold bind, set_error_message, modify, ret.
    intros [= <- <-].
    exists t. repeat split; try assumption.
    destruct Hex as (H1 & H2 & H3 & H4 & H5).
    apply acquisition_exhausted; try assumption.
    + repeat split; first [assumption | reflexivity | apply H5; assumption].
    + cbn [vars]. now rewrite H3.
  - destruct Hout as (Hq & Hstop & Hv). unfold bind, set_error_message, modify, ret.
    intros [= <- <-].
    exists t. repeat split; try assumption.
    apply (acquisition_raised _ _ _ e); [assumption | assumption|]. cbn [vars].
    fold (initialization_error e).
    destruct Hv as [-> | (Hs & h & f & Hacc & Hin & ->)]; [now left | right].
    split; [assumption | now exists h, f].
Qed.

Lemma start_webcam_failed dev m :
  fst (initialize_camera dev (running m)) = Ok false ->
  start_webcam dev m
  = (Ok (Some (create_error_image
                 (or_default (error_message (vars (snd (initialize_camera dev (running m)))))
                             "Camera initialization failed"))),
     snd (initialize_camera dev (running m))).
Proof.
  unfold start_webcam. unfold bind at 1. unfold set_is_running, modify. cbv beta iota.
  fold (running m). unfold bind at 1.
  destruct (initialize_camera dev (running m)) as [r m1]. cbn [fst snd].
  intros ->. reflexivity.
Qed.

Lemma start_webcam_error_message dev m :
  error_message (vars (snd (start_webcam dev m)))
  = error_message (vars (snd (initialize_camera dev (running m)))).
Proof.
  unfold start_webcam. unfold bind at 1. unfold set_is_running, modify. cbv beta iota.
  fold (running m). unfold bind at 1.
  destruct (initialize_camera dev (running m)) as [[b|e] m1]; cbn [snd]; [|reflexivity].
  match goal with
  | |- error_message (vars (snd (?c m1))) = _ =>
      assert (K : keeps (same_on error_message) c) by (destruct b; cbn [negb]; frame)
  end.
  apply K.
Qed.

Lemma initialize_camera_held dev m h :
  camera (vars m) = Some h ->
  initialize_camera dev m
  = (on_isOpened dev (calls m) h, record (EvIsOpened h (on_isOpened dev (calls m) h)) m).
Proof.
  intro Hcam. unfold initialize_camera, try_except, acquire, bind, get_camera.
  rewrite Hcam. cbn. rewrite Hcam. reflexivity.
Qed.

Lemma initialize_camera_returns dev m :
  camera (vars m) = None -> exists b, fst (initialize_camera dev m) = Ok b.
Proof.
  intro Hcam. unfold initialize_camera, try_except, acquire.
  unfold bind at 1. unfold bind at 1. unfold get_camera. rewrite Hcam.
  unfold bind at 1.
  destruct (probe_indices dev [0; 1; 2] m) as [[[b|]|e] m0]; cbn; eauto.
Qed.

(** [start_webcam] returns an image unless [initialize_camera] raises. *)
Lemma start_webcam_after dev m r m1 :
  initialize_camera dev (running m) = (r, m1) ->
  match r with
  | Ok _ => exists img, fst (start_webcam dev m) = Ok (Some img)
  | Raise e => start_webcam dev m = (Raise e, m1)
  end.
Proof.
  intro E.
  destruct r as [b|e];
    unfold start_webcam; unfold bind at 1; unfold set_is_running, modify; cbv beta iota;
    fold (running m); unfold bind at 1; rewrite E; [|reflexivity].
  destruct b; cbn [negb].
  - unfold try_except.
    destruct (read_and_store dev "Camera opened but cannot read frames" m1) as [[o|e] m2] eqn:Er;
      [|cbn; eauto].
    revert Er. unfold read_and_store, on_camera, bind, get_camera, cap_read, cvtColor_BGR2RGB,
      set_last_frame, modify, ret, raise.
    destruct (camera (vars m1)) as [h|]; [|discriminate].
    destruct (on_read dev (calls m1) h) as [[[] [f|]]|e]; try destruct (empty f);
      cbn -[create_error_image]; intros [= <- _]; cbn; eauto.
  - cbn. eauto.
Qed.

Lemma get_webcam_frame_uninitialized dev m :
  is_running (vars m) = true ->
  camera (vars m) = None ->
  get_webcam_frame dev m = (Ok (Some (create_error_image "Camera not initialized")), m).
Proof.
  intros Hrun Hcam. unfold get_webcam_frame, bind, get_is_running, get_camera.
  rewrite Hrun. cbn [negb]. cbv beta. rewrite Hcam. reflexivity.
Qed.

Lemma session_polls_uninitialized dev m n :
  is_running (vars m) = true ->
  camera (vars m) = None ->
  session dev (repeat Poll n) m
  = (repeat (Ok (Some (create_error_image "Camera not initialized"))) n, m).
Proof.
  intros Hrun Hcam. induction n as [|n IH]; [reflexivity|].
  cbn [repeat session perform].
  rewrite (get_webcam_frame_uninitialized dev m Hrun Hcam), IH. reflexivity.
Qed.

(** C1 (amended): [initialize_camera], entered with [camera] at [None],
    creates capture objects for a prefix of the indices 0, 1, 2, in that
    order.  When none of its device calls raises: either it returns [True],
    and then the last object created is the one adopted as [camera], its
    [isOpened] answered [True] and its single test read delivered a frame,
    the [set] calls made are exactly width 640, height 480, frame rate 30
    and buffer size 1 on that object, [error_message] is [None], the object
    is not released, and every object created before it was turned down
    and released; or it returns [False], and then all of 0, 1, 2 were
    probed, every object was turned down and released, and [error_message]
    is the fixed five-line message with the four causes.  When a device
    call raises, that call is the last one made and the only one that
    raised, and the function returns [False] with [error_message] set to
    "Camera initialization error: " followed by the text of the exception
    that call raised. *)
Theorem initialize_camera_probes (dev : device) (m : machine) :
  camera (vars m) = None ->
  let r := fst (initialize_camera dev m) in
  let m' := snd (initialize_camera dev m) in
  let t := new_calls m m' in
  calls m' = calls m ++ t
  /\ (exists untried, probed_indices t ++ untried = [0; 1; 2])
  /\ (existsb raised t = false ->
      (r = Ok true /\ adopted_outcome m t (vars m'))
      \/ (r = Ok false
          /\ exhausted_outcome [0; 1; 2] m t (vars m)
          /\ vars m' = with_error_message (Some no_camera_message) (vars m)))
  /\ (existsb raised t = true ->
      r = Ok false
      /\ exists older ev e,
           t = older ++ [ev]
           /\ existsb raised older = false
           /\ exception_of ev = Some e
           /\ error_message (vars m')
              = Some ("Camera initialization error: " ++ e)%string)
  /\ split newline no_camera_message
     = ["No working camera found. Possible issues:";
        "1. Camera is being used by another application";
        "2. Camera drivers not installed";
        "3. Camera permissions denied";
        "4. No camera connected"]%string.
Proof.
  intros Hcam r m' t.
  destruct (initialize_camera dev m) as [r0 m0] eqn:E.
  destruct (initialize_camera_acquisition dev m r0 m0 Hcam E) as (t0 & Hc & Hpre & Hacq).
  assert (Ht : t = t0) by (unfold t, m'; cbn [snd]; now apply new_calls_app).
  subst r m'. cbn [fst snd] in *. rewrite Ht.
  split; [exact Hc|]. split; [exact Hpre|].
  split; [|split; [|reflexivity]].
  - intro Hq. inversion Hacq as [Hq' Had | Hq' Hex Hv | e Hq' Hstop Hv]; subst.
    + left. split; [reflexivity | exact Had].
    + right. split; [reflexivity|]. split; assumption.
    + congruence.
  - intro Hq.
    inversion Hacq as [Hq' Had | Hq' Hex Hv | e Hq' Hstop Hv]; subst; try congruence.
    split; [reflexivity|].
    destruct Hstop as (older & ev & Ht0 & He & Ho). exists older, ev, e.
    split; [exact Ht0|]. split; [exact Ho|]. split; [exact He|].
    destruct Hv as [-> | (_ & h & f & _ & _ & ->)]; reflexivity.
Qed.

Lemma initialize_camera_probes_witness :
  let dev := Devices.only 1 (Devices.black 480 640) in
  let m' := snd (initialize_camera dev initial_machine) in
  let t := new_calls initial_machine m' in
  (fst (initialize_camera dev initial_machine) = Ok true
   /\ adopted_outcome initial_machine t (vars m'))
  \/ (fst (initialize_camera dev initial_machine) = Ok false
      /\ exhausted_outcome [0; 1; 2] initial_machine t (vars initial_machine)
      /\ vars m' = with_error_message (Some no_camera_message) (vars initial_machine)).
Proof.
  exact (proj1 (proj2 (proj2 (initialize_camera_probes
                                (Devices.only 1 (Devices.black 480 640))
                                initial_machine eq_refl)))
               eq_refl).
Defined.

(** At a device whose read raises, the object created for index 0 is
    neither adopted nor released, indices 1 and 2 are not probed, and
    [error_message] is not the fixed message. *)
Lemma initialize_camera_raising_read :
  let m' := snd (initialize_camera Devices.unreadable initial_machine) in
  let h := {| hid := 0; hindex := 0 |} in
  fst (initialize_camera Devices.unreadable initial_machine) = Ok false
  /\ opened_handles (calls m') = [h]
  /\ camera (vars m') = None
  /\ released (calls m') h = false
  /\ probed_indices (calls m') = [0]
  /\ error_message (vars m') = Some "Camera initialization error: read failed"%string
  /\ error_message (vars m') <> Some no_camera_message.
Proof.
  cbv zeta. repeat split. discriminate.
Qed.

(** C3 (amended): [error_message] is written by the acquisition of
    [start_webcam] and by nothing else.  [get_webcam_frame] and
    [stop_webcam] leave it as it is, whatever the device does, and so does
    a [start_webcam] entered with a handle already held.  A [start_webcam]
    entered without a handle leaves it at [None] when its initialization
    succeeds and at a message when its initialization fails; a failing read
    does not set it. *)
Theorem error_message_changes (dev : device) (m m1 m2 : machine) (h : handle) :
  error_message (vars (snd (get_webcam_frame dev m))) = error_message (vars m)
  /\ error_message (vars (snd (stop_webcam dev m))) = error_message (vars m)
  /\ (camera (vars m1) = Some h ->
      error_message (vars (snd (start_webcam dev m1))) = error_message (vars m1))
  /\ (camera (vars m2) = None ->
      exists b,
        fst (initialize_camera dev (running m2)) = Ok b
        /\ (b = true -> error_message (vars (snd (start_webcam dev m2))) = None)
        /\ (b = false ->
            exists msg, error_message (vars (snd (start_webcam dev m2))) = Some msg)).
Proof.
  split; [apply get_webcam_frame_error_message|].
  split; [apply stop_webcam_error_message|].
  split.
  - intro Hcam. rewrite start_webcam_error_message.
    rewrite (initialize_camera_held dev (running m1) h Hcam). reflexivity.
  - intro Hcam. rewrite start_webcam_error_message.
    destruct (initialize_camera dev (running m2)) as [r m'] eqn:E.
    destruct (initialize_camera_acquisition dev (running m2) r m' Hcam E)
      as (t & Hc & Hpre & Hacq).
    cbn [fst snd].
    inversion Hacq as [Hq Had | Hq Hex Hv | e Hq Hstop Hv]; subst.
    + exists true. split; [reflexivity|]. split; [|discriminate].
      intros _. destruct Had as (h' & f & earlier & _ & _ & _ & -> & _). reflexivity.
    + exists false. split; [reflexivity|]. split; [discriminate|].
      intros _. rewrite Hv. now eexists.
    + exists false. split; [reflexivity|]. split; [discriminate|].
      intros _. destruct Hv as [-> | (_ & h' & f & _ & _ & ->)]; now eexists.
Qed.

Lemma error_message_changes_witness :
  let dev := Devices.steady (Devices.black 480 640) in
  let m1 := snd (start_webcam dev initial_machine) in
  (camera (vars m1) = Some {| hid := 0; hindex := 0 |}
   /\ error_message (vars (snd (start_webcam dev m1))) = error_message (vars m1))
  /\ camera (vars initial_machine) = None
  /\ exists b,
       fst (initialize_camera dev (running initial_machine)) = Ok b
       /\ (b = true -> error_message (vars (snd (start_webcam dev initial_machine))) = None)
       /\ (b = false ->
           exists msg,
             error_message (vars (snd (start_webcam dev initial_machine))) = Some msg).
Proof.
  intros dev m1.
  pose proof (error_message_changes dev initial_machine m1 initial_machine
                {| hid := 0; hindex := 0 |}) as (_ & _ & H3 & H4).
  exact (conj (conj eq_refl (H3 eq_refl)) (conj eq_refl (H4 eq_refl))).
Defined.

(** A read of the held camera that fails, in [get_webcam_frame] or in
    [start_webcam], leaves [error_message] at [None]. *)
Lemma read_failure_leaves_error_message :
  let frame := Devices.black 480 640 in
  let m := snd (start_webcam (Devices.dropping 2 frame) initial_machine) in
  (fst (get_webcam_frame (Devices.dropping 2 frame) m)
   = Ok (Some (create_error_image "Failed to read frame from camera"))
   /\ error_message (vars (snd (get_webcam_frame (Devices.dropping 2 frame) m))) = None)
  /\ (fst (start_webcam (Devices.dropping 1 frame) initial_machine)
      = Ok (Some (create_error_image "Camera opened but cannot read frames"))
      /\ error_message (vars (snd (start_webcam (Devices.dropping 1 frame) initial_machine)))
         = None).
Proof.
  cbv zeta. repeat split.
Qed.

(** ** check_camera_permissions *)

Lemma list_cameras_vars dev indices :
  forall acc, keeps same_vars (list_cameras dev indices acc).
Proof.
  induction indices as [|i rest IH]; intro acc; cbn [list_cameras]; frame; apply IH.
Qed.

Lemma check_camera_permissions_vars dev : keeps same_vars (check_camera_permissions dev).
Proof. unfold check_camera_permissions. frame. apply list_cameras_vars. Qed.

Lemma read_succeeded_app t1 t2 h :
  read_succeeded (t1 ++ t2) h = read_succeeded t1 h || read_succeeded t2 h.
Proof. unfold read_succeeded. apply existsb_app. Qed.

Lemma reported_open_app t1 t2 h :
  reported_open (t1 ++ t2) h = reported_open t1 h || reported_open t2 h.
Proof. unfold reported_open. apply existsb_app. Qed.

(** One probed candidate in front of the rest of the listing loop. *)
Lemma listing_outcome_after_probe indices i acc m seg m1 r t :
  let h0 := {| hid := List.length (calls m); hindex := i |} in
  calls m1 = calls m ++ seg ->
  seg <> [] ->
  probed_indices seg = [i] ->
  opened_handles seg = [h0] ->
  existsb raised seg = false ->
  released seg h0 = reported_open seg h0 ->
  (forall h, handle_eqb h h0 = false ->
             released seg h = false /\ reported_open seg h = false
             /\ read_succeeded seg h = false) ->
  listing_outcome indices (acc ++ (if read_succeeded seg h0 then [i] else [])) m1 r t ->
  listing_outcome (i :: indices) acc m r (seg ++ t).
Proof.
  intros h0 Hcalls Hseg Hprobed Hopened Hquiet Hrel Hother Hout.
  assert (Hlen : (List.length (calls m) < List.length (calls m1))%nat).
  { rewrite Hcalls, length_app. destruct seg; [contradiction | cbn; lia]. }
  destruct r as [l|e]; cbn in *.
  2:{ rewrite existsb_app, Hout. apply orb_true_r. }
  destruct Hout as (Hq & Hp & Hidx & Hl & Hnew & Hold).
  assert (Hh0 : released t h0 = false /\ reported_open t h0 = false
                /\ read_succeeded t h0 = false) by (apply Hold; exact Hlen).
  assert (Hlater : forall h, In h (opened_handles t) -> handle_eqb h h0 = false).
  { intros h Hin. apply handle_eqb_later. cbn. destruct (Hnew h Hin) as [Hfresh _]. lia. }
  split; [rewrite existsb_app, Hquiet, Hq; reflexivity|].
  split; [rewrite probed_indices_app, Hprobed, Hp; reflexivity|].
  split; [rewrite opened_handles_app, Hopened, map_app, Hidx; reflexivity|].
  split; [|split].
  - rewrite Hl, opened_handles_app, Hopened. cbn [app filter].
    rewrite read_succeeded_app. destruct Hh0 as (_ & _ & ->). rewrite orb_false_r.
    assert (Hf : filter (read_succeeded (seg ++ t)) (opened_handles t)
                 = filter (read_succeeded t) (opened_handles t)).
    { apply filter_ext_in. intros h Hin. rewrite read_succeeded_app.
      destruct (Hother h (Hlater h Hin)) as (_ & _ & ->). reflexivity. }
    rewrite Hf. destruct (read_succeeded seg h0); cbn; rewrite <- ?app_assoc, ?app_nil_r;
      reflexivity.
  - intros h Hin. rewrite opened_handles_app, Hopened in Hin.
    rewrite released_app, reported_open_app.
    destruct Hin as [<- | Hin].
    + split; [cbn; lia|]. destruct Hh0 as (-> & -> & _). now rewrite !orb_false_r.
    + destruct (Hnew h Hin) as [Hfresh ->]. split; [lia|].
      destruct (Hother h (Hlater h Hin)) as (-> & -> & _). reflexivity.
  - intros h Hold'.
    assert (Hne : handle_eqb h h0 = false).
    { unfold handle_eqb. cbn. destruct (Nat.eqb_spec (hid h) (List.length (calls m)));
        [lia | reflexivity]. }
    destruct (Hother h Hne) as (Hr & Ho & Hs).
    destruct (Hold h ltac:(lia)) as (Hr' & Ho' & Hs').
    rewrite released_app, reported_open_app, read_succeeded_app, Hr, Ho, Hs, Hr', Ho', Hs'.
    repeat split.
Qed.

Lemma list_cameras_outcome dev indices :
  forall acc m r m',
    list_cameras dev indices acc m = (r, m') ->
    exists t, calls m' = calls m ++ t /\ listing_outcome indices acc m r t.
Proof.
  induction indices as [|i rest IH]; intros acc m r m'.
  { cbn. intros [= <- <-]. exists []. split; [now rewrite app_nil_r|].
    cbn. rewrite app_nil_r. repeat split; contradiction. }
  cbn [list_cameras]. unfold bind at 1. unfold VideoCapture.
  destruct (on_VideoCapture dev (calls m) i (backend dev)) as [[]|e].
  2:{ intros [= <- <-]. eexists. split; reflexivity. }
  set (h := {| hid := List.length (calls m); hindex := i |}).
  unfold bind at 1. unfold cap_isOpened. cbv beta zeta.
  set (m1 := record (EvVideoCapture i (backend dev) (Ok h)) m).
  destruct (on_isOpened dev (calls m1) h) as [[]|e].
  3:{ intros [= <- <-]. eexists. split; [cbn; rewrite <- !app_assoc; reflexivity|].
      reflexivity. }
  - set (m2 := record (EvIsOpened h (Ok true)) m1).
    unfold bind at 1. unfold cap_read. cbv beta zeta.
    destruct (on_read dev (calls m2) h) as [[ok frame]|e].
    2:{ intros [= <- <-]. eexists. split; [cbn; rewrite <- !app_assoc; reflexivity|].
        reflexivity. }
    set (m3 := record (EvRead h (Ok (ok, frame))) m2).
    unfold bind at 1. unfold cap_release. cbv beta zeta.
    destruct (on_release dev (calls m3) h) as [[]|e].
    2:{ intros [= <- <-]. eexists. split; [cbn; rewrite <- !app_assoc; reflexivity|].
        reflexivity. }
    intro Hrun. apply IH in Hrun. destruct Hrun as (t & Hc & Ho).
    eexists. split.
    { rewrite Hc. cbn. rewrite <- !app_assoc. cbn. reflexivity. }
    apply (listing_outcome_after_probe rest i acc m
             [EvVideoCapture i (backend dev) (Ok h); EvIsOpened h (Ok true);
              EvRead h (Ok (ok, frame)); EvRelease h (Ok tt)]
             (record (EvRelease h (Ok tt)) m3) r t);
      try reflexivity; try discriminate.
    + cbn. now rewrite <- !app_assoc.
    + intros h1 Hh1. fold h in Hh1. cbn. destruct ok; rewrite Hh1; repeat split.
    + fold h. cbn. rewrite handle_eqb_refl. destruct ok; cbn; rewrite ?app_nil_r; exact Ho.
  - set (m2 := record (EvIsOpened h (Ok false)) m1).
    intro Hrun. apply IH in Hrun. destruct Hrun as (t & Hc & Ho).
    eexists. split.
    { rewrite Hc. cbn. rewrite <- !app_assoc. cbn. reflexivity. }
    apply (listing_outcome_after_probe rest i acc m
             [EvVideoCapture i (backend dev) (Ok h); EvIsOpened h (Ok false)]
             m2 r t);
      try reflexivity; try discriminate.
    + cbn. now rewrite <- !app_assoc.
    + intros h1 Hh1. repeat split.
    + cbn. rewrite app_nil_r. exact Ho.
Qed.





(** When the test read raises, the listing is given up: the list is empty
    and the object that had opened stays unreleased. *)
Lemma check_camera_permissions_raising_read :
  let m' := snd (check_camera_permissions Devices.unreadable initial_machine) in
  fst (check_camera_permissions Devices.unreadable initial_machine) = Ok []
  /\ reported_open (calls m') {| hid := 0; hindex := 0 |} = true
  /\ released (calls m') {| hid := 0; hindex := 0 |} = false
  /\ probed_indices (calls m') = [0].
Proof.
  cbv zeta. repeat split.
Qed.

(** ** What a poll touches *)

#[export] Instance polled_preorder : PreOrder polled.
Proof.
  split.
  - intro m. split; [reflexivity|]. exists []. split; [now rewrite app_nil_r | constructor].
  - intros a b c [Hab (t1 & H1 & F1)] [Hbc (t2 & H2 & F2)]. split; [congruence|].
    exists (t1 ++ t2). split; [rewrite H2, H1; now rewrite app_assoc|].
    apply Forall_app. split; [exact F1 | now rewrite <- Hab].
Qed.

Lemma polled_modify f m :
  camera (f (vars m)) = camera (vars m) -> polled m (snd (modify f m)).
Proof.
  intro H. split; [exact H|]. exists []. split; [cbn; now rewrite app_nil_r | constructor].
Qed.

Lemma polled_read dev name : keeps polled (on_camera name (cap_read dev)).
Proof.
  intro m. unfold on_camera, bind, get_camera, cap_read. cbn.
  destruct (camera (vars m)) as [h|] eqn:E; cbn; [|reflexivity].
  split; [reflexivity|]. eexists. split; [reflexivity|].
  constructor; [rewrite E; reflexivity | constructor].
Qed.

Lemma polled_get dev name :
  keeps polled (on_camera name (fun c => cap_get dev c CAP_PROP_BUFFERSIZE)).
Proof.
  intro m. unfold on_camera, bind, get_camera, cap_get. cbn.
  destruct (camera (vars m)) as [h|] eqn:E; cbn; [|reflexivity].
  split; [reflexivity|]. eexists. split; [reflexivity|].
  constructor; [rewrite E; split; reflexivity | constructor].
Qed.

Lemma polled_discard_frames dev n : keeps polled (discard_frames dev n).
Proof.
  induction n as [|n IH]; cbn [discard_frames].
  - apply keeps_ret; typeclasses eauto.
  - apply keeps_bind; [typeclasses eauto | apply polled_read | intros _; exact IH].
Qed.

Lemma polled_drain_buffer dev : keeps polled (drain_buffer dev).
Proof.
  unfold drain_buffer.
  apply keeps_bind; [typeclasses eauto | apply polled_get | intro x].
  destruct (float_gt_one x); [|apply keeps_ret; typeclasses eauto].
  apply keeps_bind; [typeclasses eauto | apply polled_get | intro y].
  apply keeps_bind; [typeclasses eauto | | intro n; apply polled_discard_frames].
  destruct y; cbn [py_int];
    [apply keeps_ret | apply keeps_raise | apply keeps_raise]; typeclasses eauto.
Qed.

Lemma polled_read_and_store dev text : keeps polled (read_and_store dev text).
Proof.
  unfold read_and_store.
  apply keeps_bind; [typeclasses eauto | apply polled_read | intros [r frame]].
  destruct r; [destruct frame as [f|]|]; try (apply keeps_ret; typeclasses eauto).
  apply keeps_bind; [typeclasses eauto | apply keeps_cvtColor; typeclasses eauto | intro g].
  apply keeps_bind; [typeclasses eauto | | intros _; apply keeps_ret; typeclasses eauto].
  intro m. now apply polled_modify.
Qed.

Lemma polled_get_webcam_frame dev : keeps polled (get_webcam_frame dev).
Proof.
  unfold get_webcam_frame.
  apply keeps_bind; [typeclasses eauto | apply keeps_reader; typeclasses eauto | intro run].
  destruct (negb run); [apply keeps_reader; typeclasses eauto|].
  apply keeps_bind; [typeclasses eauto | apply keeps_reader; typeclasses eauto | intro cam].
  destruct cam; [|apply keeps_ret; typeclasses eauto].
  apply keeps_try_except; [typeclasses eauto | | intro e; apply keeps_ret; typeclasses eauto].
  apply keeps_bind; [typeclasses eauto | apply polled_drain_buffer | intros _].
  apply polled_read_and_store.
Qed.

Lemma get_webcam_frame_is_running dev : keeps (same_on is_running) (get_webcam_frame dev).
Proof.
  unfold get_webcam_frame. frame.
  intro m. pose proof (drain_buffer_vars dev m) as H.
  unfold same_on, same_vars in *. now rewrite H.
Qed.

(** What [read_and_store] returns is what it leaves in [last_frame], unless
    it leaves [last_frame] alone. *)
Lemma read_and_store_last_frame dev text m :
  last_frame (vars (snd (read_and_store dev text m))) = last_frame (vars m)
  \/ fst (read_and_store dev text m)
     = Ok (last_frame (vars (snd (read_and_store dev text m)))).
Proof.
  unfold read_and_store, on_camera, bind, get_camera, cap_read, cvtColor_BGR2RGB,
    set_last_frame, modify, ret, raise, record. cbv beta zeta.
  destruct (camera (vars m)) as [h|]; [|now left].
  destruct (on_read dev (calls m) h) as [[[] [f|]]|e]; try destruct (empty f);
    cbn -[create_error_image]; auto.
Qed.

(** X1: a poll keeps [camera], [is_running] and [error_message]; the device calls
    it makes are reads and buffer-size queries on the held handle, so it
    never opens, configures or releases a device; and when it changes
    [last_frame], the new value is the image it returns. *)
Theorem get_webcam_frame_touches (dev : device) (m : machine) :
  let m' := snd (get_webcam_frame dev m) in
  camera (vars m') = camera (vars m)
  /\ is_running (vars m') = is_running (vars m)
  /\ error_message (vars m') = error_message (vars m)
  /\ calls m' = calls m ++ new_calls m m'
  /\ Forall (poll_call (camera (vars m))) (new_calls m m')
  /\ (last_frame (vars m') = last_frame (vars m)
      \/ fst (get_webcam_frame dev m) = Ok (last_frame (vars m'))).
Proof.
  intro m'.
  destruct (polled_get_webcam_frame dev m) as [Hcam (t & Hc & Ht)]. fold m' in Hcam, Hc.
  rewrite (new_calls_app m m' t Hc).
  split; [exact Hcam|].
  split; [apply get_webcam_frame_is_running|].
  split; [apply get_webcam_frame_error_message|].
  split; [exact Hc|]. split; [exact Ht|].
  subst m'. unfold get_webcam_frame, bind, get_is_running, get_camera, get_last_frame.
  destruct (is_running (vars m)); cbn [negb]; [|now left].
  destruct (camera (vars m)) as [h|]; [|now left].
  unfold try_except, ret.
  pose proof (drain_buffer_vars dev m) as V. unfold same_vars in V.
  destruct (drain_buffer dev m) as [[[]|e] m1]; cbn [snd] in V.
  - pose proof (read_and_store_last_frame dev "Failed to read frame from camera" m1) as H.
    destruct (read_and_store dev _ m1) as [[a|e] m2]; cbn [fst snd] in *.
    + now rewrite <- V.
    + destruct H as [H | H]; [left; now rewrite <- V | discriminate].
  - left. cbn. now rewrite V.
Qed.

(** ** Histories built from the device's answers *)

#[export] Instance appends_preorder (Q : event -> Prop) : PreOrder (appends Q).
Proof.
  split.
  - intro m. exists []. split; [now rewrite app_nil_r | constructor].
  - intros a b c (t1 & H1 & F1) (t2 & H2 & F2).
    exists (t1 ++ t2). split; [rewrite H2, H1; now rewrite app_assoc|].
    apply Forall_app. now split.
Qed.

Section Appends.

Variable dev : device.
Variable Q : event -> Prop.
Hypothesis dev_answers : answers dev Q.

Lemma appends_record m ev : Q ev -> appends Q m (record ev m).
Proof. intro H. exists [ev]. split; [reflexivity | now constructor]. Qed.

Lemma appends_modify f : keeps (appends Q) (modify f).
Proof. intro m. exists []. split; [cbn; now rewrite app_nil_r | constructor]. Qed.

Lemma appends_VideoCapture i : keeps (appends Q) (VideoCapture dev i (backend dev)).
Proof.
  intro m. destruct dev_answers as (H & _). specialize (H (calls m) i).
  unfold VideoCapture, VideoCapture_event in *.
  destruct (on_VideoCapture dev (calls m) i (backend dev)); now apply appends_record.
Qed.

Lemma appends_cap_isOpened h : keeps (appends Q) (cap_isOpened dev h).
Proof. intro m. apply appends_record, dev_answers. Qed.

Lemma appends_cap_read h : keeps (appends Q) (cap_read dev h).
Proof. intro m. apply appends_record, dev_answers. Qed.

Lemma appends_cap_set h p v : keeps (appends Q) (cap_set dev h p v).
Proof. intro m. apply appends_record, dev_answers. Qed.

Lemma appends_cap_get h p : keeps (appends Q) (cap_get dev h p).
Proof. intro m. apply appends_record, dev_answers. Qed.

Lemma appends_cap_release h : keeps (appends Q) (cap_release dev h).
Proof. intro m. apply appends_record, dev_answers. Qed.

End Appends.

(** One step of a proof that a computation only appends answers of the
    device. *)
Ltac appends_step H :=
  match goal with
  | |- keeps _ (bind _ _) => apply keeps_bind; [typeclasses eauto | | intro]
  | |- keeps _ (try_except _ _) => apply keeps_try_except; [typeclasses eauto | | intro]
  | |- keeps _ (try_finally _ _) => apply keeps_try_finally; [typeclasses eauto | | ]
  | |- keeps _ (ret _) => apply keeps_ret; typeclasses eauto
  | |- keeps _ (raise _) => apply keeps_raise; typeclasses eauto
  | |- keeps _ get_camera => apply keeps_reader; typeclasses eauto
  | |- keeps _ get_is_running => apply keeps_reader; typeclasses eauto
  | |- keeps _ get_last_frame => apply keeps_reader; typeclasses eauto
  | |- keeps _ get_error_message => apply keeps_reader; typeclasses eauto
  | |- keeps _ (cvtColor_BGR2RGB _ _) => apply keeps_cvtColor; typeclasses eauto
  | |- keeps _ (on_camera _ _) => apply keeps_on_camera; [typeclasses eauto | intro]
  | |- keeps _ (VideoCapture _ _ _) => apply appends_VideoCapture; exact H
  | |- keeps _ (cap_isOpened _ _) => apply appends_cap_isOpened; exact H
  | |- keeps _ (cap_read _ _) => apply appends_cap_read; exact H
  | |- keeps _ (cap_set _ _ _ _) => apply appends_cap_set; exact H
  | |- keeps _ (cap_get _ _ _) => apply appends_cap_get; exact H
  | |- keeps _ (cap_release _ _) => apply appends_cap_release; exact H
  | |- keeps _ (adopt _ _) => unfold adopt
  | |- keeps _ (read_and_store _ _) => unfold read_and_store
  | |- keeps _ (py_int ?x) => destruct x; cbn [py_int]
  | |- keeps _ (match ?x with _ => _ end) => destruct x
  | |- keeps _ (set_camera _) => apply appends_modify
  | |- keeps _ (set_is_running _) => apply appends_modify
  | |- keeps _ (set_last_frame _) => apply appends_modify
  | |- keeps _ (set_error_message _) => apply appends_modify
  end.

Section AppendsOperations.

Variable dev : device.
Variable Q : event -> Prop.
Hypothesis dev_answers : answers dev Q.

Lemma appends_probe_indices indices : keeps (appends Q) (probe_indices dev indices).
Proof.
  induction indices as [|i rest IH]; cbn [probe_indices];
    repeat appends_step dev_answers; exact IH.
Qed.

Lemma appends_initialize_camera : keeps (appends Q) (initialize_camera dev).
Proof.
  unfold initialize_camera, acquire. repeat appends_step dev_answers.
  apply appends_probe_indices.
Qed.

Lemma appends_start_webcam : keeps (appends Q) (start_webcam dev).
Proof.
  unfold start_webcam. repeat appends_step dev_answers.
  apply appends_initialize_camera.
Qed.

Lemma appends_stop_webcam : keeps (appends Q) (stop_webcam dev).
Proof. unfold stop_webcam. repeat appends_step dev_answers. Qed.

Lemma appends_discard_frames n : keeps (appends Q) (discard_frames dev n).
Proof.
  induction n as [|n IH]; cbn [discard_frames]; repeat appends_step dev_answers. exact IH.
Qed.

Lemma appends_get_webcam_frame : keeps (appends Q) (get_webcam_frame dev).
Proof.
  unfold get_webcam_frame, drain_buffer. repeat appends_step dev_answers.
  apply appends_discard_frames.
Qed.

Lemma appends_list_cameras indices :
  forall acc, keeps (appends Q) (list_cameras dev indices acc).
Proof.
  induction indices as [|i rest IH]; intro acc; cbn [list_cameras];
    repeat appends_step dev_answers; apply IH.
Qed.

Lemma appends_check_camera_permissions : keeps (appends Q) (check_camera_permissions dev).
Proof.
  unfold check_camera_permissions. repeat appends_step dev_answers.
  apply appends_list_cameras.
Qed.

Lemma appends_perform a : keeps (appends Q) (perform dev a).
Proof.
  destruct a; cbn [perform].
  - apply appends_start_webcam.
  - apply appends_stop_webcam.
  - apply appends_get_webcam_frame.
Qed.

End AppendsOperations.

(** A relation every operation keeps is kept by a whole session. *)
Lemma session_keeps dev (R : machine -> machine -> Prop) `{!PreOrder R} :
  (forall a, keeps R (perform dev a)) ->
  forall acts m, R m (snd (session dev acts m)).
Proof.
  intros H acts. induction acts as [|a rest IH]; intro m; cbn [session].
  - reflexivity.
  - specialize (H a m). destruct (perform dev a m) as [r m1]. cbn [snd] in H.
    specialize (IH m1). destruct (session dev rest m1) as [rs m2]. cbn [snd] in *.
    now transitivity m1.
Qed.

(** ** Invariants of a session *)

Lemma any_answers dev : answers dev (fun _ => True).
Proof. unfold answers. repeat split. Qed.

Lemma backend_answers dev : answers dev (backend_call dev).
Proof. unfold answers, VideoCapture_event, backend_call, backend, CAP_DSHOW. repeat split. Qed.

Lemma appends_session dev Q acts m :
  answers dev Q -> appends Q m (snd (session dev acts m)).
Proof.
  intro H. apply session_keeps; [typeclasses eauto|].
  intro a. now apply appends_perform.
Qed.

(** X2: every capture object the program creates, in a session of
    [start_webcam], [stop_webcam] and [get_webcam_frame] calls or while
    listing cameras, is created with [cv2.CAP_DSHOW] when
    [platform.system()] is "Windows" and with no backend argument on any
    other platform. *)
Theorem backend_hint_by_platform (dev : device) (acts : list action) (m : machine) :
  Forall (backend_call dev) (calls (snd (session dev acts initial_machine)))
  /\ Forall (backend_call dev) (new_calls m (snd (check_camera_permissions dev m))).
Proof.
  split.
  - destruct (appends_session dev (backend_call dev) acts initial_machine
                (backend_answers dev)) as (t & -> & Ht). exact Ht.
  - destruct (appends_check_camera_permissions dev (backend_call dev)
                (backend_answers dev) m) as (t & Hc & Ht).
    now rewrite (new_calls_app _ _ t Hc).
Qed.

(** ** A start that fails *)

Lemma accepted_candidate t h f :
  accepted t h f -> In h (opened_handles t) -> candidate_succeeded t = true.
Proof.
  intros [Hopen Hread] Hin. unfold candidate_succeeded.
  apply existsb_exists. exists h. split; [exact Hin|].
  apply andb_true_intro. split; apply existsb_exists.
  - exists (EvIsOpened h (Ok true)). split; [exact Hopen | apply handle_eqb_refl].
  - exists (EvRead h (Ok (true, Some f))). split; [exact Hread | apply handle_eqb_refl].
Qed.

Lemma begins_bind {A B} (c : M A) (k : A -> M B) m ev :
  (exists rest, calls (snd (c m)) = calls m ++ ev :: rest) ->
  (forall a, keeps (appends (fun _ => True)) (k a)) ->
  exists rest, calls (snd (bind c k m)) = calls m ++ ev :: rest.
Proof.
  intros [rest Hc] Hk. unfold bind.
  destruct (c m) as [[a|e] m1]; cbn [snd] in *; [|now exists rest].
  destruct (Hk a m1) as (t & Ht & _). exists (rest ++ t).
  rewrite Ht, Hc, <- app_assoc. reflexivity.
Qed.

Lemma begins_try_except {A} (body : M A) (handler : string -> M A) m ev :
  (exists rest, calls (snd (body m)) = calls m ++ ev :: rest) ->
  (forall e, keeps (appends (fun _ => True)) (handler e)) ->
  exists rest, calls (snd (try_except body handler m)) = calls m ++ ev :: rest.
Proof.
  intros [rest Hc] Hh. unfold try_except.
  destruct (body m) as [[a|e] m1]; cbn [snd] in *; [now exists rest|].
  destruct (Hh e m1) as (t & Ht & _). exists (rest ++ t).
  rewrite Ht, Hc, <- app_assoc. reflexivity.
Qed.

(** A poll of a running session that holds a handle begins by asking the
    handle for its buffer size. *)
Lemma get_webcam_frame_first_call dev m h :
  is_running (vars m) = true ->
  camera (vars m) = Some h ->
  exists rest,
    calls (snd (get_webcam_frame dev m))
    = calls m ++ EvGet h CAP_PROP_BUFFERSIZE (on_get dev (calls m) h CAP_PROP_BUFFERSIZE)
                 :: rest.
Proof.
  intros Hrun Hcam. unfold get_webcam_frame.
  unfold bind at 1. unfold get_is_running. rewrite Hrun. cbn [negb].
  unfold bind at 1. unfold get_camera. rewrite Hcam.
  apply begins_try_except; [|intro; apply keeps_ret; typeclasses eauto].
  apply begins_bind.
  - unfold drain_buffer. apply begins_bind.
    + unfold on_camera, bind, get_camera, cap_get. rewrite Hcam. cbn. now exists [].
    + intro x. repeat appends_step (any_answers dev).
      apply appends_discard_frames, any_answers.
  - intros _. repeat appends_step (any_answers dev).
Qed.

(** C4 (amended): when [start_webcam] is entered without a handle and its
    [initialize_camera] reports failure, then afterwards [is_running] is
    [True], [error_message] holds a message and [start_webcam] returned the
    error image rendered from it.  Either [camera] is [None], and then each
    of any number of following [get_webcam_frame] calls returns the "Camera
    not initialized" image and changes nothing, device history included, so
    that no acquisition is attempted again; or a candidate had reported
    itself open and delivered its test frame and a [set] call on it raised,
    and then [camera] holds that candidate and the next [get_webcam_frame]
    begins by querying it.  When no probed candidate both opened and
    delivered a frame, [camera] is [None]. *)
Theorem failed_start_stays_running (dev : device) (m : machine) (n : nat) :
  camera (vars m) = None ->
  fst (initialize_camera dev (running m)) = Ok false ->
  let m' := snd (start_webcam dev m) in
  let t := new_calls m m' in
  is_running (vars m') = true
  /\ (exists msg,
        error_message (vars m') = Some msg
        /\ fst (start_webcam dev m) = Ok (Some (create_error_image msg)))
  /\ ((camera (vars m') = None
       /\ session dev (repeat Poll n) m'
          = (repeat (Ok (Some (create_error_image "Camera not initialized"))) n, m'))
      \/ (exists h f,
            camera (vars m') = Some h
            /\ accepted t h f
            /\ existsb set_raised t = true
            /\ exists rest,
                 new_calls m' (snd (get_webcam_frame dev m'))
                 = EvGet h CAP_PROP_BUFFERSIZE
                     (on_get dev (calls m') h CAP_PROP_BUFFERSIZE) :: rest))
  /\ (candidate_succeeded t = false -> camera (vars m') = None).
Proof.
  intros Hcam Hfail m' t. subst m' t.
  rewrite (start_webcam_failed dev m Hfail).
  destruct (initialize_camera dev (running m)) as [r m1] eqn:E.
  destruct (initialize_camera_acquisition dev (running m) r m1 Hcam E)
    as (t & Hc & Hpre & Hacq).
  cbn [fst snd] in *. subst r.
  change (calls (running m)) with (calls m) in Hc.
  rewrite (new_calls_app m m1 t Hc).
  assert (Hv : exists msg cam,
                 vars m1 = with_error_message (Some msg) (with_camera cam (vars (running m)))
                 /\ (forall d, or_default (Some msg) d = msg)
                 /\ (cam = None
                     \/ exists h f, cam = Some h /\ accepted t h f
                                    /\ In h (opened_handles t)
                                    /\ existsb set_raised t = true)).
  { inversion Hacq as [Hq Had | Hq Hex Hv | e Hq Hstop Hv]; subst.
    - exists no_camera_message, None. rewrite Hv. destruct m as [[? ? ? ?] ?]. cbn in *.
      subst. repeat split. now left.
    - destruct Hv as [Hv | (Hs & h & f & Hacc & Hin & Hv)].
      + exists (initialization_error e), None. rewrite Hv.
        destruct m as [[? ? ? ?] ?]. cbn in *. subst. repeat split. now left.
      + exists (initialization_error e), (Some h). rewrite Hv.
        repeat split. right. now exists h, f. }
  destruct Hv as (msg & cam & Hv & Hd & Hcases).
  assert (Hrun : is_running (vars m1) = true) by now rewrite Hv.
  assert (Hcam1 : camera (vars m1) = cam) by now rewrite Hv.
  split; [exact Hrun|]. split; [|split].
  - exists msg. rewrite Hv. cbn [error_message with_error_message].
    split; [reflexivity|]. now rewrite Hd.
  - destruct Hcases as [-> | (h & f & -> & Hacc & Hin & Hs)].
    + left. split; [exact Hcam1|]. now apply session_polls_uninitialized.
    + right. exists h, f.
      split; [exact Hcam1|]. split; [exact Hacc|]. split; [exact Hs|].
      destruct (get_webcam_frame_first_call dev m1 h Hrun Hcam1) as [rest Hrest].
      exists rest. now apply new_calls_app.
  - intro Hnone. destruct Hcases as [-> | (h & f & -> & Hacc & Hin & Hs)]; [exact Hcam1|].
    rewrite (accepted_candidate t h f Hacc Hin) in Hnone. discriminate Hnone.
Qed.

Lemma failed_start_stays_running_witness :
  let m' := snd (start_webcam Devices.unreadable initial_machine) in
  is_running (vars m') = true
  /\ camera (vars m') = None
  /\ (exists msg,
        error_message (vars m') = Some msg
        /\ fst (start_webcam Devices.unreadable initial_machine)
           = Ok (Some (create_error_image msg))).
Proof.
  intro m'.
  pose proof (failed_start_stays_running Devices.unreadable initial_machine 3
                eq_refl eq_refl) as (H1 & H2 & _ & H4).
  exact (conj H1 (conj (H4 eq_refl) H2)).
Defined.

(** At a device whose [set] raises, a candidate succeeds and is adopted, and
    [initialize_camera] reports failure with the handle held: [camera] holds
    it after [start_webcam], and the next [get_webcam_frame] reads from it
    and returns a camera frame. *)
Lemma configuration_failure_holds_handle :
  let dev := Devices.unconfigurable (Devices.black 480 640) in
  let h := {| hid := 0; hindex := 0 |} in
  let m' := snd (start_webcam dev initial_machine) in
  fst (initialize_camera dev (running initial_machine)) = Ok false
  /\ fst (start_webcam dev initial_machine)
     = Ok (Some (create_error_image "Camera initialization error: set failed"))
  /\ is_running (vars m') = true
  /\ candidate_succeeded (calls m') = true
  /\ camera (vars m') = Some h
  /\ new_calls m' (snd (get_webcam_frame dev m'))
     = [EvGet h CAP_PROP_BUFFERSIZE (Ok (Finite 1));
        EvRead h (Ok (true, Some (Devices.black 480 640)))]
  /\ fst (get_webcam_frame dev m') = Ok (Some (bgr2rgb (Devices.black 480 640))).
Proof.
  cbv zeta. repeat split.
Qed.

(** ** Every call returns an image, or is a start that raises *)

(** [start_webcam] raises exactly when it is entered with a handle whose
    [isOpened] raises: that call is made on the last line of
    [initialize_camera], outside every [try]. *)
Lemma start_webcam_raises dev m e :
  fst (start_webcam dev m) = Raise e
  <-> exists h, camera (vars m) = Some h /\ on_isOpened dev (calls m) h = Raise e.
Proof.
  destruct (initialize_camera dev (running m)) as [r m1] eqn:E.
  pose proof (start_webcam_after dev m r m1 E) as H.
  destruct (camera (vars m)) as [h|] eqn:Hcam.
  - rewrite (initialize_camera_held dev (running m) h Hcam) in E.
    change (calls (running m)) with (calls m) in E. injection E as Hr _.
    destruct r as [b|e'].
    + destruct H as [img ->]. split; [discriminate|].
      intros (h' & [= <-] & Hh). congruence.
    + rewrite H. cbn [fst]. split.
      * intros [= ->]. now exists h.
      * intros (h' & [= <-] & Hh). congruence.
  - destruct (initialize_camera_returns dev (running m) Hcam) as [b Hb].
    rewrite E in Hb. cbn [fst] in Hb. subst r.
    destruct H as [img ->]. split; [discriminate | intros (h & [=] & _)].
Qed.

Section Images.

Variable dev : device.
Variable P : image -> Prop.
Hypothesis P_error_image : forall s, P (create_error_image s).
Hypothesis P_frame :
  forall t h r f, on_read dev t h = Ok (r, Some f) -> P (bgr2rgb f).

Lemma read_and_store_image (fallback : string) m r m' :
  holds_frame P m ->
  read_and_store dev fallback m = (r, m') ->
  holds_frame P m'
  /\ (forall a, r = Ok a -> returns_image P r).
Proof.
  intros Hm.
  unfold read_and_store, on_camera, bind, get_camera, cap_read, cvtColor_BGR2RGB,
    set_last_frame, modify, ret, raise, record.
  cbv beta zeta.
  destruct (camera (vars m)) as [h|]; cbv beta iota.
  - destruct (on_read dev (calls m) h) as [[[] [f|]]|e] eqn:E; try destruct (empty f);
      cbn -[create_error_image]; intros [= <- <-];
      first
        [ split; [exact Hm | intros a Ha; discriminate Ha]
        | split; [exact Hm | intros ? _; eexists; split; [reflexivity | apply P_error_image]]
        | split; [exists (bgr2rgb f) | intros ? _; exists (bgr2rgb f)];
          (split; [reflexivity | exact (P_frame _ _ _ _ E)]) ].
  - intros [= <- <-]. split; [exact Hm | intros a Ha; discriminate Ha].
Qed.

Lemma start_webcam_image m r m' :
  holds_frame P m ->
  start_webcam dev m = (r, m') ->
  holds_frame P m' /\ call_outcome P (calls m') (Start, r).
Proof.
  intros Hm Hstart.
  pose proof (start_webcam_raises dev m) as Hraise. rewrite Hstart in Hraise. cbn [fst] in Hraise.
  revert Hstart. unfold start_webcam.
  unfold bind at 1. unfold set_is_running, modify. cbv beta iota.
  fold (running m). unfold bind at 1.
  assert (H0 : holds_frame P (running m)) by exact Hm.
  pose proof (initialize_camera_last_frame dev (running m)) as Hlf. unfold same_on in Hlf.
  destruct (camera (vars m)) as [h|] eqn:Hcam.
  - rewrite (initialize_camera_held dev (running m) h Hcam) in *.
    change (calls (running m)) with (calls m) in *. cbn [snd] in Hlf.
    set (m1 := record (EvIsOpened h (on_isOpened dev (calls m) h)) (running m)) in *.
    assert (H1 : holds_frame P m1) by exact H0.
    destruct (on_isOpened dev (calls m) h) as [b|e] eqn:Eo.
    + destruct b; cbn [negb].
      * unfold try_except.
        destruct (read_and_store dev "Camera opened but cannot read frames" m1)
          as [[a|e] m2] eqn:E;
          destruct (read_and_store_image _ _ _ _ H1 E) as [Hm2 Hr].
        -- intros [= <- <-]. split; [exact Hm2 | left; exact (Hr a eq_refl)].
        -- unfold ret. intros [= <- <-].
           split; [exact Hm2 | left; eexists; split; [reflexivity | apply P_error_image]].
      * unfold bind, get_error_message, ret. intros [= <- <-].
        split; [exact H1 | left; eexists; split; [reflexivity | apply P_error_image]].
    + intros [= <- <-]. split; [exact H1|]. right. split; [reflexivity|].
      exists h, e. split; [reflexivity|]. subst m1. cbn. apply in_or_app. right. now left.
  - destruct (initialize_camera_returns dev (running m) Hcam) as [b Hb].
    destruct (initialize_camera dev (running m)) as [r1 m1]. cbn [fst snd] in Hb, Hlf. subst r1.
    assert (H1 : holds_frame P m1).
    { destruct H0 as (f & Hf & HP). exists f. split; [congruence | exact HP]. }
    destruct b; cbn [negb].
    + unfold try_except.
      destruct (read_and_store dev "Camera opened but cannot read frames" m1)
        as [[a|e] m2] eqn:E;
        destruct (read_and_store_image _ _ _ _ H1 E) as [Hm2 Hr].
      * intros [= <- <-]. split; [exact Hm2 | left; exact (Hr a eq_refl)].
      * unfold ret. intros [= <- <-].
        split; [exact Hm2 | left; eexists; split; [reflexivity | apply P_error_image]].
    + unfold bind, get_error_message, ret. intros [= <- <-].
      split; [exact H1 | left; eexists; split; [reflexivity | apply P_error_image]].
Qed.

Lemma get_webcam_frame_image m r m' :
  holds_frame P m ->
  get_webcam_frame dev m = (r, m') ->
  returns_image P r /\ holds_frame P m'.
Proof.
  intros Hm.
  unfold get_webcam_frame.
  unfold bind at 1. unfold get_is_running. cbv beta iota.
  destruct (is_running (vars m)); cbn [negb].
  2:{ unfold get_last_frame. intros [= <- <-].
      destruct Hm as (f & Hf & HP).
      split; [exists f; split; [now rewrite Hf | exact HP] | exists f; auto]. }
  unfold bind at 1. unfold get_camera. cbv beta iota.
  destruct (camera (vars m)) as [h|].
  2:{ unfold ret. intros [= <- <-].
      split; [eexists; split; [reflexivity | apply P_error_image] | exact Hm]. }
  unfold try_except, bind.
  pose proof (drain_buffer_vars dev m) as V. unfold same_vars in V.
  destruct (drain_buffer dev m) as [[[]|e] m1]; cbn [snd] in V.
  - assert (H1 : holds_frame P m1).
    { destruct Hm as (f & Hf & HP). exists f. rewrite V. auto. }
    destruct (read_and_store dev "Failed to read frame from camera" m1) as [[a|e] m2] eqn:E;
      destruct (read_and_store_image _ _ _ _ H1 E) as [Hm2 Hr].
    + intros [= <- <-]. split; [exact (Hr a eq_refl) | exact Hm2].
    + unfold ret. intros [= <- <-].
      split; [eexists; split; [reflexivity | apply P_error_image] | exact Hm2].
  - unfold ret. intros [= <- <-]. split.
    + eexists; split; [reflexivity | apply P_error_image].
    + destruct Hm as (f & Hf & HP). exists f. rewrite V. auto.
Qed.

Lemma stop_webcam_image m r m' :
  holds_frame P m ->
  stop_webcam dev m = (r, m') ->
  returns_image P r /\ holds_frame P m'.
Proof.
  intros (f & Hf & HP) E.
  pose proof (stop_webcam_result dev m) as Hr.
  pose proof (stop_webcam_vars dev m) as Hv.
  rewrite E in Hr, Hv. cbn [fst snd] in Hr, Hv. subst r.
  split; [exists f; rewrite Hf; auto|].
  exists f. rewrite Hv. auto.
Qed.

Lemma perform_image a m r m' :
  holds_frame P m ->
  perform dev a m = (r, m') ->
  holds_frame P m' /\ call_outcome P (calls m') (a, r).
Proof.
  destruct a; cbn [perform]; intros Hm E.
  - exact (start_webcam_image m r m' Hm E).
  - destruct (stop_webcam_image m r m' Hm E). split; [assumption | now left].
  - destruct (get_webcam_frame_image m r m' Hm E). split; [assumption | now left].
Qed.

Lemma call_outcome_later t t' call :
  call_outcome P t call -> call_outcome P (t ++ t') call.
Proof.
  intros [H | (Ha & h & e & Hr & Hin)]; [now left | right].
  split; [exact Ha|]. exists h, e. split; [exact Hr | apply in_or_app; now left].
Qed.

Lemma session_images acts :
  forall m,
    holds_frame P m ->
    List.length (fst (session dev acts m)) = List.length acts
    /\ Forall (call_outcome P (calls (snd (session dev acts m))))
              (combine acts (fst (session dev acts m))).
Proof.
  induction acts as [|a rest IH]; intros m Hm; cbn [session].
  - split; [reflexivity | constructor].
  - destruct (perform dev a m) as [r m1] eqn:E.
    destruct (perform_image a m r m1 Hm E) as [Hm1 Hr].
    destruct (IH m1 Hm1) as [Hlen Hrs].
    destruct (appends_session dev (fun _ => True) rest m1 (any_answers dev)) as (t & Ht & _).
    destruct (session dev rest m1) as [rs m2]. cbn [fst snd] in *.
    split; [cbn [List.length]; now rewrite Hlen|].
    cbn [combine]. constructor; [|exact Hrs].
    rewrite Ht. now apply call_outcome_later.
Qed.

End Images.

Lemma returned_images (P : image -> Prop) t acts :
  existsb isOpened_raised t = false ->
  forall rs,
    List.length rs = List.length acts ->
    Forall (call_outcome P t) (combine acts rs) ->
    Forall (returns_image P) rs.
Proof.
  intro Hq. induction acts as [|a rest IH]; intros [|r rs] Hlen H; try discriminate Hlen.
  - constructor.
  - cbn [combine] in H. inversion H as [|? ? Hr Hrs]; subst.
    constructor; [|apply IH; [now injection Hlen | exact Hrs]].
    destruct Hr as [Hr | (_ & h & e & _ & Hin)]; [exact Hr|].
    assert (Hc : existsb isOpened_raised t = true)
      by (apply existsb_exists; exists (EvIsOpened h (Raise e)); now split).
    congruence.
Qed.

Lemma sized_by_640x480 dev img :
  delivers_640x480 dev -> sized_by dev img -> shape img = (480, 640, 3).
Proof.
  intros Hdev [H | (t & h & r & f & Hread & ->)]; [exact H|].
  apply Hdev in Hread. unfold is_640x480 in Hread. apply andb_prop in Hread as [Hr Hc].
  apply Z.eqb_eq in Hr, Hc. unfold shape. now rewrite Hr, Hc.
Qed.

(** C8 (amended): in a sequence of [start_webcam], [stop_webcam] and
    [get_webcam_frame] calls made from the initial state, whatever the
    device does (raising opens, reads, configuration and releases
    included), every call either returns an image, never [None], or is a
    [start_webcam] that raises the exception an [isOpened] call raised; when
    no [isOpened] call raised, every call returned an image.  A returned
    image is 640 by 480 by 3 or has the size of a frame the device
    delivers, so every returned image is 640 by 480 by 3 when the device
    delivers 640 by 480 frames.  From any state, [start_webcam] raises
    exactly when it is entered with a handle whose [isOpened] raises, and
    then it raises that exception. *)
Theorem session_returns_images (dev : device) (acts : list action) (m : machine) (e : string) :
  let rs := fst (session dev acts initial_machine) in
  let t := calls (snd (session dev acts initial_machine)) in
  List.length rs = List.length acts
  /\ Forall (call_outcome (sized_by dev) t) (combine acts rs)
  /\ (existsb isOpened_raised t = false -> Forall (returns_image (sized_by dev)) rs)
  /\ (delivers_640x480 dev ->
      Forall (call_outcome (fun img => shape img = (480, 640, 3)) t) (combine acts rs))
  /\ (fst (start_webcam dev m) = Raise e
      <-> exists h, camera (vars m) = Some h /\ on_isOpened dev (calls m) h = Raise e).
Proof.
  intros rs t.
  assert (H : List.length rs = List.length acts
              /\ Forall (call_outcome (sized_by dev) t) (combine acts rs)).
  { apply (session_images dev (sized_by dev)).
    - intro s. left. apply create_error_image_shape.
    - intros t0 h r f Hread. right. now exists t0, h, r, f.
    - eexists. split; [reflexivity | now left]. }
  destruct H as [Hlen Hall].
  split; [exact Hlen|]. split; [exact Hall|]. split; [|split].
  - intro Hq. now apply (returned_images _ t acts).
  - intro Hdev. apply (Forall_impl _ (P := call_outcome (sized_by dev) t)); [|exact Hall].
    intros [a r] [(img & Hr & Hs) | Hr]; [left | now right].
    exists img. split; [exact Hr | now apply (sized_by_640x480 dev)].
  - apply start_webcam_raises.
Qed.

Lemma session_returns_images_witness :
  Forall (returns_image (sized_by (Devices.steady (Devices.black 480 640))))
         (fst (session (Devices.steady (Devices.black 480 640))
                       [Poll; Start; Poll; Stop; Poll] initial_machine)).
Proof.
  exact (proj1 (proj2 (proj2 (session_returns_images
                                (Devices.steady (Devices.black 480 640))
                                [Poll; Start; Poll; Stop; Poll]
                                initial_machine EmptyString)))
               eq_refl).
Defined.

(** At a camera that delivers 1280 by 720 frames, [start_webcam] returns a
    frame of shape (720, 1280, 3). *)
Lemma start_webcam_returns_device_size :
  fst (start_webcam (Devices.steady (Devices.black 720 1280)) initial_machine)
  = Ok (Some (Devices.black 720 1280))
  /\ ~ Forall (returns_image (fun img => shape img = (480, 640, 3)))
             (fst (session (Devices.steady (Devices.black 720 1280)) [Start] initial_machine)).
Proof.
  split; [reflexivity|].
  intro H. inversion H as [|r rs (img & E & S) _]; subst.
  injection E as <-. discriminate S.
Qed.

(** At a device whose [isOpened] starts to raise, a second [start_webcam]
    raises that exception: nothing catches it. *)
Example start_webcam_propagates_isOpened :
  let dev := Devices.stalling (Devices.black 480 640) in
  let m := snd (start_webcam dev initial_machine) in
  fst (start_webcam dev initial_machine) = Ok (Some (Devices.black 480 640))
  /\ camera (vars m) = Some {| hid := 0; hindex := 0 |}
  /\ fst (start_webcam dev m) = Raise "isOpened failed"
  /\ fst (session dev [Start; Start] initial_machine)
     = [Ok (Some (Devices.black 480 640)); Raise "isOpened failed"].
Proof.
  cbv zeta. repeat split.
Qed.

Lemma probe_indices_is_running dev indices :
  keeps (same_on is_running) (probe_indices dev indices).
Proof.
  induction indices as [|i rest IH]; cbn [probe_indices]; frame; exact IH.
Qed.

Lemma initialize_camera_is_running dev :
  keeps (same_on is_running) (initialize_camera dev).
Proof.
  unfold initialize_camera, acquire. frame. apply probe_indices_is_running.
Qed.

Lemma start_webcam_is_running dev m :
  is_running (vars (snd (start_webcam dev m))) = true.
Proof.
  unfold start_webcam. unfold bind at 1. unfold set_is_running, modify. cbv beta iota.
  fold (running m).
  match goal with
  | |- is_running (vars (snd (?c (running m)))) = _ =>
      assert (K : keeps (same_on is_running) c)
  end.
  { frame. apply initialize_camera_is_running. }
  rewrite (K (running m)). reflexivity.
Qed.

(** X3: [is_running] after any sequence of calls is decided by the last
    [start_webcam] or [stop_webcam] among them, whatever the device did:
    a [start_webcam] that failed counts like one that succeeded. *)
Theorem session_is_running (dev : device) (acts : list action) (m : machine) :
  is_running (vars (snd (session dev acts m))) = running_after acts (is_running (vars m)).
Proof.
  revert m. induction acts as [|a rest IH]; intro m; [reflexivity|].
  cbn [session running_after fold_left].
  destruct (perform dev a m) as [r m1] eqn:E.
  specialize (IH m1). destruct (session dev rest m1) as [rs m2]. cbn [snd] in *.
  rewrite IH. unfold running_after. f_equal.
  destruct a; cbn [perform] in E.
  - pose proof (start_webcam_is_running dev m) as H. now rewrite E in H.
  - pose proof (stop_webcam_vars dev m) as H. rewrite E in H. cbn [snd] in H. now rewrite H.
  - pose proof (get_webcam_frame_is_running dev m) as H. now rewrite E in H.
Qed.

Lemma held_while_running_perform dev a m :
  camera (vars m) = None \/ is_running (vars m) = true ->
  camera (vars (snd (perform dev a m))) = None
  \/ is_running (vars (snd (perform dev a m))) = true.
Proof.
  intro H. destruct a; cbn [perform].
  - right. apply start_webcam_is_running.
  - left. now rewrite stop_webcam_vars.
  - destruct (polled_get_webcam_frame dev m) as [Hcam _].
    rewrite Hcam, (get_webcam_frame_is_running dev m). exact H.
Qed.

(** X4: in every state a session can reach from the initial one, a handle is
    held only while [is_running] is [True]: [camera] is [None] or
    [is_running] is [True]. *)
Theorem held_only_while_running (dev : device) (acts : list action) :
  camera (vars (snd (session dev acts initial_machine))) = None
  \/ is_running (vars (snd (session dev acts initial_machine))) = true.
Proof.
  assert (H : forall m, camera (vars m) = None \/ is_running (vars m) = true ->
                        camera (vars (snd (session dev acts m))) = None
                        \/ is_running (vars (snd (session dev acts m))) = true).
  { induction acts as [|a rest IH]; intros m Hm; [exact Hm|].
    cbn [session].
    pose proof (held_while_running_perform dev a m Hm) as H1.
    destruct (perform dev a m) as [r m1]. cbn [snd] in H1.
    specialize (IH m1 H1). destruct (session dev rest m1) as [rs m2]. exact IH. }
  apply H. now left.
Qed.

#[export] Instance provenance_preorder : PreOrder provenance.
Proof.
  split.
  - intro m. split; [exists []; now rewrite app_nil_r | now left].
  - intros a b c [(t1 & H1) F1] [(t2 & H2) F2]. split.
    + exists (t1 ++ t2). rewrite H2, H1. now rewrite app_assoc.
    + destruct F2 as [F2 | F2]; [|now right].
      destruct F1 as [F1 | (h & f & Hin & F1)]; [left; congruence | right].
      exists h, f. split; [rewrite H2; apply in_or_app; now left | congruence].
Qed.

Lemma provenance_of_frame {A} (c : M A) :
  keeps (same_on last_frame) c -> keeps (appends (fun _ => True)) c -> keeps provenance c.
Proof.
  intros Hf Ha m. destruct (Ha m) as (t & Hc & _).
  split; [now exists t | left; apply Hf].
Qed.

Lemma provenance_read_and_store dev text : keeps provenance (read_and_store dev text).
Proof.
  intro m.
  unfold read_and_store, on_camera, bind, get_camera, cap_read, cvtColor_BGR2RGB,
    set_last_frame, modify, ret, raise, record. cbv beta zeta.
  destruct (camera (vars m)) as [h|]; [|reflexivity].
  destruct (on_read dev (calls m) h) as [[[] [f|]]|e]; try destruct (empty f);
    cbn -[create_error_image];
    (split; [eexists; reflexivity|]); try (now left).
  right. exists h, f. split; [apply in_or_app; right; now left | reflexivity].
Qed.

Lemma stop_webcam_last_frame dev : keeps (same_on last_frame) (stop_webcam dev).
Proof. unfold stop_webcam. frame. Qed.

Lemma provenance_perform dev a : keeps provenance (perform dev a).
Proof.
  destruct a; cbn [perform].
  - unfold start_webcam.
    apply keeps_bind; [typeclasses eauto | | intros _].
    { apply provenance_of_frame; [intro; reflexivity | apply appends_modify]. }
    apply keeps_bind; [typeclasses eauto | | intro ok].
    { apply provenance_of_frame;
        [apply initialize_camera_last_frame
        | apply appends_initialize_camera, any_answers]. }
    destruct (negb ok).
    + apply keeps_bind; [typeclasses eauto | apply keeps_reader; typeclasses eauto | intro].
      apply keeps_ret; typeclasses eauto.
    + apply keeps_try_except; [typeclasses eauto | apply provenance_read_and_store | intro].
      apply keeps_ret; typeclasses eauto.
  - apply provenance_of_frame;
      [apply stop_webcam_last_frame | apply appends_stop_webcam, any_answers].
  - unfold get_webcam_frame.
    apply keeps_bind; [typeclasses eauto | apply keeps_reader; typeclasses eauto | intro run].
    destruct (negb run); [apply keeps_reader; typeclasses eauto|].
    apply keeps_bind; [typeclasses eauto | apply keeps_reader; typeclasses eauto | intro cam].
    destruct cam; [|apply keeps_ret; typeclasses eauto].
    apply keeps_try_except; [typeclasses eauto | | intro e; apply keeps_ret; typeclasses eauto].
    apply keeps_bind; [typeclasses eauto | | intros _; apply provenance_read_and_store].
    apply provenance_of_frame.
    + intro m. pose proof (drain_buffer_vars dev m) as H.
      unfold same_on, same_vars in *. now rewrite H.
    + unfold drain_buffer. repeat appends_step (any_answers dev).
      apply appends_discard_frames, any_answers.
Qed.

(** X5: whatever a session does, [last_frame] (what [stop_webcam] returns and
    what a stopped poll shows) is either the startup placeholder or the RGB
    conversion of a frame that a read recorded in the device history
    delivered with [ret] true: the session never shows a frame the device
    did not deliver, and never keeps an error image as last frame. *)
Theorem last_frame_provenance (dev : device) (acts : list action) :
  frame_from (last_frame initial_globals) (snd (session dev acts initial_machine)).
Proof.
  apply (session_keeps dev provenance (provenance_perform dev) acts initial_machine).
Qed.

(** *** No capture object is left behind *)

Lemma nonraising_answers dev : never_raises dev -> answers dev (fun ev => raised ev = false).
Proof.
  intros (Ho & Hi & Hr & Hs & Hg & Hl). unfold answers, VideoCapture_event. repeat split.
  - intros t i. destruct (Ho t i (backend dev)) as [u ->]. reflexivity.
  - intros t h. destruct (Hi t h) as [b ->]. reflexivity.
  - intros t h. destruct (Hr t h) as [v ->]. reflexivity.
  - intros t h p v. destruct (Hs t h p v) as [b ->]. reflexivity.
  - intros t h p. destruct (Hg t h p) as [x ->]. reflexivity.
  - intros t h. destruct (Hl t h) as [u ->]. reflexivity.
Qed.

Lemma nonraising_trace t : Forall (fun ev => raised ev = false) t -> existsb raised t = false.
Proof.
  induction 1 as [|ev t Hev _ IH]; [reflexivity|]. cbn. now rewrite Hev, IH.
Qed.

Lemma poll_calls_open_nothing cam t : Forall (poll_call cam) t -> opened_handles t = [].
Proof.
  induction 1 as [|ev t Hev _ IH]; [reflexivity|].
  destruct cam as [h|]; destruct ev as [i api [h'|e]| | | | |]; cbn in *;
    try contradiction; exact IH.
Qed.

Lemma no_stray_handle_polled m m' :
  polled m m' -> no_stray_handle m -> no_stray_handle m'.
Proof.
  intros [Hcam (t & Hc & Ht)] H h Hin.
  rewrite Hc, opened_handles_app, (poll_calls_open_nothing _ _ Ht), app_nil_r in Hin.
  destruct (H h Hin) as [Hr | Hh].
  - left. rewrite Hc, released_app, Hr. reflexivity.
  - right. now rewrite Hcam.
Qed.

(** After [initialize_camera], [start_webcam] only reads from the handle. *)
Lemma start_webcam_after_initialize dev m :
  polled (snd (initialize_camera dev (running m))) (snd (start_webcam dev m)).
Proof.
  unfold start_webcam. unfold bind at 1. unfold set_is_running, modify. cbv beta iota.
  fold (running m). unfold bind at 1.
  destruct (initialize_camera dev (running m)) as [[ok|e] m1]; cbn [snd]; [|reflexivity].
  match goal with
  | |- polled m1 (snd (?c m1)) => assert (K : keeps polled c); [|apply K]
  end.
  destruct (negb ok).
  - apply keeps_bind; [typeclasses eauto | apply keeps_reader; typeclasses eauto | intro].
    apply keeps_ret; typeclasses eauto.
  - apply keeps_try_except; [typeclasses eauto | apply polled_read_and_store | intro].
    apply keeps_ret; typeclasses eauto.
Qed.

Lemma stop_webcam_calls dev m :
  calls (snd (stop_webcam dev m))
  = calls m ++ match camera (vars m) with
               | Some h => [EvRelease h (on_release dev (calls m) h)]
               | None => []
               end.
Proof.
  destruct m as [[cam run lf em] t]. unfold stop_webcam. run_monad.
  destruct cam as [h|]; cbn; [destruct (on_release dev t h); cbn|];
    rewrite ?app_nil_r; reflexivity.
Qed.

Lemma no_stray_handle_initialize dev m :
  never_raises dev ->
  no_stray_handle m ->
  no_stray_handle (snd (initialize_camera dev (running m))).
Proof.
  intros Hdev H.
  destruct (camera (vars m)) as [h0|] eqn:Hcam.
  - rewrite (initialize_camera_held dev (running m) h0 Hcam). cbn [snd].
    intros h Hin. unfold record, running in *. cbn [calls vars] in *.
    rewrite opened_handles_app in Hin. cbn [opened_handles] in Hin.
    rewrite app_nil_r in Hin. destruct (H h Hin) as [Hr | Hh].
    + left. rewrite released_app, Hr. reflexivity.
    + right. cbn. congruence.
  - destruct (initialize_camera dev (running m)) as [r m1] eqn:E. cbn [snd].
    destruct (initialize_camera_acquisition dev (running m) r m1 Hcam E)
      as (t & Hc & _ & Hacq).
    assert (Hq : existsb raised t = false).
    { destruct (appends_initialize_camera dev _ (nonraising_answers dev Hdev) (running m))
        as (t' & Hc' & Ht').
      rewrite E in Hc'. cbn [snd] in Hc'. rewrite Hc in Hc'.
      apply app_inv_head in Hc'. subst t'. now apply nonraising_trace. }
    cbn in Hc.
    assert (Hold : forall h, In h (opened_handles (calls m)) -> released (calls m1) h = true).
    { intros h Hin. destruct (H h Hin) as [Hr | Hh]; [|congruence].
      rewrite Hc, released_app, Hr. reflexivity. }
    intros h Hin. rewrite Hc, opened_handles_app in Hin.
    apply in_app_or in Hin. destruct Hin as [Hin | Hin]; [left; now apply Hold|].
    inversion Hacq as [_ Had | _ Hex Hv | e Hq' _]; subst; [| |congruence].
    + destruct Had as (h1 & f & earlier & Ho & _ & _ & Hv & _ & _ & _ & _ & Hearlier).
      rewrite Ho in Hin. apply in_app_or in Hin. destruct Hin as [Hin | [<- | []]].
      * left. rewrite Hc, released_app. destruct (Hearlier h Hin) as [_ ->].
        apply orb_true_r.
      * right. now rewrite Hv.
    + left. rewrite Hc, released_app.
      destruct Hex as (_ & _ & _ & _ & Hall). destruct (Hall h Hin) as [_ ->].
      apply orb_true_r.
Qed.

Lemma no_stray_handle_perform dev a m :
  never_raises dev -> no_stray_handle m -> no_stray_handle (snd (perform dev a m)).
Proof.
  intros Hdev H. destruct a; cbn [perform].
  - apply (no_stray_handle_polled _ _ (start_webcam_after_initialize dev m)).
    now apply no_stray_handle_initialize.
  - intros h Hin. left.
    rewrite stop_webcam_calls in *.
    assert (Hin' : In h (opened_handles (calls m))).
    { rewrite opened_handles_app in Hin. apply in_app_or in Hin.
      destruct Hin as [Hin | Hin]; [exact Hin|].
      destruct (camera (vars m)); cbn in Hin; contradiction. }
    rewrite released_app. destruct (H h Hin') as [-> | ->]; [reflexivity|].
    cbn. rewrite handle_eqb_refl. apply orb_true_r.
  - apply (no_stray_handle_polled m); [apply polled_get_webcam_frame | exact H].
Qed.

(** X6: with a device that never raises, after any sequence of [start_webcam],
    [stop_webcam] and [get_webcam_frame] calls every capture object that was
    ever created has had [release] called on it, except the one that is held
    in [camera]: the session keeps at most one device open. *)
Theorem session_leaves_no_stray_handle (dev : device) (acts : list action) :
  never_raises dev ->
  no_stray_handle (snd (session dev acts initial_machine)).
Proof.
  intro Hdev.
  assert (H : forall m, no_stray_handle m -> no_stray_handle (snd (session dev acts m))).
  { induction acts as [|a rest IH]; intros m Hm; [exact Hm|].
    cbn [session].
    pose proof (no_stray_handle_perform dev a m Hdev Hm) as H1.
    destruct (perform dev a m) as [r m1]. cbn [snd] in H1.
    specialize (IH m1 H1). destruct (session dev rest m1) as [rs m2]. exact IH. }
  apply H. intros h [].
Qed.

Lemma never_raises_steady frame : never_raises (Devices.steady frame).
Proof. unfold never_raises. cbn. repeat split; intros; eexists; reflexivity. Qed.

Lemma session_leaves_no_stray_handle_witness :
  never_raises (Devices.steady (Devices.black 480 640))
  /\ no_stray_handle
       (snd (session (Devices.steady (Devices.black 480 640))
                     [Start; Poll; Stop; Start; Poll] initial_machine)).
Proof.
  split; [apply never_raises_steady|].
  exact (session_leaves_no_stray_handle (Devices.steady (Devices.black 480 640))
           [Start; Poll; Stop; Start; Poll] (never_raises_steady _)).
Defined.

(** When the test read raises, the object created for index 0 is left
    behind: it is neither released nor held. *)
Example raising_read_leaves_stray_handle :
  ~ no_stray_handle (snd (session Devices.unreadable [Start] initial_machine)).
Proof.
  intro H. destruct (H {| hid := 0; hindex := 0 |}) as [H1 | H1];
    [cbn; now left | discriminate H1 | discriminate H1].
Qed.

(** ** The buffer drain *)

Lemma discard_frames_reads dev h n :
  (forall t, exists v, on_read dev t h = Ok v) ->
  forall m,
    camera (vars m) = Some h ->
    exists t,
      discard_frames dev n m = (Ok tt, {| vars := vars m; calls := calls m ++ t |})
      /\ reads_of h t = n.
Proof.
  intro Hread. induction n as [|n IH]; intros m Hcam.
  - exists []. cbn. rewrite app_nil_r. destruct m. split; reflexivity.
  - cbn [discard_frames]. unfold bind at 1. unfold on_camera, bind, get_camera, cap_read.
    rewrite Hcam. destruct (Hread (calls m)) as [v Hv]. rewrite Hv.
    destruct (IH (record (EvRead h (Ok v)) m) Hcam) as (t & Ht & Hn).
    rewrite Ht. exists (EvRead h (Ok v) :: t). split.
    + cbn. now rewrite <- app_assoc.
    + cbn. now rewrite handle_eqb_refl, Hn.
Qed.

Lemma drain_buffer_reads dev h q m :
  (forall t, exists v, on_read dev t h = Ok v) ->
  (forall t, on_get dev t h CAP_PROP_BUFFERSIZE = Ok (Finite q)) ->
  camera (vars m) = Some h ->
  exists t,
    drain_buffer dev m = (Ok tt, {| vars := vars m; calls := calls m ++ t |})
    /\ S (reads_of h t) = Z.to_nat (Z.max 1 (truncate q)).
Proof.
  intros Hread Hget Hcam.
  unfold drain_buffer. unfold bind at 1. unfold on_camera at 1, bind, get_camera, cap_get.
  rewrite Hcam, Hget. cbn [float_gt_one].
  destruct (Qle_bool q 1) eqn:Hq; cbn [negb].
  - exists [EvGet h CAP_PROP_BUFFERSIZE (Ok (Finite q))]. split; [reflexivity|].
    cbn. apply Qle_bool_iff in Hq. unfold truncate.
    assert (Z.quot (Qnum q) (Z.pos (Qden q)) <= 1).
    { unfold Qle in Hq. cbn in Hq. apply Z.quot_le_upper_bound; lia. }
    lia.
  - unfold on_camera, bind, get_camera. cbn [vars record].
    rewrite Hcam. cbn [calls record]. rewrite Hget. cbn [py_int ret].
    set (m2 := record _ (record _ m)).
    destruct (discard_frames_reads dev h (Z.to_nat (truncate q - 1)) Hread m2 Hcam)
      as (t & Ht & Hn).
    fold (truncate q). rewrite Ht.
    exists ([EvGet h CAP_PROP_BUFFERSIZE (Ok (Finite q));
             EvGet h CAP_PROP_BUFFERSIZE (Ok (Finite q))] ++ t).
    split; [subst m2; cbn; now rewrite <- !app_assoc|].
    rewrite reads_of_app. cbn [reads_of Nat.add]. rewrite Hn.
    assert (1 <= truncate q).
    { unfold truncate. apply not_true_iff_false in Hq.
      rewrite Qle_bool_iff in Hq. unfold Qle in Hq. cbn in Hq.
      apply Z.quot_le_lower_bound; lia. }
    lia.
Qed.

(** X7: with a driver that reports a buffer of [q] frames and whose reads do not
    raise, a running poll reads [max(1, int(q))] times: it skips
    [int(q) - 1] buffered frames and what it returns is decided by the last
    read alone: the "Failed to read frame from camera" image when that read
    came back without a frame, the converted frame when it delivered a frame
    with pixels, and the image of "Error getting webcam frame: " followed by
    the text of the [cv2.error] when it delivered an empty array. *)
Theorem get_webcam_frame_skips_buffer (dev : device) (m : machine) (h : handle) (q : Q) :
  is_running (vars m) = true ->
  camera (vars m) = Some h ->
  (forall t, exists v, on_read dev t h = Ok v) ->
  (forall t, on_get dev t h CAP_PROP_BUFFERSIZE = Ok (Finite q)) ->
  let m' := snd (get_webcam_frame dev m) in
  reads_of h (new_calls m m') = Z.to_nat (Z.max 1 (truncate q))
  /\ exists older r frame,
       new_calls m m' = older ++ [EvRead h (Ok (r, frame))]
       /\ fst (get_webcam_frame dev m)
          = Ok (Some match r, frame with
                     | true, Some f =>
                         if empty f
                         then create_error_image
                                ("Error getting webcam frame: " ++ cvtColor_error dev)%string
                         else bgr2rgb f
                     | _, _ => create_error_image "Failed to read frame from camera"
                     end).
Proof.
  intros Hrun Hcam Hread Hget m'.
  destruct (drain_buffer_reads dev h q m Hread Hget Hcam) as (t & Hdrain & Hn).
  set (m1 := {| vars := vars m; calls := calls m ++ t |}) in *.
  destruct (Hread (calls m1)) as [[r frame] Hr].
  pose proof (get_webcam_frame_read dev m h m1 r frame Hrun Hcam Hdrain Hr) as Hpoll.
  assert (Hc : calls m' = calls m ++ (t ++ [EvRead h (Ok (r, frame))])).
  { subst m'. rewrite Hpoll.
    destruct r, frame as [f|]; try destruct (empty f); cbn; now rewrite <- app_assoc. }
  rewrite (new_calls_app m m' _ Hc). split.
  - rewrite reads_of_app. cbn. rewrite handle_eqb_refl. lia.
  - exists t, r, frame. split; [reflexivity|].
    rewrite Hpoll. destruct r, frame as [f|]; try destruct (empty f); reflexivity.
Qed.

Lemma get_webcam_frame_skips_buffer_witness :
  let dev := Devices.buffered (7 # 2) (Devices.black 480 640) in
  let m := snd (start_webcam dev initial_machine) in
  reads_of {| hid := 0; hindex := 0 |} (new_calls m (snd (get_webcam_frame dev m))) = 3%nat.
Proof.
  intros dev m.
  exact (proj1 (get_webcam_frame_skips_buffer dev m {| hid := 0; hindex := 0 |} (7 # 2)
                  eq_refl eq_refl
                  (fun t => ex_intro _ (true, Some (Devices.black 480 640)) eq_refl)
                  (fun t => eq_refl))).
Defined.

(** ** A held handle that reports itself closed *)

Lemma start_webcam_closed_handle dev m h :
  camera (vars m) = Some h ->
  on_isOpened dev (calls m) h = Ok false ->
  start_webcam dev m
  = (Ok (Some (create_error_image
                 (or_default (error_message (vars m)) "Camera initialization failed"))),
     record (EvIsOpened h (Ok false)) (running m)).
Proof.
  intros Hcam Hclosed.
  assert (Hinit : initialize_camera dev (running m)
                  = (Ok false, record (EvIsOpened h (Ok false)) (running m))).
  { rewrite (initialize_camera_held dev (running m) h Hcam). cbn [calls running].
    now rewrite Hclosed. }
  rewrite start_webcam_failed; rewrite Hinit; reflexivity.
Qed.

(** X8: when the held handle reports itself closed from now on, pressing start
    any number of times changes nothing: every [start_webcam] only asks
    [isOpened], returns the error image of the current [error_message] (or
    "Camera initialization failed" when there is none), keeps the closed
    handle and probes no index.  Only [stop_webcam] lets go of the handle. *)
Theorem start_webcam_keeps_closed_handle (dev : device) (m : machine) (h : handle) (n : nat) :
  camera (vars m) = Some h ->
  (forall t, on_isOpened dev (calls m ++ t) h = Ok false) ->
  let msg := or_default (error_message (vars m)) "Camera initialization failed" in
  session dev (repeat Start n) m
  = (repeat (Ok (Some (create_error_image msg))) n,
     {| vars := match n with O => vars m | S _ => with_is_running true (vars m) end;
        calls := calls m ++ repeat (EvIsOpened h (Ok false)) n |}).
Proof.
  intros Hcam Hclosed msg. subst msg. revert m Hcam Hclosed.
  induction n as [|n IH]; intros m Hcam Hclosed.
  - cbn. rewrite app_nil_r. destruct m. reflexivity.
  - cbn [repeat session perform].
    assert (H0 : on_isOpened dev (calls m) h = Ok false).
    { specialize (Hclosed []). now rewrite app_nil_r in Hclosed. }
    rewrite (start_webcam_closed_handle dev m h Hcam H0).
    set (m1 := record (EvIsOpened h (Ok false)) (running m)).
    assert (Hcam1 : camera (vars m1) = Some h) by exact Hcam.
    assert (Hclosed1 : forall t, on_isOpened dev (calls m1 ++ t) h = Ok false).
    { intro t. cbn. rewrite <- app_assoc. apply Hclosed. }
    rewrite (IH m1 Hcam1 Hclosed1).
    f_equal. f_equal.
    + destruct n; reflexivity.
    + cbn. now rewrite <- app_assoc.
Qed.

Lemma start_webcam_keeps_closed_handle_witness :
  let dev := Devices.unplugged (Devices.black 480 640) in
  let m := snd (start_webcam dev initial_machine) in
  let h := {| hid := 0; hindex := 0 |} in
  session dev (repeat Start 3) m
  = (repeat (Ok (Some (create_error_image "Camera initialization failed"))) 3,
     {| vars := vars m; calls := calls m ++ repeat (EvIsOpened h (Ok false)) 3 |}).
Proof.
  intros dev m h.
  refine (start_webcam_keeps_closed_handle dev m h 3 eq_refl _).
  intro t. cbn [on_isOpened dev Devices.unplugged].
  rewrite filter_app, length_app. reflexivity.
Defined.

(** ** Running the diagnostics *)

Lemma with_output_nil p : with_output p (session_state p) [] = p.
Proof. destruct p. unfold with_output. cbn. now rewrite app_nil_r. Qed.

Lemma with_output_session p m : with_output p m [] = with_session p m.
Proof. unfold with_output, with_session. cbn. now rewrite app_nil_r. Qed.

Lemma with_output_app p m1 l1 m2 l2 :
  with_output (with_output p m1 l1) m2 l2 = with_output p m2 (l1 ++ l2).
Proof. unfold with_output. cbn. now rewrite map_app, app_assoc. Qed.

Lemma print_run text p : print text p = (Ok tt, with_output p (session_state p) [text]).
Proof. reflexivity. Qed.

Lemma lift_run {A} (c : M A) p :
  lift c p = (fst (c (session_state p)), with_session p (snd (c (session_state p)))).
Proof. unfold lift. destruct (c (session_state p)). reflexivity. Qed.

Lemma check_camera_permissions_returns dev m :
  exists l, fst (check_camera_permissions dev m) = Ok l.
Proof.
  unfold check_camera_permissions, try_except.
  destruct (list_cameras dev (range 3) [] m) as [[l|e] m']; cbn; eauto.
Qed.

Lemma check_camera_permissions_printing_run dev p :
  check_camera_permissions_printing dev p
  = (fst (check_camera_permissions dev (session_state p)),
     with_output p (snd (check_camera_permissions dev (session_state p)))
       [listing_line (fst (list_cameras dev (range 3) [] (session_state p)))]).
Proof.
  unfold check_camera_permissions_printing, check_camera_permissions,
    io_try_except, try_except, io_bind.
  rewrite lift_run.
  destruct (list_cameras dev (range 3) [] (session_state p)) as [[l|e] m']; reflexivity.
Qed.

(** X9: [check_camera_permissions] with its prints does to the session, and
    returns, what the function without them does; the streams stay as they
    are apart from one line printed to the current [sys.stdout]: the list it
    returns after "Available cameras: " when the loop ran through, and the
    exception text after "Error checking camera permissions: " (with the
    empty list returned) when a device call raised. *)
Theorem check_camera_permissions_prints (dev : device) (p : process) :
  let run := check_camera_permissions_printing dev p in
  let loop := fst (list_cameras dev (range 3) [] (session_state p)) in
  fst run = fst (check_camera_permissions dev (session_state p))
  /\ session_state (snd run) = snd (check_camera_permissions dev (session_state p))
  /\ sys_stdout (snd run) = sys_stdout p
  /\ sys_stderr (snd run) = sys_stderr p
  /\ writes (snd run)
     = writes p ++ [(sys_stdout p,
                     (match loop with
                      | Ok l => "Available cameras: " ++ str_list l
                      | Raise e => "Error checking camera permissions: " ++ e
                      end ++ nl)%string)]
  /\ match loop with
     | Ok l => fst run = Ok l
     | Raise _ => fst run = Ok []
     end.
Proof.
  cbv zeta. rewrite check_camera_permissions_printing_run. cbn [fst snd].
  unfold check_camera_permissions, try_except, with_output, listing_line, ret.
  destruct (list_cameras dev (range 3) [] (session_state p)) as [[l|e] m'];
    cbn [fst snd session_state sys_stdout sys_stderr writes map]; repeat split.
Qed.

Lemma print_after_output text p m lines :
  print text (with_output p m lines) = (Ok tt, with_output p m (lines ++ [text])).
Proof. rewrite print_run. cbn [session_state with_output]. now rewrite with_output_app. Qed.

Lemma print_guidance_run dev p :
  exists lines, print_guidance dev p = (Ok tt, with_output p (session_state p) lines).
Proof.
  unfold print_guidance.
  destruct (String.eqb (platform_system dev) "Windows");
    [|destruct (String.eqb (platform_system dev) "Darwin")];
    unfold io_bind; rewrite print_run; rewrite !print_after_output;
    eexists; reflexivity.
Qed.

(** The test of index 0, by what the device answers: the session it leaves,
    the device calls it made and the lines it printed. *)
Lemma test_index_0_run dev p :
  exists m' t lines,
    test_index_0 dev p = (Ok tt, with_output p m' lines)
    /\ vars m' = vars (session_state p)
    /\ calls m' = calls (session_state p) ++ t
    /\ probed_indices t = [0]
    /\ (In success_line lines <->
        exists h frame, In (EvIsOpened h (Ok true)) t /\ In (EvRead h (Ok (true, frame))) t)
    /\ (forall h f, In (EvRead h (Ok (true, Some f))) t -> In (dimensions_line f) lines)
    /\ (forall h, In h (opened_handles t) ->
          (released t h = true <->
           exists r frame, In (EvRead h (Ok (r, frame))) t /\ (r = false \/ frame <> None))).
Proof.
  set (m := session_state p).
  set (h := {| hid := List.length (calls m); hindex := 0 |}).
  unfold test_index_0, io_try_except. unfold io_bind at 1. rewrite lift_run. fold m.
  unfold VideoCapture.
  destruct (on_VideoCapture dev (calls m) 0 (backend dev)) as [[]|e]; cbn [fst snd].
  2:{ rewrite <- with_output_session, print_after_output.
      do 3 eexists. split; [reflexivity|]. split; [reflexivity|].
      split; [reflexivity|]. split; [reflexivity|]. cbn. split; [|split].
      - split; [intros [H | []]; discriminate H | intros (h0 & f0 & [H | []] & _); discriminate H].
      - intros h0 f0 [H | []]. discriminate H.
      - intros h0 []. }
  fold h. set (m1 := record (EvVideoCapture 0 (backend dev) (Ok h)) m).
  unfold io_bind at 1. rewrite lift_run. cbn [session_state with_session fst snd].
  unfold cap_isOpened. cbn [fst snd].
  destruct (on_isOpened dev (calls m1) h) as [[]|e].
  3:{ rewrite <- with_output_session, print_after_output.
      do 3 eexists. split; [reflexivity|]. split; [reflexivity|].
      split; [cbn; rewrite <- !app_assoc; reflexivity|]. split; [reflexivity|].
      cbn. split; [|split].
      - split; [intros [H | []]; discriminate H|].
        intros (h0 & f0 & _ & H).
        repeat (destruct H as [H | H]; [discriminate H|]). contradiction.
      - intros h0 f0 H. repeat (destruct H as [H | H]; [discriminate H|]). contradiction.
      - intros h0 [<- | []]. split; [discriminate|].
        intros (r0 & f0 & H & _).
        repeat (destruct H as [H | H]; [discriminate H|]). contradiction. }
  - set (m2 := record (EvIsOpened h (Ok true)) m1).
    unfold io_bind at 1. rewrite lift_run. cbn [session_state with_session fst snd].
    unfold cap_read. cbn [fst snd].
    destruct (on_read dev (calls m2) h) as [[r frame]|e].
    2:{ rewrite <- with_output_session, print_after_output.
        do 3 eexists. split; [reflexivity|]. split; [reflexivity|].
        split; [cbn; rewrite <- !app_assoc; reflexivity|]. split; [reflexivity|].
        cbn. split; [|split].
        - split; [intros [H | []]; discriminate H|].
          intros (h0 & f0 & _ & [H | [H | [H | []]]]); discriminate H.
        - intros h0 f0 [H | [H | [H | []]]]; discriminate H.
        - intros h0 [<- | []]. split; [discriminate|].
          intros (r0 & f0 & [H | [H | [H | []]]] & _); discriminate H. }
    set (m3 := record (EvRead h (Ok (r, frame))) m2).
    assert (Hc3 : calls m3 = calls m ++ [EvVideoCapture 0 (backend dev) (Ok h);
                                         EvIsOpened h (Ok true); EvRead h (Ok (r, frame))]).
    { cbn. now rewrite <- !app_assoc. }
    destruct r; [destruct frame as [f|]|].
    + (* ret true with a frame *)
      unfold io_bind at 1. unfold io_bind at 1.
      rewrite <- with_output_session, print_after_output, print_after_output.
      rewrite lift_run. cbn [session_state with_output fst snd]. unfold cap_release.
      cbn [fst snd].
      destruct (on_release dev (calls m3) h) as [[]|e]; cbn [app];
        [|unfold with_session; cbn [session_state sys_stdout sys_stderr string_ios writes];
          match goal with
          | |- context [print ?s ?q] =>
              change q with (with_output p (record (EvRelease h (Raise e)) m3)
                               [success_line; dimensions_line f]);
              rewrite print_after_output
          end];
        (do 3 eexists; split; [reflexivity|]; split; [reflexivity|];
         split; [cbn [calls record]; rewrite Hc3, <- app_assoc; reflexivity|];
         split; [reflexivity|]; cbn; split; [|split];
         [ split; [intros _; exists h, (Some f); auto 6 | intros _; now left]
         | intros h0 f0 [H | [H | [H | [H | []]]]]; try discriminate H;
           injection H as _ <-; auto
         | intros h0 [<- | []]; rewrite handle_eqb_refl; split; [|reflexivity];
           intros _; exists true, (Some f); split; [auto | right; discriminate] ]).
    + (* ret true without a frame *)
      unfold io_bind at 1. unfold io_bind at 1.
      rewrite <- with_output_session, print_after_output. unfold io_raise.
      rewrite print_after_output.
      do 3 eexists. split; [reflexivity|]. split; [reflexivity|].
      split; [exact Hc3|]. split; [reflexivity|]. cbn. split; [|split].
      * split; [intros _; exists h, None; auto | intros _; now left].
      * intros h0 f0 [H | [H | [H | []]]]; discriminate H.
      * intros h0 [<- | []]. split; [discriminate|].
        intros (r0 & f0 & [H | [H | [H | []]]] & Hf); try discriminate H.
        injection H as <- <-. destruct Hf as [Hf | Hf]; [discriminate | contradiction].
    + (* ret false *)
      unfold io_bind at 1.
      rewrite <- with_output_session, print_after_output.
      rewrite lift_run. cbn [session_state with_output fst snd]. unfold cap_release.
      cbn [fst snd].
      destruct (on_release dev (calls m3) h) as [[]|e]; cbn [app];
        [|unfold with_session; cbn [session_state sys_stdout sys_stderr string_ios writes];
          match goal with
          | |- context [print ?s ?q] =>
              change q with (with_output p (record (EvRelease h (Raise e)) m3)
                               ["‚úó Camera opens but cannot read frames"%string]);
              rewrite print_after_output
          end];
        (do 3 eexists; split; [reflexivity|]; split; [reflexivity|];
         split; [cbn [calls record]; rewrite Hc3, <- app_assoc; reflexivity|];
         split; [reflexivity|]; cbn; split; [|split];
         [ split; [intros H; repeat (destruct H as [H | H]; [discriminate H|]); contradiction
                  | intros (h0 & f0 & _ & H);
                    repeat (destruct H as [H | H]; [discriminate H|]); contradiction]
         | intros h0 f0 H; repeat (destruct H as [H | H]; [discriminate H|]); contradiction
         | intros h0 [<- | []]; rewrite handle_eqb_refl; split; [|reflexivity];
           intros _; exists false, frame; split; [auto | now left] ]).
  - (* the object reports that it is not open *)
    rewrite <- with_output_session, print_after_output.
    do 3 eexists. split; [reflexivity|]. split; [reflexivity|].
    split; [cbn; rewrite <- !app_assoc; reflexivity|]. split; [reflexivity|].
    cbn. split; [|split].
    + split; [intros [H | []]; discriminate H|].
      intros (h0 & f0 & [H | [H | []]] & _); discriminate H.
    + intros h0 f0 [H | [H | []]]; discriminate H.
    + intros h0 [<- | []]. split; [discriminate|].
      intros (r0 & f0 & [H | [H | []]] & _); discriminate H.
Qed.

Lemma io_bind_ok {A B} (c : IO A) (k : A -> IO B) p a p' :
  c p = (Ok a, p') -> io_bind c k p = k a p'.
Proof. intro H. unfold io_bind. now rewrite H. Qed.

Lemma io_bind_raise {A B} (c : IO A) (k : A -> IO B) p e p' :
  c p = (Raise e, p') -> io_bind c k p = (Raise e, p').
Proof. intro H. unfold io_bind. now rewrite H. Qed.

(** A run of [diagnose_camera_issues] when [sys.version] has a first word. *)
Lemma diagnose_camera_issues_run dev py p w ws :
  split_whitespace (sys_version py) = w :: ws ->
  let m := session_state p in
  let m1 := snd (check_camera_permissions dev m) in
  exists l guidance m' t test_lines,
    fst (check_camera_permissions dev m) = Ok l
    /\ diagnose_camera_issues dev py p
       = (Ok tt,
          with_output p m'
            (report_head dev py w
             ++ [listing_line (fst (list_cameras dev (range 3) [] m));
                 ("Detected cameras: " ++ str_list l)%string]
             ++ guidance
             ++ [(nl ++ "Testing camera index 0:")%string]
             ++ test_lines
             ++ ["=== END DIAGNOSTICS ==="%string]))
    /\ vars m' = vars m
    /\ calls m' = calls m1 ++ t
    /\ probed_indices t = [0]
    /\ (In success_line test_lines <->
        exists h frame, In (EvIsOpened h (Ok true)) t /\ In (EvRead h (Ok (true, frame))) t)
    /\ (forall h f, In (EvRead h (Ok (true, Some f))) t -> In (dimensions_line f) test_lines)
    /\ (forall h, In h (opened_handles t) ->
          (released t h = true <->
           exists r frame, In (EvRead h (Ok (r, frame))) t /\ (r = false \/ frame <> None))).
Proof.
  intros Hw m m1.
  destruct (check_camera_permissions_returns dev m) as [l Hl].
  unfold diagnose_camera_issues.
  rewrite (io_bind_ok _ _ _ _ _ (print_run _ p)).
  rewrite (io_bind_ok _ _ _ _ _ (print_after_output _ _ _ _)).
  unfold python_version. rewrite Hw.
  unfold io_bind at 1. unfold io_ret.
  rewrite (io_bind_ok _ _ _ _ _ (print_after_output _ _ _ _)).
  rewrite (io_bind_ok _ _ _ _ _ (print_after_output _ _ _ _)).
  unfold io_bind at 1. rewrite check_camera_permissions_printing_run.
  cbn [session_state with_output]. fold m. rewrite Hl. fold m1.
  rewrite with_output_app.
  rewrite (io_bind_ok _ _ _ _ _ (print_after_output _ _ _ _)).
  match goal with
  | |- context [io_bind (print_guidance dev) ?k ?q] =>
      destruct (print_guidance_run dev q) as [guidance Hg];
      rewrite (io_bind_ok _ _ _ _ _ Hg)
  end.
  cbn [session_state with_output]. rewrite with_output_app.
  rewrite (io_bind_ok _ _ _ _ _ (print_after_output _ _ _ _)).
  match goal with
  | |- context [io_bind (test_index_0 dev) ?k ?q] =>
      destruct (test_index_0_run dev q) as (m' & t & test_lines & Ht & Hv & Hc & Hrest);
      rewrite (io_bind_ok _ _ _ _ _ Ht)
  end.
  cbn [session_state with_output] in Hv, Hc.
  rewrite with_output_app, print_after_output.
  exists l, guidance, m', t, test_lines.
  split; [reflexivity|]. split.
  { f_equal. f_equal. unfold report_head. cbn [app]. rewrite <- !app_assoc. reflexivity. }
  split.
  { rewrite Hv. unfold m1. apply check_camera_permissions_vars. }
  split; [exact Hc|]. exact Hrest.
Qed.

Lemma diagnose_camera_issues_no_version dev py p :
  split_whitespace (sys_version py) = [] ->
  diagnose_camera_issues dev py p
  = (Raise "list index out of range",
     with_output p (session_state p)
       ["=== CAMERA DIAGNOSTICS ===";
        "System: " ++ platform_system dev ++ " " ++ platform_release py]%string).
Proof.
  intro Hw. unfold diagnose_camera_issues.
  rewrite (io_bind_ok _ _ _ _ _ (print_run _ p)).
  rewrite (io_bind_ok _ _ _ _ _ (print_after_output _ _ _ _)).
  unfold python_version. rewrite Hw. reflexivity.
Qed.

(** X10: [diagnose_camera_issues] touches neither the globals of the session nor
    what [sys.stdout] and [sys.stderr] refer to, and everything it prints
    goes to the current [sys.stdout].  When [sys.version] has a first word
    it returns, whatever the device does, and what it printed starts with
    the "=== CAMERA DIAGNOSTICS ===" line, ends with the
    "=== END DIAGNOSTICS ===" line and has in between the line
    "Detected cameras: " followed by the list [check_camera_permissions]
    returns.  When [sys.version] has no word it raises the [IndexError]
    after two printed lines, before any device call. *)
Theorem diagnose_camera_issues_reports (dev : device) (py : host) (p : process) :
  let run := diagnose_camera_issues dev py p in
  let stamp := fun line => (sys_stdout p, (line ++ nl)%string) in
  vars (session_state (snd run)) = vars (session_state p)
  /\ sys_stdout (snd run) = sys_stdout p
  /\ sys_stderr (snd run) = sys_stderr p
  /\ match split_whitespace (sys_version py) with
     | _ :: _ =>
         fst run = Ok tt
         /\ exists l before after,
              fst (check_camera_permissions dev (session_state p)) = Ok l
              /\ writes (snd run)
                 = writes p
                   ++ map stamp ("=== CAMERA DIAGNOSTICS ==="%string
                                 :: before
                                 ++ [("Detected cameras: " ++ str_list l)%string]
                                 ++ after
                                 ++ ["=== END DIAGNOSTICS ==="%string])
     | [] =>
         fst run = Raise "list index out of range"
         /\ session_state (snd run) = session_state p
         /\ writes (snd run)
            = writes p
              ++ map stamp ["=== CAMERA DIAGNOSTICS ===";
                            "System: " ++ platform_system dev ++ " "
                                       ++ platform_release py]%string
     end.
Proof.
  cbv zeta. destruct (split_whitespace (sys_version py)) as [|w ws] eqn:Hw.
  - rewrite (diagnose_camera_issues_no_version dev py p Hw). cbn [fst snd].
    repeat split.
  - destruct (diagnose_camera_issues_run dev py p w ws Hw)
      as (l & guidance & m' & t & test_lines & Hl & Hrun & Hv & _).
    rewrite Hrun. cbn [fst snd session_state sys_stdout sys_stderr with_output writes].
    split; [exact Hv|]. split; [reflexivity|]. split; [reflexivity|].
    split; [reflexivity|].
    exists l.
    exists ([("System: " ++ platform_system dev ++ " " ++ platform_release py)%string;
             ("Python version: " ++ w)%string;
             ("OpenCV version: " ++ cv2_version py)%string;
             listing_line (fst (list_cameras dev (range 3) [] (session_state p)))]).
    exists (guidance ++ [(nl ++ "Testing camera index 0:")%string] ++ test_lines).
    split; [exact Hl|]. f_equal. f_equal. unfold report_head. cbn [app].
    rewrite <- !app_assoc. reflexivity.
Qed.

(** X11: the test of camera index 0 in the diagnostics never raises and leaves the
    globals alone; it creates one capture object, for index 0.  It prints
    the success line exactly when the object reported itself open and its
    read returned [ret] true, and then, when the frame is there, the line
    with the frame's width and height; it calls [release] on the object
    exactly when the read returned and either [ret] was false or a frame
    came with it: an object that did not open, a read that raised, and a
    read with [ret] true and no frame leave the object unreleased. *)
Theorem diagnostics_test_of_index_0 (dev : device) (p : process) :
  let run := test_index_0 dev p in
  let t := new_calls (session_state p) (session_state (snd run)) in
  fst run = Ok tt
  /\ vars (session_state (snd run)) = vars (session_state p)
  /\ calls (session_state (snd run)) = calls (session_state p) ++ t
  /\ probed_indices t = [0]
  /\ exists lines,
       writes (snd run) = writes p ++ map (fun l => (sys_stdout p, (l ++ nl)%string)) lines
       /\ (In success_line lines <->
           exists h frame, In (EvIsOpened h (Ok true)) t /\ In (EvRead h (Ok (true, frame))) t)
       /\ (forall h f, In (EvRead h (Ok (true, Some f))) t ->
                       In ("  Frame dimensions: " ++ str_int (cols f) ++ "x"
                                                  ++ str_int (rows f))%string lines)
       /\ (forall h, In h (opened_handles t) ->
             (released t h = true <->
              exists r frame,
                In (EvRead h (Ok (r, frame))) t /\ (r = false \/ frame <> None))).
Proof.
  cbv zeta.
  destruct (test_index_0_run dev p) as (m' & t & lines & Hrun & Hv & Hc & Hp & H1 & H2 & H3).
  rewrite Hrun. cbn [fst snd session_state with_output writes].
  rewrite (new_calls_app _ _ t Hc).
  split; [reflexivity|]. split; [exact Hv|]. split; [exact Hc|]. split; [exact Hp|].
  exists lines. split; [reflexivity|]. split; [exact H1|]. split; [exact H2 | exact H3].
Qed.

(** X12: the object creations of the diagnostics: those of
    [check_camera_permissions], then one more for index 0.  With a device
    that never raises, the indices are 0, 1, 2, 0: index 0 is opened a second
    time. *)
Theorem diagnostics_probe_index_0_again (dev : device) (py : host) (p : process) w ws :
  split_whitespace (sys_version py) = w :: ws ->
  let m := session_state p in
  let m' := session_state (snd (diagnose_camera_issues dev py p)) in
  probed_indices (new_calls m m')
  = probed_indices (new_calls m (snd (check_camera_permissions dev m))) ++ [0]
  /\ (never_raises dev -> probed_indices (new_calls m m') = [0; 1; 2; 0]).
Proof.
  intros Hw m m'.
  destruct (diagnose_camera_issues_run dev py p w ws Hw)
    as (l & guidance & m2 & t & test_lines & Hl & Hrun & Hv & Hc & Hp & _).
  fold m in Hl, Hrun, Hv, Hc.
  assert (Hm' : m' = m2) by (unfold m'; now rewrite Hrun).
  rewrite Hm'. clear Hm' m'.
  destruct (appends_check_camera_permissions dev _ (any_answers dev) m) as (t1 & Hc1 & _).
  assert (Hc2 : calls m2 = calls m ++ (t1 ++ t)) by (rewrite Hc, Hc1; now rewrite app_assoc).
  rewrite (new_calls_app _ _ _ Hc2), (new_calls_app _ _ _ Hc1).
  rewrite probed_indices_app, Hp. split; [reflexivity|].
  intro Hdev.
  unfold check_camera_permissions, try_except in Hc1.
  destruct (list_cameras dev (range 3) [] m) as [r m1] eqn:E.
  destruct (list_cameras_outcome dev (range 3) [] m r m1 E) as (t' & Hc' & Hout).
  destruct (appends_list_cameras dev _ (nonraising_answers dev Hdev) (range 3) [] m)
    as (t'' & Hc'' & Hq).
  rewrite E in Hc''. cbn [snd] in Hc''. rewrite Hc' in Hc''.
  apply app_inv_head in Hc''. subst t''. apply nonraising_trace in Hq.
  destruct r as [l'|e]; cbn [listing_outcome] in Hout.
  - destruct Hout as (_ & Hp' & _). cbn [snd] in Hc1. rewrite Hc' in Hc1.
    apply app_inv_head in Hc1. subst t1. now rewrite Hp'.
  - congruence.
Qed.

Lemma diagnostics_probe_index_0_again_witness :
  let py := {| platform_release := "6.1"; sys_version := "3.11.4 (main)";
               cv2_version := "4.8.0" |} in
  let m' := session_state
              (snd (diagnose_camera_issues (Devices.steady (Devices.black 480 640)) py
                                           initial_process)) in
  probed_indices (new_calls initial_machine m') = [0; 1; 2; 0].
Proof.
  intros py m'.
  exact (proj2 (diagnostics_probe_index_0_again
                  (Devices.steady (Devices.black 480 640)) py initial_process
                  "3.11.4" ["(main)"%string] eq_refl)
               (never_raises_steady _)).
Defined.

(** ** get_diagnostic_report *)

Lemma append_nil_r (s : string) : (s ++ "")%string = s.
Proof. induction s as [|c s IH]; cbn; [reflexivity | now rewrite IH]. Qed.

Lemma append_assoc (a b c : string) : ((a ++ b) ++ c)%string = (a ++ b ++ c)%string.
Proof. induction a as [|x a IH]; cbn; [reflexivity | now rewrite IH]. Qed.

Lemma concat_cons (x : string) (l : list string) :
  String.concat "" (x :: l) = (x ++ String.concat "" l)%string.
Proof. destruct l; cbn; [now rewrite append_nil_r | reflexivity]. Qed.

Lemma concat_app (l1 l2 : list string) :
  String.concat "" (l1 ++ l2) = (String.concat "" l1 ++ String.concat "" l2)%string.
Proof.
  induction l1 as [|x l1 IH]; [reflexivity|].
  change ((x :: l1) ++ l2) with (x :: (l1 ++ l2)).
  now rewrite !concat_cons, IH, append_assoc.
Qed.

Lemma framed_text (first last : string) (middle : list string) :
  String.concat "" (map (fun l => (l ++ nl)%string) (first :: middle ++ [last]))
  = (first ++ nl ++ String.concat "" (map (fun l => (l ++ nl)%string) middle)
           ++ last ++ nl)%string.
Proof.
  cbn [map]. rewrite concat_cons, map_app, concat_app. cbn [map].
  rewrite append_assoc. reflexivity.
Qed.

Lemma contents_app s w1 w2 :
  contents s (w1 ++ w2) = (contents s w1 ++ contents s w2)%string.
Proof. unfold contents. now rewrite filter_app, map_app, concat_app. Qed.

Lemma stream_eqb_eq a b : stream_eqb a b = true <-> a = b.
Proof.
  destruct a as [|i], b as [|j]; cbn; split; try discriminate; try reflexivity.
  - intro H. apply Nat.eqb_eq in H. now subst.
  - intros [= ->]. apply Nat.eqb_refl.
Qed.

Lemma contents_stamped s f lines :
  contents s (map (fun l => (f, (l ++ nl)%string)) lines)
  = if stream_eqb f s then String.concat "" (map (fun l => (l ++ nl)%string) lines)
    else EmptyString.
Proof.
  unfold contents. induction lines as [|l lines IH]; cbn [map filter fst].
  - now destruct (stream_eqb f s).
  - destruct (stream_eqb f s) eqn:E; [|exact IH].
    cbn [map snd]. now rewrite !concat_cons, IH.
Qed.

Lemma contents_fresh p : streams_wf p -> contents (StringIO (string_ios p)) (writes p) = EmptyString.
Proof.
  intro Hwf. unfold contents.
  assert (H : filter (fun x => stream_eqb (fst x) (StringIO (string_ios p))) (writes p) = []).
  { unfold streams_wf in Hwf. induction (writes p) as [|[s text] w IH]; [reflexivity|].
    cbn [filter fst]. destruct (stream_eqb s (StringIO (string_ios p))) eqn:E.
    - apply stream_eqb_eq in E. subst s.
      specialize (Hwf (string_ios p) text (or_introl eq_refl)). lia.
    - apply IH. intros i t Hin. apply (Hwf i t). now right. }
  now rewrite H.
Qed.

(** What [get_diagnostic_report] does around the diagnostics. *)
Lemma get_diagnostic_report_run dev py p :
  get_diagnostic_report dev py p
  = let '(r, q) := diagnose_camera_issues dev py (capturing p) in
    let q' := {| session_state := session_state q; sys_stdout := sys_stdout p;
                 sys_stderr := sys_stderr p; string_ios := string_ios q;
                 writes := writes q |} in
    match r with
    | Ok _ => (Ok (contents (StringIO (string_ios p)) (writes q)), q')
    | Raise e => (Raise e, q')
    end.
Proof.
  unfold get_diagnostic_report, redirect_stdout, io_bind, io_try_finally, new_StringIO,
    get_sys_stdout, get_sys_stderr, set_sys_stdout, set_sys_stderr, getvalue.
  cbn [session_state sys_stdout sys_stderr string_ios writes].
  fold (capturing p).
  destruct (diagnose_camera_issues dev py (capturing p)) as [[[]|e] q]; reflexivity.
Qed.

(** X13: [get_diagnostic_report] puts [sys.stdout] and [sys.stderr] back to what
    they were, also when the diagnostics raise, leaves the globals of the
    session alone and writes to no stream but its own new buffer: nothing
    reaches the terminal.  When [sys.version] has a first word it returns
    the captured text, which starts with the "=== CAMERA DIAGNOSTICS ==="
    line and ends with the "=== END DIAGNOSTICS ===" line; otherwise it
    raises the [IndexError] of the diagnostics. *)
Theorem get_diagnostic_report_captures (dev : device) (py : host) (p : process) :
  streams_wf p ->
  let run := get_diagnostic_report dev py p in
  sys_stdout (snd run) = sys_stdout p
  /\ sys_stderr (snd run) = sys_stderr p
  /\ vars (session_state (snd run)) = vars (session_state p)
  /\ (forall s, s <> StringIO (string_ios p) ->
                contents s (writes (snd run)) = contents s (writes p))
  /\ match split_whitespace (sys_version py) with
     | _ :: _ =>
         exists body,
           fst run = Ok ("=== CAMERA DIAGNOSTICS ===" ++ nl ++ body
                         ++ "=== END DIAGNOSTICS ===" ++ nl)%string
     | [] => fst run = Raise "list index out of range"
     end.
Proof.
  intros Hwf run. subst run. rewrite get_diagnostic_report_run.
  destruct (split_whitespace (sys_version py)) as [|w ws] eqn:Hw.
  - rewrite (diagnose_camera_issues_no_version dev py (capturing p) Hw).
    cbn [fst snd session_state sys_stdout sys_stderr writes with_output capturing].
    repeat split.
    intros s Hs. rewrite contents_app, contents_stamped.
    destruct (stream_eqb (StringIO (string_ios p)) s) eqn:E.
    + apply stream_eqb_eq in E. congruence.
    + apply append_nil_r.
  - destruct (diagnose_camera_issues_run dev py (capturing p) w ws Hw)
      as (l & guidance & m' & t & test_lines & _ & Hrun & Hv & _).
    rewrite Hrun.
    cbn [fst snd session_state sys_stdout sys_stderr writes with_output capturing] in *.
    split; [reflexivity|]. split; [reflexivity|]. split; [exact Hv|]. split.
    + intros s Hs. rewrite contents_app, contents_stamped.
      destruct (stream_eqb (StringIO (string_ios p)) s) eqn:E.
      * apply stream_eqb_eq in E. congruence.
      * apply append_nil_r.
    + rewrite contents_app, contents_stamped, (contents_fresh p Hwf).
      assert (E : stream_eqb (StringIO (string_ios p)) (StringIO (string_ios p)) = true)
        by (now apply stream_eqb_eq).
      rewrite E.
      match goal with
      | |- context [map _ ?lines] =>
          assert (Hlines : lines
                  = "=== CAMERA DIAGNOSTICS ==="%string
                    :: ([("System: " ++ platform_system dev ++ " "
                                     ++ platform_release py)%string;
                         ("Python version: " ++ w)%string;
                         ("OpenCV version: " ++ cv2_version py)%string;
                         listing_line (fst (list_cameras dev (range 3) [] (session_state p)));
                         ("Detected cameras: " ++ str_list l)%string]
                        ++ guidance ++ [(nl ++ "Testing camera index 0:")%string]
                        ++ test_lines)
                    ++ ["=== END DIAGNOSTICS ==="%string])
            by (unfold report_head; cbn [app]; now rewrite <- !app_assoc);
          rewrite Hlines
      end.
      rewrite framed_text. eexists. cbn [append]. f_equal.
Qed.

Lemma streams_wf_initial : streams_wf initial_process.
Proof. intros i text []. Qed.

Lemma get_diagnostic_report_captures_witness :
  let run := get_diagnostic_report Devices.none sample_host initial_process in
  sys_stdout (snd run) = Terminal
  /\ sys_stderr (snd run) = Terminal
  /\ vars (session_state (snd run)) = initial_globals
  /\ (forall s, s <> StringIO 0 -> contents s (writes (snd run)) = EmptyString)
  /\ exists body,
       fst run = Ok ("=== CAMERA DIAGNOSTICS ===" ++ nl ++ body
                     ++ "=== END DIAGNOSTICS ===" ++ nl)%string.
Proof.
  exact (get_diagnostic_report_captures Devices.none sample_host initial_process
           streams_wf_initial).
Defined.

(** ** The page *)

Lemma diagnose_camera_issues_vars dev py p :
  vars (session_state (snd (diagnose_camera_issues dev py p))) = vars (session_state p).
Proof.
  destruct (split_whitespace (sys_version py)) as [|w ws] eqn:Hw.
  - now rewrite (diagnose_camera_issues_no_version dev py p Hw).
  - destruct (diagnose_camera_issues_run dev py p w ws Hw)
      as (l & guidance & m' & t & test_lines & _ & Hrun & Hv & _).
    now rewrite Hrun.
Qed.

Lemma get_diagnostic_report_vars dev py p :
  vars (session_state (snd (get_diagnostic_report dev py p))) = vars (session_state p).
Proof.
  rewrite get_diagnostic_report_run.
  pose proof (diagnose_camera_issues_vars dev py (capturing p)) as H.
  destruct (diagnose_camera_issues dev py (capturing p)) as [[[]|e] q]; exact H.
Qed.

Lemma dispatch_diagnostics dev py s :
  vars (session_state (fst (dispatch dev py DiagnosticsClick s)))
  = vars (session_state (fst s))
  /\ webcam_feed (snd (dispatch dev py DiagnosticsClick s)) = webcam_feed (snd s).
Proof.
  unfold dispatch, to_diag_output.
  pose proof (get_diagnostic_report_vars dev py (fst s)) as H.
  destruct (get_diagnostic_report dev py (fst s)) as [[text|e] p']; cbn [fst snd] in *;
    split; auto.
Qed.

(** The page while the session is stopped. *)
Lemma dispatch_stopped dev py ev s :
  ev <> StartClick ->
  is_running (vars (session_state (fst s))) = false ->
  webcam_feed (snd s) = last_frame (vars (session_state (fst s))) ->
  let s' := dispatch dev py ev s in
  is_running (vars (session_state (fst s'))) = false
  /\ last_frame (vars (session_state (fst s'))) = last_frame (vars (session_state (fst s)))
  /\ webcam_feed (snd s') = webcam_feed (snd s).
Proof.
  intros Hev Hrun Hfeed s'. subst s'. destruct ev; [| contradiction | |].
  - unfold dispatch, to_webcam_feed. rewrite lift_run.
    rewrite (get_webcam_frame_stopped dev (session_state (fst s)) Hrun).
    cbn [fst snd session_state with_session webcam_feed]. auto.
  - unfold dispatch, to_webcam_feed. rewrite lift_run.
    pose proof (stop_webcam_result dev (session_state (fst s))) as Hr.
    pose proof (stop_webcam_vars dev (session_state (fst s))) as Hv.
    destruct (stop_webcam dev (session_state (fst s))) as [r m']. cbn [fst snd] in *.
    subst r. cbn [fst snd session_state with_session webcam_feed]. rewrite Hv. cbn. auto.
  - destruct (dispatch_diagnostics dev py s) as [Hv Hf]. rewrite Hv. auto.
Qed.

(** X14: once the stop button has been pressed, the feed is frozen: whatever
    periodic polls, further stop clicks and diagnostics runs follow, and
    whatever the device does meanwhile, the feed keeps showing the image the
    stop click put there, which is [last_frame], until the start button is
    pressed. *)
Theorem feed_frozen_after_stop (dev : device) (py : host) (s : process * page)
        (evs : list ui_event) :
  Forall (fun ev => ev <> StartClick) evs ->
  let stopped := dispatch dev py StopClick s in
  webcam_feed (snd stopped) = last_frame (vars (session_state (fst s)))
  /\ webcam_feed (snd (interact dev py evs stopped)) = webcam_feed (snd stopped)
  /\ is_running (vars (session_state (fst (interact dev py evs stopped)))) = false
  /\ camera (vars (session_state (fst stopped))) = None.
Proof.
  intros Hevs stopped.
  assert (H0 : is_running (vars (session_state (fst stopped))) = false
               /\ webcam_feed (snd stopped) = last_frame (vars (session_state (fst stopped)))
               /\ last_frame (vars (session_state (fst stopped)))
                  = last_frame (vars (session_state (fst s)))
               /\ camera (vars (session_state (fst stopped))) = None).
  { subst stopped. unfold dispatch, to_webcam_feed. rewrite lift_run.
    pose proof (stop_webcam_result dev (session_state (fst s))) as Hr.
    pose proof (stop_webcam_vars dev (session_state (fst s))) as Hv.
    destruct (stop_webcam dev (session_state (fst s))) as [r m']. cbn [fst snd] in *.
    subst r. cbn [fst snd session_state with_session webcam_feed]. rewrite Hv. cbn. auto. }
  destruct H0 as (Hrun & Hfeed & Hlf & Hcam).
  split; [congruence|]. split; [|split; [|exact Hcam]].
  - clear Hlf Hcam. revert Hrun Hfeed. generalize stopped. clear stopped.
    induction Hevs as [|ev evs Hev _ IH]; intros s0 Hrun Hfeed; [reflexivity|].
    cbn [interact fold_left].
    destruct (dispatch_stopped dev py ev s0 Hev Hrun Hfeed) as (Hrun' & Hlf' & Hfeed').
    fold (interact dev py evs (dispatch dev py ev s0)).
    rewrite IH; [exact Hfeed' | exact Hrun' | congruence].
  - clear Hlf Hcam. revert Hrun Hfeed. generalize stopped. clear stopped.
    induction Hevs as [|ev evs Hev _ IH]; intros s0 Hrun Hfeed; [exact Hrun|].
    cbn [interact fold_left].
    destruct (dispatch_stopped dev py ev s0 Hev Hrun Hfeed) as (Hrun' & Hlf' & Hfeed').
    fold (interact dev py evs (dispatch dev py ev s0)).
    apply IH; [exact Hrun' | congruence].
Qed.

Lemma feed_frozen_after_stop_witness :
  let dev := Devices.steady (Devices.black 480 640) in
  let s := interact dev sample_host [StartClick; Tick] (initial_process, initial_page) in
  let stopped := dispatch dev sample_host StopClick s in
  webcam_feed (snd (interact dev sample_host [Tick; DiagnosticsClick; Tick; StopClick] stopped))
  = webcam_feed (snd stopped).
Proof.
  intros dev s stopped.
  refine (proj1 (proj2 (feed_frozen_after_stop dev sample_host s
                          [Tick; DiagnosticsClick; Tick; StopClick] _))).
  repeat constructor; discriminate.
Defined.

Lemma dispatch_feed_image dev py ev s :
  holds_frame (fun _ => True) (session_state (fst s)) ->
  (exists img, webcam_feed (snd s) = Some img) ->
  holds_frame (fun _ => True) (session_state (fst (dispatch dev py ev s)))
  /\ exists img, webcam_feed (snd (dispatch dev py ev s)) = Some img.
Proof.
  intros Hm Hfeed.
  assert (Hfn : forall a,
             holds_frame (fun _ => True)
               (session_state (fst (to_webcam_feed (perform dev a) s)))
             /\ exists img, webcam_feed (snd (to_webcam_feed (perform dev a) s)) = Some img).
  { intro a. unfold to_webcam_feed. rewrite lift_run.
    destruct (perform dev a (session_state (fst s))) as [r m'] eqn:E.
    destruct (perform_image dev (fun _ => True) (fun _ => I) (fun _ _ _ _ _ => I)
                a (session_state (fst s)) r m' Hm E) as [Hm' Hr].
    cbn [fst snd session_state with_session].
    destruct r as [o|e]; cbn [fst snd session_state with_session webcam_feed].
    - destruct Hr as [(img & [= ->] & _) | (_ & h & e & Hr & _)]; [|discriminate Hr].
      split; [exact Hm' | now exists img].
    - split; [exact Hm' | exact Hfeed]. }
  destruct ev.
  - exact (Hfn Poll).
  - exact (Hfn Start).
  - exact (Hfn Stop).
  - destruct (dispatch_diagnostics dev py s) as [Hv Hf]. split.
    + destruct Hm as (f & Hlf & _). exists f. rewrite Hv. auto.
    + now rewrite Hf.
Qed.

(** X15: whatever buttons are pressed and however often the page polls, and
    whatever the device does, the feed component always holds an image,
    never [None]; and a diagnostics click changes neither the feed nor the
    globals of the session. *)
Theorem feed_never_blank (dev : device) (py : host) (evs : list ui_event)
        (s : process * page) :
  (exists img, webcam_feed (snd (interact dev py evs (initial_process, initial_page)))
               = Some img)
  /\ vars (session_state (fst (dispatch dev py DiagnosticsClick s)))
     = vars (session_state (fst s))
  /\ webcam_feed (snd (dispatch dev py DiagnosticsClick s)) = webcam_feed (snd s).
Proof.
  split; [|apply dispatch_diagnostics].
  assert (H : forall s0,
             holds_frame (fun _ => True) (session_state (fst s0)) ->
             (exists img, webcam_feed (snd s0) = Some img) ->
             exists img, webcam_feed (snd (interact dev py evs s0)) = Some img).
  { induction evs as [|ev rest IH]; intros s0 Hm Hf; [exact Hf|].
    cbn [interact fold_left]. fold (interact dev py rest (dispatch dev py ev s0)).
    destruct (dispatch_feed_image dev py ev s0 Hm Hf) as [Hm' Hf']. now apply IH. }
  apply H; cbn; eexists; [split; [reflexivity | exact I] | reflexivity].
Qed.

(** ** The lines of an error image *)

Lemma split_not_nil sep s : split sep s <> [].
Proof.
  destruct s as [|c s]; cbn; [discriminate|].
  destruct (Ascii.eqb c sep); [discriminate|]. destruct (split sep s); discriminate.
Qed.

(** ["\n".join(s.split("\n")) == s] *)
Lemma join_split s : join nl (split newline s) = s.
Proof.
  induction s as [|c s IH]; [reflexivity|].
  cbn [split]. destruct (Ascii.eqb_spec c newline) as [-> | Hc].
  - pose proof (split_not_nil newline s) as Hne.
    destruct (split newline s) as [|w ws]; [contradiction|].
    change (join nl (EmptyString :: w :: ws)) with (nl ++ join nl (w :: ws))%string.
    now rewrite IH.
  - pose proof (split_not_nil newline s) as Hne.
    destruct (split newline s) as [|w ws]; [contradiction|].
    destruct ws as [|w' ws].
    + cbn [join] in *. now rewrite IH.
    + change (join nl (String c w :: w' :: ws))
        with (String c (join nl (w :: w' :: ws))).
      now rewrite IH.
Qed.

Lemma combine_seq_firstn {A} (l : list A) :
  forall k n, map snd (combine (seq k n) l) = firstn n l.
Proof.
  induction l as [|x l IH]; intros k n; destruct n; cbn; try reflexivity.
  now rewrite IH.
Qed.

(** X16: when the message has at most seven lines, [create_error_image]
    passes every line of it to [cv2.putText]: joining the texts of its
    drawing calls, in call order, with newlines gives the message back. *)
Theorem create_error_image_keeps_message (s : string) :
  (List.length (split newline s) <= 7)%nat ->
  join nl (map fst (drawn (pixels (create_error_image s)))) = s.
Proof.
  intro Hs. rewrite create_error_image_rendered. unfold rendered_message.
  rewrite drawn_fold. cbn [np_zeros pixels drawn app]. rewrite map_map. cbn [fst].
  change (fun x : nat * string => snd x) with (@snd nat string).
  rewrite combine_seq_firstn, firstn_all2 by exact Hs. apply join_split.
Qed.

Lemma create_error_image_keeps_message_witness :
  join nl (map fst (drawn (pixels (create_error_image no_camera_message))))
  = no_camera_message.
Proof.
  refine (create_error_image_keeps_message no_camera_message _). cbn. lia.
Defined.

(** ** The life of a capture object *)

#[export] Instance stays_orderly_preorder : PreOrder stays_orderly.
Proof. split; unfold stays_orderly; [intros m H; exact H | intros a b c; tauto]. Qed.

Lemma well_used_opened t :
  well_used t -> forall h, In h (opened_handles t) -> (hid h < List.length t)%nat.
Proof.
  induction 1 as [|t ev Hwu IH Hev]; intros h Hin; [contradiction|].
  rewrite opened_handles_app in Hin. rewrite length_app. cbn [List.length].
  apply in_app_or in Hin. destruct Hin as [Hin | Hin].
  - specialize (IH h Hin). lia.
  - destruct ev as [i api [h'|e]| | | | |]; cbn in Hin; try contradiction.
    destruct Hin as [<- | []]. cbn in Hev. lia.
Qed.

Lemma released_snoc t ev h :
  released (t ++ [ev]) h
  = released t h || match ev with EvRelease h' _ => handle_eqb h h' | _ => false end.
Proof. rewrite released_app. unfold released at 2. cbn. now rewrite orb_false_r. Qed.

Lemma well_used_fresh t :
  well_used t -> forall h, (List.length t <= hid h)%nat -> released t h = false.
Proof.
  induction 1 as [|t ev Hwu IH Hev]; intros h Hh; [reflexivity|].
  rewrite length_app in Hh. cbn in Hh. rewrite released_snoc, IH by lia.
  destruct ev as [| | | | |h' r]; try reflexivity.
  cbn in Hev. destruct Hev as [Hin _].
  pose proof (well_used_opened t Hwu h' Hin). cbn.
  apply handle_eqb_later. lia.
Qed.

Lemma live_snoc t ev h :
  live t h ->
  match ev with EvRelease h' _ => handle_eqb h h' = false | _ => True end ->
  live (t ++ [ev]) h.
Proof.
  intros [Hin Hrel] Hev. split.
  - rewrite opened_handles_app. apply in_or_app. now left.
  - rewrite released_snoc, Hrel. destruct ev; try reflexivity. exact Hev.
Qed.

Lemma live_created t i api h :
  well_used t -> hid h = List.length t -> live (t ++ [EvVideoCapture i api (Ok h)]) h.
Proof.
  intros Hwu Hh. split.
  - rewrite opened_handles_app. apply in_or_app. right. now left.
  - rewrite released_snoc, (well_used_fresh t Hwu h) by lia. reflexivity.
Qed.

(** A call that is in order and is no release of the held handle keeps the
    machine orderly. *)
Lemma orderly_record m ev :
  orderly m ->
  legal (calls m) ev ->
  (forall h, camera (vars m) = Some h ->
             match ev with EvRelease h' _ => handle_eqb h h' = false | _ => True end) ->
  orderly (record ev m).
Proof.
  intros [Hwu Hcam] Hev Hrel. split.
  - now constructor.
  - intros h Hh. apply live_snoc; [now apply Hcam | now apply Hrel].
Qed.

Lemma orderly_modify m f :
  orderly m ->
  (forall h, camera (f (vars m)) = Some h -> live (calls m) h) ->
  orderly (snd (modify f m)).
Proof. intros [Hwu _] H. split; assumption. Qed.

(** A method call on the held handle, other than [release]. *)
Lemma orderly_camera_call {A} name (method : handle -> M A) :
  (forall h m, exists ev,
       snd (method h m) = record ev m
       /\ is_release ev = false
       /\ (live (calls m) h -> legal (calls m) ev)) ->
  keeps stays_orderly (on_camera name method).
Proof.
  intros Hmethod m Hm. unfold on_camera, bind, get_camera. cbn.
  destruct (camera (vars m)) as [h|] eqn:Hcam; [|exact Hm].
  destruct (Hmethod h m) as (ev & -> & Hnr & Hlegal).
  apply orderly_record; [exact Hm | apply Hlegal, Hm, Hcam|].
  intros h' _. destruct ev; try exact I. discriminate Hnr.
Qed.

Lemma orderly_camera_read dev name : keeps stays_orderly (on_camera name (cap_read dev)).
Proof.
  apply orderly_camera_call. intros h m. eexists. split; [reflexivity|]. split; [reflexivity|].
  intro H. exact H.
Qed.

Lemma orderly_camera_get dev name p :
  keeps stays_orderly (on_camera name (fun c => cap_get dev c p)).
Proof.
  apply orderly_camera_call. intros h m. eexists. split; [reflexivity|]. split; [reflexivity|].
  intro H. exact H.
Qed.

Lemma orderly_camera_set dev name p v :
  keeps stays_orderly (on_camera name (fun c => cap_set dev c p v)).
Proof.
  apply orderly_camera_call. intros h m. eexists. split; [reflexivity|]. split; [reflexivity|].
  intro H. exact H.
Qed.

Lemma orderly_same_camera f :
  (forall g, camera (f g) = camera g) -> keeps stays_orderly (modify f).
Proof.
  intros Hf m Hm. apply orderly_modify; [exact Hm|].
  intros h Hh. rewrite Hf in Hh. now apply Hm.
Qed.

Ltac orderly_step :=
  match goal with
  | |- keeps _ (bind _ _) => apply keeps_bind; [typeclasses eauto | | intro]
  | |- keeps _ (try_except _ _) => apply keeps_try_except; [typeclasses eauto | | intro]
  | |- keeps _ (ret _) => apply keeps_ret; typeclasses eauto
  | |- keeps _ (raise _) => apply keeps_raise; typeclasses eauto
  | |- keeps _ get_camera => apply keeps_reader; typeclasses eauto
  | |- keeps _ get_is_running => apply keeps_reader; typeclasses eauto
  | |- keeps _ get_last_frame => apply keeps_reader; typeclasses eauto
  | |- keeps _ get_error_message => apply keeps_reader; typeclasses eauto
  | |- keeps _ (cvtColor_BGR2RGB _ _) => apply keeps_cvtColor; typeclasses eauto
  | |- keeps _ (on_camera _ (cap_read _)) => apply orderly_camera_read
  | |- keeps _ (on_camera _ (fun c => cap_get _ c _)) => apply orderly_camera_get
  | |- keeps _ (on_camera _ (fun c => cap_set _ c _ _)) => apply orderly_camera_set
  | |- keeps _ (read_and_store _ _) => unfold read_and_store
  | |- keeps _ (py_int ?x) => destruct x; cbn [py_int]
  | |- keeps _ (match ?x with _ => _ end) => destruct x
  | |- keeps _ (set_is_running _) => apply orderly_same_camera; reflexivity
  | |- keeps _ (set_last_frame _) => apply orderly_same_camera; reflexivity
  | |- keeps _ (set_error_message _) => apply orderly_same_camera; reflexivity
  end.

Lemma orderly_discard_frames dev n : keeps stays_orderly (discard_frames dev n).
Proof. induction n as [|n IH]; cbn [discard_frames]; repeat orderly_step. exact IH. Qed.

Lemma orderly_get_webcam_frame dev : keeps stays_orderly (get_webcam_frame dev).
Proof.
  unfold get_webcam_frame, drain_buffer. repeat orderly_step.
  apply orderly_discard_frames.
Qed.

Lemma orderly_stop_webcam dev : keeps stays_orderly (stop_webcam dev).
Proof.
  intros m [Hwu Hcam].
  pose proof (stop_webcam_vars dev m) as Hv. pose proof (stop_webcam_calls dev m) as Hc.
  split.
  - rewrite Hc. destruct (camera (vars m)) as [h|] eqn:E.
    + constructor; [exact Hwu | now apply Hcam].
    + now rewrite app_nil_r.
  - intros h Hh. rewrite Hv in Hh. discriminate Hh.
Qed.

Lemma orderly_adopt dev h m :
  orderly m -> live (calls m) h -> orderly (snd (adopt dev h m)).
Proof.
  intros Hm Hlive. unfold adopt.
  assert (H1 : orderly (snd (set_camera (Some h) m))).
  { apply orderly_modify; [exact Hm|]. cbn. intros h' [= <-]. exact Hlive. }
  unfold bind at 1. cbn [set_camera modify] in *.
  match goal with
  | |- orderly (snd (?c ?m1)) =>
      assert (K : keeps stays_orderly c) by (repeat orderly_step); exact (K m1 H1)
  end.
Qed.

Lemma orderly_probe_indices dev indices : keeps stays_orderly (probe_indices dev indices).
Proof.
  induction indices as [|i rest IH]; intros m Hm; [exact Hm|].
  cbn [probe_indices]. unfold bind at 1. unfold VideoCapture.
  destruct (on_VideoCapture dev (calls m) i (backend dev)) as [[]|e].
  2:{ cbn [snd]. apply orderly_record; [exact Hm | exact I | intros; exact I]. }
  set (h := {| hid := List.length (calls m); hindex := i |}).
  set (m1 := record (EvVideoCapture i (backend dev) (Ok h)) m).
  assert (H1 : orderly m1) by (apply orderly_record; [exact Hm | reflexivity | intros; exact I]).
  assert (L1 : live (calls m1) h) by (apply live_created; [apply Hm | reflexivity]).
  assert (Hother : forall h', camera (vars m) = Some h' -> handle_eqb h' h = false).
  { intros h' Hh'. destruct Hm as [Hwu Hlive]. destruct (Hlive h' Hh') as [Hin _].
    pose proof (well_used_opened _ Hwu h' Hin) as Hlt.
    unfold handle_eqb. cbn. destruct (Nat.eqb_spec (hid h') (List.length (calls m)));
      [lia | reflexivity]. }
  unfold bind at 1. unfold cap_isOpened. cbv beta zeta.
  set (o := on_isOpened dev (calls m1) h).
  set (m2 := record (EvIsOpened h o) m1).
  assert (H2 : orderly m2) by (apply orderly_record; [exact H1 | exact L1 | intros; exact I]).
  assert (L2 : live (calls m2) h) by (apply live_snoc; [exact L1 | exact I]).
  assert (Hrelease : forall m3, orderly m3 -> live (calls m3) h ->
                       camera (vars m3) = camera (vars m) ->
                       orderly (snd ((cap_release dev h ;; probe_indices dev rest) m3))).
  { intros m3 H3 L3 Hcam3. unfold bind at 1. unfold cap_release. cbv beta zeta.
    assert (H4 : orderly (record (EvRelease h (on_release dev (calls m3) h)) m3)).
    { apply orderly_record; [exact H3 | exact L3|].
      intros h' Hh'. apply Hother. now rewrite <- Hcam3. }
    destruct (on_release dev (calls m3) h) as [[]|e]; [apply IH, H4 | exact H4]. }
  destruct o as [[]|e]; [| |exact H2].
  - unfold bind at 1. unfold cap_read. cbv beta zeta.
    set (rd := on_read dev (calls m2) h).
    set (m3 := record (EvRead h rd) m2).
    assert (H3 : orderly m3) by (apply orderly_record; [exact H2 | exact L2 | intros; exact I]).
    assert (L3 : live (calls m3) h) by (apply live_snoc; [exact L2 | exact I]).
    destruct rd as [[[] [f|]]|e].
    + now apply orderly_adopt.
    + now apply Hrelease.
    + now apply Hrelease.
    + now apply Hrelease.
    + exact H3.
  - now apply Hrelease.
Qed.

Lemma orderly_initialize_camera dev : keeps stays_orderly (initialize_camera dev).
Proof.
  unfold initialize_camera, acquire.
  apply keeps_bind; [typeclasses eauto | | intro r].
  - repeat orderly_step. apply orderly_probe_indices.
  - destruct r; [apply keeps_ret; typeclasses eauto|].
    intros m Hm. unfold bind, get_camera. cbn.
    destruct (camera (vars m)) as [h|] eqn:E; [|exact Hm].
    apply orderly_record; [exact Hm | now apply Hm | intros; exact I].
Qed.

Lemma orderly_perform dev a : keeps stays_orderly (perform dev a).
Proof.
  destruct a; cbn [perform].
  - unfold start_webcam. repeat orderly_step. apply orderly_initialize_camera.
  - apply orderly_stop_webcam.
  - apply orderly_get_webcam_frame.
Qed.

Lemma well_used_split t :
  well_used t -> forall t1 ev t2, t = t1 ++ ev :: t2 -> legal t1 ev.
Proof.
  induction 1 as [|t ev0 Hwu IH Hev]; intros t1 ev t2 E.
  - destruct t1; discriminate E.
  - destruct (exists_last (l := ev :: t2)) as (t2' & x & E2); [discriminate|].
    rewrite E2, app_assoc in E. apply app_inj_tail in E. destruct E as [E <-].
    destruct t2' as [|ev' t2'].
    + cbn in E2. injection E2 as <- _. rewrite app_nil_r in E. now subst t1.
    + cbn in E2. injection E2 as <- _. exact (IH _ _ _ E).
Qed.

(** X17: whatever the device does, a session calls the methods of a capture
    object only between the object's creation and its release: every
    [isOpened], [read], [set], [get] and [release] in the device history is
    on an object that was created earlier in the history and on which
    [release] had not been called before; so no object is released twice or
    used after its release.  The handle in [camera] is always such a live
    object. *)
Theorem session_uses_live_objects (dev : device) (acts : list action) :
  let m := snd (session dev acts initial_machine) in
  (forall t1 ev t2, calls m = t1 ++ ev :: t2 -> legal t1 ev)
  /\ (forall h, camera (vars m) = Some h -> live (calls m) h).
Proof.
  intro m.
  assert (H : orderly m).
  { apply (session_keeps dev stays_orderly (orderly_perform dev) acts initial_machine).
    split; [constructor | discriminate]. }
  split; [intros t1 ev t2 E; exact (well_used_split _ (proj1 H) _ _ _ E) | apply H].
Qed.
